(** * collaborative-docs: the OT engine, the document container and the hub

    A shallow embedding of the Go packages [operations], [document] and
    [hub], and the properties of them that the specification states.

    Conventions of the embedding.
    - Go's [int] is the 64-bit two's complement integer of the platforms the
      server is built for; it is a [Z] and every arithmetic operation of the
      source is written with its wrap-around ([GoInt.add], [GoInt.sub]).
    - A Go [string] and a [[]byte] are sequences of bytes: Rocq's [string],
      one [ascii] per byte.  [len] is the byte length.  A slice expression
      [s[lo:hi]] panics outside [0 <= lo <= hi <= len(s)].
    - A function that returns [(T, error)] returns a [result T]: [Ok v] for
      [(v, nil)], [Err e] for [(zero, e)], and [Panic] for a run-time panic.
    - A pointer that the source compares with [nil] is an [option]. *)

From Stdlib Require Import ZArith Lia Bool Ascii.
From stdpp Require Import gmap strings list fin_maps.

#[local] Open Scope Z_scope.
#[local] Arguments String.append !_ _ / : simpl nomatch.

(** ** Go's machine integers *)

Module GoInt.

Definition int_min : Z := - 2 ^ 63.
Definition int_max : Z := 2 ^ 63 - 1.

(** The value of a mathematical integer once stored in an [int]. *)
Definition wrap (z : Z) : Z := (z + 2 ^ 63) mod 2 ^ 64 - 2 ^ 63.

Definition add (a b : Z) : Z := wrap (a + b).
Definition sub (a b : Z) : Z := wrap (a - b).

Definition in_range (z : Z) : Prop := int_min <= z <= int_max.

End GoInt.

(** ** Strings, errors and results *)

Module GoString.

Definition len (s : string) : Z := Z.of_nat (String.length s).

(** A string that a Go program can hold: its length fits an [int]. *)
Definition representable (s : string) : Prop := len s <= GoInt.int_max.

End GoString.

Import GoInt GoString.

(** Errors are kept as data: one constructor per [fmt.Errorf] of the source,
    carrying the values the message is formatted from. *)
Inductive error : Type :=
  | ErrNilOperation
  | ErrInvalidPosition (position : Z)
  | ErrEmptyInsert
  | ErrEmptyDelete
  | ErrUnknownType (t : string)
  | ErrInvalidVersion (version : Z)
  | ErrInvalidOperation (cause : error)
  | ErrInsertOutOfRange (position docLen : Z)
  | ErrDeleteOutOfRange (position docLen : Z)
  | ErrDeleteExceeds (position stop docLen : Z)
  | ErrDeleteTextMismatch (expected found : string)
  | ErrApplyAll (index : Z) (cause : error)
  | ErrNilOperations
  | ErrOp1Invalid (cause : error)
  | ErrOp2Invalid (cause : error)
  | ErrUnsupportedCombination (t1 t2 : string)
  | ErrUnmarshal
  | ErrMarshal.

Inductive result (A : Type) : Type :=
  | Ok (a : A)
  | Err (e : error)
  | Panic.

Arguments Ok {A} a.
Arguments Err {A} e.
Arguments Panic {A}.

(** Sequencing stops at the first error or panic; [x ← r; k] is stdpp's
    notation for it. *)
#[export] Instance result_bind : MBind result := fun A B k r =>
  match r with
  | Ok a => k a
  | Err e => Err e
  | Panic => Panic
  end.

#[export] Instance result_ret : MRet result := fun A a => Ok a.

(** [s[lo:hi]]; the run time checks the bounds. *)
Definition slice (s : string) (lo hi : Z) : result string :=
  if bool_decide (0 <= lo /\ lo <= hi /\ hi <= len s)
  then Ok (String.substring (Z.to_nat lo) (Z.to_nat (hi - lo)) s)
  else Panic.

(** ** Package [operations]: operations, [Apply] and [Transform] *)

Module operations.

(** [OpType] is a string type: the three constants below are the known
    kinds, and any other string can arrive from the wire. *)
Definition OpType : Type := string.

Definition OpInsert : OpType := "insert".
Definition OpDelete : OpType := "delete".
Definition OpRetain : OpType := "retain".

Record Operation : Type := mkOperation {
  Type_ : OpType;
  Position : Z;
  Text : string;
  Version : Z
}.

Definition NewInsertOp (position : Z) (text : string) (version : Z) : Operation :=
  {| Type_ := OpInsert; Position := position; Text := text; Version := version |}.

Definition NewDeleteOp (position : Z) (text : string) (version : Z) : Operation :=
  {| Type_ := OpDelete; Position := position; Text := text; Version := version |}.

(** Assignments to one field of an operation. *)
Definition set_Position (op : Operation) (p : Z) : Operation :=
  {| Type_ := Type_ op; Position := p; Text := Text op; Version := Version op |}.

Definition set_Text (op : Operation) (t : string) : Operation :=
  {| Type_ := Type_ op; Position := Position op; Text := t; Version := Version op |}.

Definition set_Version (op : Operation) (v : Z) : Operation :=
  {| Type_ := Type_ op; Position := Position op; Text := Text op; Version := v |}.

(** [Validate]: [None] is the [nil] error. *)
Definition Validate (op : Operation) : option error :=
  if Position op <? 0 then Some (ErrInvalidPosition (Position op))
  else
    let version_check :=
      if Version op <? 0 then Some (ErrInvalidVersion (Version op)) else None in
    if String.eqb (Type_ op) OpInsert then
      if String.eqb (Text op) "" then Some ErrEmptyInsert else version_check
    else if String.eqb (Type_ op) OpDelete then
      if String.eqb (Text op) "" then Some ErrEmptyDelete else version_check
    else if String.eqb (Type_ op) OpRetain then version_check
    else Some (ErrUnknownType (Type_ op)).

Definition Length (op : Operation) : Z := len (Text op).

Definition applyInsert (doc : string) (op : Operation) : result string :=
  let docLen := len doc in
  if (Position op <? 0) || (Position op >? docLen) then
    Err (ErrInsertOutOfRange (Position op) docLen)
  else
    before ← slice doc 0 (Position op);
    after ← slice doc (Position op) docLen;
    Ok (before +:+ Text op +:+ after).

Definition applyDelete (doc : string) (op : Operation) : result string :=
  let docLen := len doc in
  let deleteLen := Length op in
  if (Position op <? 0) || (Position op >=? docLen) then
    Err (ErrDeleteOutOfRange (Position op) docLen)
  else if add (Position op) deleteLen >? docLen then
    Err (ErrDeleteExceeds (Position op) (add (Position op) deleteLen) docLen)
  else
    actualText ← slice doc (Position op) (add (Position op) deleteLen);
    if negb (String.eqb actualText (Text op)) then
      Err (ErrDeleteTextMismatch (Text op) actualText)
    else
      before ← slice doc 0 (Position op);
      after ← slice doc (add (Position op) deleteLen) docLen;
      Ok (before +:+ after).

Definition Apply (doc : string) (op : option Operation) : result string :=
  match op with
  | None => Err ErrNilOperation
  | Some op =>
      match Validate op with
      | Some e => Err (ErrInvalidOperation e)
      | None =>
          if String.eqb (Type_ op) OpInsert then applyInsert doc op
          else if String.eqb (Type_ op) OpDelete then applyDelete doc op
          else if String.eqb (Type_ op) OpRetain then Ok doc
          else Err (ErrUnknownType (Type_ op))
      end
  end.

(** The loop of [ApplyAll], from index [i] on. *)
Fixpoint ApplyAll_from (i : Z) (result_ : string) (ops : list (option Operation))
  : result string :=
  match ops with
  | [] => Ok result_
  | op :: rest =>
      match Apply result_ op with
      | Ok newDoc => ApplyAll_from (add i 1) newDoc rest
      | Err e => Err (ErrApplyAll i e)
      | Panic => Panic
      end
  end.

Definition ApplyAll (doc : string) (ops : list (option Operation)) : result string :=
  ApplyAll_from 0 doc ops.

Definition min (a b : Z) : Z := if a <? b then a else b.

(** The four helpers of [Transform] update the two fresh copies in place;
    here each returns the pair of copies after the update. *)

Definition transformInsertInsert (op1 op2 : Operation) : Operation * Operation :=
  if Position op1 <? Position op2 then
    (op1, set_Position op2 (add (Position op2) (Length op1)))
  else if Position op1 >? Position op2 then
    (set_Position op1 (add (Position op1) (Length op2)), op2)
  else
    (op1, set_Position op2 (add (Position op2) (Length op1))).

(** Returns [(insert, delete)]. *)
Definition transformInsertDelete (insert delete : Operation) : Operation * Operation :=
  if Position insert <=? Position delete then
    (insert, set_Position delete (add (Position delete) (Length insert)))
  else if Position insert >? add (Position delete) (Length delete) then
    (set_Position insert (sub (Position insert) (Length delete)), delete)
  else
    (set_Position insert (Position delete), delete).

(** Returns [(delete, insert)]. *)
Definition transformDeleteInsert (delete insert : Operation) : Operation * Operation :=
  let '(insert', delete') := transformInsertDelete insert delete in
  (delete', insert').

Definition transformDeleteDelete (op1 op2 : Operation) : result (Operation * Operation) :=
  let op1Start := Position op1 in
  let op1End := add (Position op1) (Length op1) in
  let op2Start := Position op2 in
  let op2End := add (Position op2) (Length op2) in
  if op1End <=? op2Start then
    Ok (op1, set_Position op2 (sub (Position op2) (Length op1)))
  else if op2End <=? op1Start then
    Ok (set_Position op1 (sub (Position op1) (Length op2)), op2)
  else if (op1Start =? op2Start) && (op1End =? op2End) then
    Ok (set_Text op1 "", set_Text op2 "")
  else if op2Start <? op1Start then
    let overlap := sub (min op1End op2End) op1Start in
    let op1 := set_Position op1 op2Start in
    if (overlap >? 0) && (overlap <? Length op1) then
      t ← slice (Text op1) overlap (len (Text op1));
      Ok (set_Text op1 t, op2)
    else if overlap >=? Length op1 then
      Ok (set_Text op1 "", op2)
    else Ok (op1, op2)
  else
    let overlap := sub (min op1End op2End) op2Start in
    let op2 := set_Position op2 op1Start in
    if (overlap >? 0) && (overlap <? Length op2) then
      t ← slice (Text op2) overlap (len (Text op2));
      Ok (op1, set_Text op2 t)
    else if overlap >=? Length op2 then
      Ok (op1, set_Text op2 "")
    else Ok (op1, op2).

Definition Transform (op1 op2 : option Operation) : result (Operation * Operation) :=
  match op1, op2 with
  | Some op1, Some op2 =>
      match Validate op1 with
      | Some e => Err (ErrOp1Invalid e)
      | None =>
          match Validate op2 with
          | Some e => Err (ErrOp2Invalid e)
          | None =>
              let op1Prime :=
                {| Type_ := Type_ op1; Position := Position op1;
                   Text := Text op1; Version := add (Version op1) 1 |} in
              let op2Prime :=
                {| Type_ := Type_ op2; Position := Position op2;
                   Text := Text op2; Version := add (Version op2) 1 |} in
              if String.eqb (Type_ op1) OpInsert && String.eqb (Type_ op2) OpInsert then
                Ok (transformInsertInsert op1Prime op2Prime)
              else if String.eqb (Type_ op1) OpInsert && String.eqb (Type_ op2) OpDelete then
                Ok (transformInsertDelete op1Prime op2Prime)
              else if String.eqb (Type_ op1) OpDelete && String.eqb (Type_ op2) OpInsert then
                Ok (transformDeleteInsert op1Prime op2Prime)
              else if String.eqb (Type_ op1) OpDelete && String.eqb (Type_ op2) OpDelete then
                transformDeleteDelete op1Prime op2Prime
              else
                Err (ErrUnsupportedCombination (Type_ op1) (Type_ op2))
          end
      end
  | _, _ => Err ErrNilOperations
  end.

(** How a caller applies an operation that [Transform] returned: an
    operation whose text was reduced to the empty string is a no-op and
    [Apply] is not called (the convergence harness of [ot_test.go]). *)
Definition applyTransformed (doc : string) (op : Operation) : result string :=
  if String.eqb (Text op) "" then Ok doc else Apply doc (Some op).

(** The two application orders of a transformed pair. *)
Definition first_then_second (D : string) (a b : Operation) : result string :=
  '(a', b') ← Transform (Some a) (Some b);
  d1 ← Apply D (Some a);
  applyTransformed d1 b'.

Definition second_then_first (D : string) (a b : Operation) : result string :=
  '(a', b') ← Transform (Some a) (Some b);
  d2 ← Apply D (Some b);
  applyTransformed d2 a'.

(** *** Vocabulary of the statements *)

(** [op] applies to [D]: [Apply] returns a document. *)
Definition applies (D : string) (op : Operation) : Prop :=
  exists r, Apply D (Some op) = Ok r.

(** Both orders of application succeed and end in the same document. *)
Definition converge (D : string) (a b : Operation) : Prop :=
  exists r, first_then_second D a b = Ok r /\ second_then_first D a b = Ok r.

(** The insert [i] lands strictly inside the range of the delete [d]. *)
Definition strictly_inside (i d : Operation) : Prop :=
  Position d < Position i < Position d + len (Text d).

(** The ranges of two deletes share a position and are not the same range. *)
Definition overlapping (a b : Operation) : Prop :=
  Position a < Position b + len (Text b) /\
  Position b < Position a + len (Text a) /\
  ~ (Position a = Position b /\ len (Text a) = len (Text b)).

Definition conflicting (a b : Operation) : Prop :=
  (Type_ a = OpInsert /\ Type_ b = OpDelete /\ strictly_inside a b) \/
  (Type_ a = OpDelete /\ Type_ b = OpInsert /\ strictly_inside b a) \/
  (Type_ a = OpDelete /\ Type_ b = OpDelete /\ overlapping a b).

End operations.

(** ** Package [document]: the document container *)

Module document.

(** A reading of the wall clock ([time.Now()]). *)
Definition Time : Type := Z.

(** The fields the mutex guards.  Every method holds the lock for its whole
    body, so a method is one atomic transition of this record. *)
Record Document : Type := mkDocument {
  content : string;
  version : Z;
  lastModified : Time
}.

Definition NewDocument (now : Time) : Document :=
  {| content := ""; version := 0; lastModified := now |}.

Definition GetContent (d : Document) : string := content d.

Definition SetContent (d : Document) (content_ : string) (now : Time) : Document :=
  {| content := content_; version := add (version d) 1; lastModified := now |}.

Definition GetVersion (d : Document) : Z := version d.

Definition GetStats (d : Document) : Z * Time * Z :=
  (version d, lastModified d, len (content d)).

(** [ApplyOperation] returns the document after the call and the triple
    [(string, int, error)] of the source; [None] is a panic of [Apply]. *)
Definition ApplyOperation (d : Document) (op : option operations.Operation)
    (now : Time) : option (Document * (string * Z * option error)) :=
  match operations.Apply (content d) op with
  | Err err => Some (d, ("", version d, Some err))
  | Ok newContent =>
      let d' := {| content := newContent;
                   version := add (version d) 1;
                   lastModified := now |} in
      Some (d', (newContent, version d', None))
  | Panic => None
  end.

Definition GetContentAndVersion (d : Document) : string * Z :=
  (content d, version d).

End document.

(** ** Package [hub]: messages, clients and the event loop *)

Module hub.

Definition MessageType : Type := string.

Definition MsgTypeContent : MessageType := "content".
Definition MsgTypeOperation : MessageType := "operation".
Definition MsgTypeUserCount : MessageType := "user_count".

Record Message : Type := mkMessage {
  Type_ : MessageType;
  DocumentID : string;
  Content : string;
  Operation : option operations.Operation;
  UserCount : Z
}.

Definition NewContentMessage (content : string) : Message :=
  {| Type_ := MsgTypeContent; DocumentID := ""; Content := content;
     Operation := None; UserCount := 0 |}.

Definition NewOperationMessage (op : option operations.Operation) : Message :=
  {| Type_ := MsgTypeOperation; DocumentID := ""; Content := "";
     Operation := op; UserCount := 0 |}.

Definition NewUserCountMessage (count : Z) : Message :=
  {| Type_ := MsgTypeUserCount; DocumentID := ""; Content := "";
     Operation := None; UserCount := count |}.

(** The three uses the package makes of [encoding/json], which is not code
    of this repository: [json.Marshal] of a message, [json.Unmarshal] into
    a fresh [Message], and whether [json.Unmarshal] into a
    [map[string]interface{}] succeeds.  [None] is a returned error. *)
Class JSON : Type := {
  Marshal : Message -> option string;
  Unmarshal : string -> option Message;
  UnmarshalObject : string -> bool
}.

(** A channel of byte slices: the buffered messages, oldest first, the
    capacity it was made with, and whether it was closed. *)
Record chan : Type := mkChan {
  buf : list string;
  cap : nat;
  closed : bool
}.

Definition make_chan (capacity : nat) : chan :=
  {| buf := []; cap := capacity; closed := false |}.

(** [close(ch)]; closing a closed channel panics. *)
Definition close (ch : chan) : option chan :=
  if closed ch then None
  else Some {| buf := buf ch; cap := cap ch; closed := true |}.

(** The fields of a [Client] that the hub loop touches.  [hub] and [conn]
    are used by the pumps and at shutdown only. *)
Record Client : Type := mkClient {
  send : chan;
  documentID : string
}.

Definition NewClient (documentID_ : string) : Client :=
  {| send := make_chan 256; documentID := documentID_ |}.

(** A [*Client]: an address.  An address with no object in the heap stands
    for [nil]: using it panics. *)
Definition ptr : Type := positive.

(** The hub's maps, and the heap of [Client] objects that the keys of
    [clients] point to. *)
Record Hub : Type := mkHub {
  clients : gset ptr;
  documents : gmap string document.Document;
  heap : gmap ptr Client
}.

Definition NewHub : Hub :=
  {| clients := ∅; documents := ∅; heap := ∅ |}.

(** What one iteration of a [for client := range h.clients] loop does. *)
Inductive outcome : Type :=
  | Continue                (* nothing is done for this client *)
  | Sent (c : Client)       (* [client.send <- message] went through *)
  | Unregistering           (* [go h.Unregister(client)] was started *)
  | Crash.                  (* the iteration panicked *)

(** The buffer of the client's channel has no free slot. *)
Definition full (c : Client) : Prop :=
  (cap (send c) <= length (buf (send c)))%nat.

(** The client with [message] added at the back of its channel. *)
Definition enqueue (c : Client) (message : string) : Client :=
  {| send := {| buf := buf (send c) ++ [message];
                cap := cap (send c);
                closed := closed (send c) |};
     documentID := documentID c |}.

(** [select { case c.send <- message: default: ... }]. A send on a closed
    channel panics; a full buffer takes the [default] branch. *)
Definition select_send (c : Client) (message : string) (default : outcome)
  : outcome :=
  if closed (send c) then Crash
  else if bool_decide (full c) then default
  else Sent (enqueue c message).

(** [exclude != nil && client == exclude] *)
Definition excluded (exclude : option ptr) (client : ptr) : bool :=
  match exclude with
  | Some e => bool_decide (client = e)
  | None => false
  end.

(** A range loop over the client set, on the heap and the set of clients
    for which an unregistering goroutine was started.  The body is given
    the key and the object it points to.  Go leaves the order of the
    iteration open; the bodies below touch nothing but the client of the
    iteration. *)
Fixpoint range_clients (body : ptr -> option Client -> outcome)
    (cs : list ptr) (hp : gmap ptr Client) (spawned : gset ptr)
  : option (gmap ptr Client * gset ptr) :=
  match cs with
  | [] => Some (hp, spawned)
  | client :: cs' =>
      match body client (hp !! client) with
      | Continue => range_clients body cs' hp spawned
      | Sent c => range_clients body cs' (<[client := c]> hp) spawned
      | Unregistering => range_clients body cs' hp ({[client]} ∪ spawned)
      | Crash => None
      end
  end.

Definition set_heap (h : Hub) (hp : gmap ptr Client) : Hub :=
  {| clients := clients h; documents := documents h; heap := hp |}.

Definition set_documents (h : Hub) (ds : gmap string document.Document) : Hub :=
  {| clients := clients h; documents := ds; heap := heap h |}.

(** The loop of [ClientCountForDocument]. *)
Fixpoint countClients (cs : list ptr) (hp : gmap ptr Client)
    (documentID_ : string) (count : Z) : option Z :=
  match cs with
  | [] => Some count
  | client :: cs' =>
      c ← hp !! client;
      countClients cs' hp documentID_
        (if String.eqb (documentID c) documentID_ then add count 1 else count)
  end.

Definition ClientCountForDocument (h : Hub) (documentID_ : string) : option Z :=
  countClients (elements (clients h)) (heap h) documentID_ 0.

Definition ClientCount (h : Hub) : Z := Z.of_nat (size (clients h)).

Section with_json.

Context {J : JSON}.

Definition ToBytes (m : Message) : result string :=
  match Marshal m with
  | Some data => Ok data
  | None => Err ErrMarshal
  end.

Definition MessageFromBytes (data : string) : result Message :=
  match Unmarshal data with
  | Some msg => Ok msg
  | None => Err ErrUnmarshal
  end.

Definition IsLegacyContent (data : string) : bool :=
  negb (UnmarshalObject data).

Definition HandleLegacyContent (data : string) : Message :=
  {| Type_ := MsgTypeContent; DocumentID := ""; Content := data;
     Operation := None; UserCount := 0 |}.

Definition GetOrCreateDocument (h : Hub) (documentID_ : string)
    (now : document.Time) : Hub * document.Document :=
  match documents h !! documentID_ with
  | Some doc => (h, doc)
  | None =>
      let doc := document.NewDocument now in
      (set_documents h (<[documentID_ := doc]> (documents h)), doc)
  end.

Definition GetDocument (h : Hub) (documentID_ : string)
  : option document.Document :=
  documents h !! documentID_.

(** The first loop of [broadcastUserCount]: [docCounts[client.documentID]++]. *)
Fixpoint countDocuments (cs : list ptr) (hp : gmap ptr Client)
    (docCounts : gmap string Z) : option (gmap string Z) :=
  match cs with
  | [] => Some docCounts
  | client :: cs' =>
      c ← hp !! client;
      countDocuments cs' hp
        (<[documentID c := add (default 0 (docCounts !! documentID c)) 1]>
           docCounts)
  end.

(** The second loop of [broadcastUserCount], over the entries of
    [docCounts]; the [default:] branch of its [select] is empty. *)
Fixpoint sendUserCounts (cs : list ptr) (entries : list (string * Z))
    (hp : gmap ptr Client) (spawned : gset ptr)
  : option (gmap ptr Client * gset ptr) :=
  match entries with
  | [] => Some (hp, spawned)
  | (documentID_, count) :: rest =>
      match ToBytes (NewUserCountMessage count) with
      | Ok msgBytes =>
          '(hp', spawned') ← range_clients
            (fun client oc =>
               match oc with
               | None => Crash
               | Some c =>
                   if String.eqb (documentID c) documentID_
                   then select_send c msgBytes Continue
                   else Continue
               end) cs hp spawned;
          sendUserCounts cs rest hp' spawned'
      | _ => sendUserCounts cs rest hp spawned
      end
  end.

(** Like the fan-out functions below, [broadcastUserCount] returns the hub
    and the clients for which an unregistering goroutine was started. *)
Definition broadcastUserCount (h : Hub) : option (Hub * gset ptr) :=
  docCounts ← countDocuments (elements (clients h)) (heap h) ∅;
  '(hp, spawned) ← sendUserCounts (elements (clients h))
                     (map_to_list docCounts) (heap h) ∅;
  Some (set_heap h hp, spawned).

(** The two fan-out functions return the hub and the clients for which
    [go h.Unregister(client)] was started. *)
Definition broadcastToAll (h : Hub) (message : string) (exclude : option ptr)
  : option (Hub * gset ptr) :=
  '(hp, spawned) ← range_clients
    (fun client oc =>
       if excluded exclude client then Continue
       else match oc with
            | None => Crash
            | Some c => select_send c message Unregistering
            end) (elements (clients h)) (heap h) ∅;
  Some (set_heap h hp, spawned).

Definition broadcastToDocument (h : Hub) (documentID_ : string)
    (message : string) (exclude : option ptr) : option (Hub * gset ptr) :=
  '(hp, spawned) ← range_clients
    (fun client oc =>
       match oc with
       | None => Crash
       | Some c =>
           if String.eqb (documentID c) documentID_ then
             if excluded exclude client then Continue
             else select_send c message Unregistering
           else Continue
       end) (elements (clients h)) (heap h) ∅;
  Some (set_heap h hp, spawned).

(** What the loop of [Run] receives from its channels. *)
Inductive event : Type :=
  | Register (client : ptr)
  | Unregister (client : ptr)
  | Broadcast (message : string) (sender : option ptr).

(** One iteration of the loop of [Run] on a received event.  [t_create] and
    [t_mutate] are the readings of the clock when a document is created and
    when it is mutated.  The result is the hub after the iteration and the
    clients for which an unregistering goroutine was started; [None] is a
    panic.  Logging is left out. *)
Definition Run_step (t_create t_mutate : document.Time) (h : Hub) (e : event)
  : option (Hub * gset ptr) :=
  match e with
  | Register client =>
      let h := {| clients := {[client]} ∪ clients h;
                  documents := documents h; heap := heap h |} in
      broadcastUserCount h
  | Unregister client =>
      h1 ← (if bool_decide (client ∈ clients h) then
              c ← heap h !! client;
              ch ← close (send c);
              Some {| clients := clients h ∖ {[client]};
                      documents := documents h;
                      heap := <[client := {| send := ch;
                                             documentID := documentID c |}]>
                                (heap h) |}
            else Some h);
      broadcastUserCount h1
  | Broadcast message sender =>
      match MessageFromBytes message with
      | Ok msg =>
          if IsLegacyContent message then broadcastToAll h message None
          else
            let documentID_ := DocumentID msg in
            if String.eqb documentID_ "" then broadcastToAll h message None
            else
              let '(h, doc) := GetOrCreateDocument h documentID_ t_create in
              if String.eqb (Type_ msg) MsgTypeOperation then
                match Operation msg with
                | Some op =>
                    '(doc', (newContent, newVersion, err)) ←
                      document.ApplyOperation doc (Some op) t_mutate;
                    let h := set_documents h (<[documentID_ := doc']> (documents h)) in
                    match err with
                    | Some _ => Some (h, ∅)
                    | None =>
                        let msg :=
                          {| Type_ := Type_ msg; DocumentID := DocumentID msg;
                             Content := Content msg;
                             Operation :=
                               Some (operations.set_Version op newVersion);
                             UserCount := UserCount msg |} in
                        match ToBytes msg with
                        | Ok msgBytes =>
                            broadcastToDocument h documentID_ msgBytes sender
                        | _ => Some (h, ∅)
                        end
                    end
                | None => Some (h, ∅)
                end
              else if String.eqb (Type_ msg) MsgTypeContent then
                if negb (String.eqb (Content msg) "") then
                  let doc' := document.SetContent doc (Content msg) t_mutate in
                  let h := set_documents h (<[documentID_ := doc']> (documents h)) in
                  let msgBytes :=
                    match ToBytes msg with Ok data => data | _ => "" end in
                  broadcastToDocument h documentID_ msgBytes sender
                else Some (h, ∅)
              else broadcastToDocument h documentID_ message sender
      | _ => broadcastToAll h message None
      end
  end.

End with_json.

(** *** Vocabulary of the statements *)

(** A non-blocking send to a client whose channel is open: the message is
    queued unless the buffer is full. *)
Definition offer (c : Client) (message : string) : Client :=
  if bool_decide (full c) then c else enqueue c message.

(** Every registered client is an object of the heap whose channel is open:
    what registering fresh clients and unregistering them maintains. *)
Definition live (h : Hub) : Prop :=
  forall p, p ∈ clients h ->
    exists c, heap h !! p = Some c /\ closed (send c) = false.

(** A fan-out of [message] from [h] to the registered clients that [target]
    selects, ending in [h'] with the unregistering goroutines [spawned]:
    a target with room in its queue has [message] at the back of it; a
    target whose queue is full keeps its queue and is scheduled for
    unregistration; no other client is touched and nobody is added to or
    removed from the client set. *)
Definition fanout (h h' : Hub) (spawned : gset ptr)
    (target : ptr -> Client -> bool) (message : string) : Prop :=
  clients h' = clients h /\
  forall p,
    (p ∉ clients h -> heap h' !! p = heap h !! p /\ p ∉ spawned) /\
    (p ∈ clients h ->
     exists c, heap h !! p = Some c /\
       if target p c
       then heap h' !! p = Some (offer c message) /\ (p ∈ spawned <-> full c)
       else heap h' !! p = Some c /\ p ∉ spawned).

(** What the user-count emission does to a registered client: when the
    count of its document is known and the message can be written, the
    message is offered to it. *)
Definition notify {J : JSON} (c : Client) (count : option Z) : Client :=
  match count with
  | Some n =>
      match ToBytes (NewUserCountMessage n) with
      | Ok msgBytes => offer c msgBytes
      | _ => c
      end
  | None => c
  end.

(** The queue of the client at [p], if there is one. *)
Definition queue (h : Hub) (p : ptr) : option (list string) :=
  c ← heap h !! p; Some (buf (send c)).

End hub.

(** ** A codec for the examples *)

(** The general theorems below hold for every [JSON]; the examples need one
    to run.  [wire.codec] writes a message as [encoding/json] does for a
    message whose strings need no escaping, and reads back the frames of
    [wire.known]; any other frame (such as plain text) is rejected by both
    decoders, as [encoding/json] rejects text that is not JSON. *)
Module wire.

Import hub.

Definition quote : string := String "034"%char EmptyString.

Definition quoted (s : string) : string := quote +:+ s +:+ quote.

Definition field (name value : string) : string :=
  quoted name +:+ ":" +:+ value.

Fixpoint digits (fuel : nat) (n : Z) (acc : string) : string :=
  match fuel with
  | O => acc
  | S fuel' =>
      let acc' := String (ascii_of_nat (48 + Z.to_nat (n mod 10))) acc in
      if n <? 10 then acc' else digits fuel' (n / 10) acc'
  end.

Definition decimal (n : Z) : string :=
  if n <? 0 then "-" +:+ digits 20 (- n) "" else digits 20 n "".

Definition operation_json (op : operations.Operation) : string :=
  "{" +:+ field "type" (quoted (operations.Type_ op))
      +:+ "," +:+ field "position" (decimal (operations.Position op))
      +:+ (if String.eqb (operations.Text op) "" then ""
           else "," +:+ field "text" (quoted (operations.Text op)))
      +:+ "," +:+ field "version" (decimal (operations.Version op))
      +:+ "}".

Definition message_json (m : Message) : string :=
  "{" +:+ field "type" (quoted (Type_ m))
      +:+ (if String.eqb (DocumentID m) "" then ""
           else "," +:+ field "document_id" (quoted (DocumentID m)))
      +:+ (if String.eqb (Content m) "" then ""
           else "," +:+ field "content" (quoted (Content m)))
      +:+ (match Operation m with
           | None => ""
           | Some op => "," +:+ field "operation" (operation_json op)
           end)
      +:+ (if UserCount m =? 0 then ""
           else "," +:+ field "user_count" (decimal (UserCount m)))
      +:+ "}".

(** The structured frames of the examples. *)
Definition content_without_text : Message :=
  {| Type_ := MsgTypeContent; DocumentID := "doc-A"; Content := "";
     Operation := None; UserCount := 0 |}.

Definition operation_without_operation : Message :=
  {| Type_ := MsgTypeOperation; DocumentID := "doc-A"; Content := "";
     Operation := None; UserCount := 0 |}.

Definition content_without_document : Message :=
  {| Type_ := MsgTypeContent; DocumentID := ""; Content := "hi";
     Operation := None; UserCount := 0 |}.

Definition user_count_for_document : Message :=
  {| Type_ := MsgTypeUserCount; DocumentID := "doc-A"; Content := "";
     Operation := None; UserCount := 2 |}.

Definition insert_hi : Message :=
  {| Type_ := MsgTypeOperation; DocumentID := "doc-A"; Content := "";
     Operation := Some (operations.NewInsertOp 0 "hi" 0); UserCount := 0 |}.

Definition known : list Message :=
  [content_without_text; operation_without_operation;
   content_without_document; user_count_for_document; insert_hi].

Definition decode (data : string) : option Message :=
  List.find (fun m => String.eqb (message_json m) data) known.

#[export] Instance codec : JSON := {|
  Marshal := fun m => Some (message_json m);
  Unmarshal := decode;
  UnmarshalObject := fun data =>
    match decode data with Some _ => true | None => false end
|}.

(** Two participants of document [doc-A] and one of [doc-B]; nobody has
    anything queued. *)
Definition p1 : ptr := 1%positive.
Definition p2 : ptr := 2%positive.
Definition p3 : ptr := 3%positive.

(** An address that is never registered. *)
Definition stranger : ptr := 9%positive.

Definition three_clients : Hub :=
  {| clients := {[p1; p2; p3]};
     documents := ∅;
     heap := <[p1 := NewClient "doc-A"]>
               (<[p2 := NewClient "doc-A"]>
                  (<[p3 := NewClient "doc-B"]> ∅)) |}.

(** A client whose 256 slots are taken. *)
Definition stalled (documentID_ : string) : Client :=
  {| send := {| buf := replicate 256 "queued"; cap := 256; closed := false |};
     documentID := documentID_ |}.

Definition one_stalled : Hub :=
  {| clients := {[p1; p2]};
     documents := ∅;
     heap := <[p1 := stalled "doc-A"]> (<[p2 := NewClient "doc-A"]> ∅) |}.

End wire.

(** ** Vocabulary of the further properties *)

Module vocabulary.

(** [s] is what is left of [t] once a prefix has been cut off. *)
Definition is_suffix (s t : string) : Prop :=
  exists prefix, t = prefix +:+ s.

(** The operations [Transform] has a rule for. *)
Definition is_edit (op : operations.Operation) : Prop :=
  operations.Type_ op = operations.OpInsert \/
  operations.Type_ op = operations.OpDelete.

(** How an operation that [Transform] returns relates to the one it was
    given: the kind stays, the text of an insert stays, and the text of a
    delete is what is left of it after a prefix was clipped off. *)
Definition transformed (op op' : operations.Operation) : Prop :=
  operations.Type_ op' = operations.Type_ op /\
  is_suffix (operations.Text op') (operations.Text op) /\
  (operations.Type_ op = operations.OpInsert ->
   operations.Text op' = operations.Text op).

(** A call of one of the two mutating methods of a document, and a run of
    such calls, each with the reading of the clock it takes.  [mutate]
    tells whether the call changed the document; [mutate_all] counts the
    calls that did. *)
Inductive mutation : Type :=
  | CallSetContent (content : string)
  | CallApplyOperation (op : option operations.Operation).

Definition mutate (d : document.Document) (m : mutation) (now : document.Time)
  : option (document.Document * bool) :=
  match m with
  | CallSetContent content => Some (document.SetContent d content now, true)
  | CallApplyOperation op =>
      match document.ApplyOperation d op now with
      | Some (d', (_, _, None)) => Some (d', true)
      | Some (d', (_, _, Some _)) => Some (d', false)
      | None => None
      end
  end.

Fixpoint mutate_all (d : document.Document)
    (calls : list (mutation * document.Time))
  : option (document.Document * nat) :=
  match calls with
  | [] => Some (d, O)
  | (m, now) :: rest =>
      match mutate d m now with
      | Some (d1, changed) =>
          match mutate_all d1 rest with
          | Some (d2, n) => Some (d2, if changed then S n else n)
          | None => None
          end
      | None => None
      end
  end.

(** The registered clients of the hub that are bound to a document. *)
Definition on_document (h : hub.Hub) (documentID_ : string) : list hub.ptr :=
  filter (fun p => hub.documentID <$> hub.heap h !! p = Some documentID_)
         (elements (hub.clients h)).

(** What an iteration of the hub loop may do to a client that stays
    registered: its document and the capacity of its channel stay, and its
    queue either stays or gets one message at the back, which happens
    only when there was room. *)
Definition grown (c c' : hub.Client) : Prop :=
  hub.documentID c' = hub.documentID c /\
  hub.cap (hub.send c') = hub.cap (hub.send c) /\
  hub.closed (hub.send c') = hub.closed (hub.send c) /\
  (hub.buf (hub.send c') = hub.buf (hub.send c) \/
   exists message,
     hub.buf (hub.send c') = hub.buf (hub.send c) ++ [message] /\
     ~ hub.full c).

(** What one non-blocking send of the hub can do to a client: nothing, or
    offer it a message. *)
Definition touched (c c' : hub.Client) : Prop :=
  c' = c \/ exists message, c' = hub.offer c message.

(** An event as the handlers produce it: a client that registers is a
    client object whose channel is open ([NewClient] makes it so). *)
Definition admissible (h : hub.Hub) (e : hub.event) : Prop :=
  match e with
  | hub.Register client =>
      exists c, hub.heap h !! client = Some c /\
                hub.closed (hub.send c) = false
  | _ => True
  end.

(** The client set after an iteration of the hub loop on [e]. *)
Definition clients_after (h : hub.Hub) (e : hub.event) : gset hub.ptr :=
  match e with
  | hub.Register client => {[client]} ∪ hub.clients h
  | hub.Unregister client => hub.clients h ∖ {[client]}
  | hub.Broadcast _ _ => hub.clients h
  end.

(** The client as [close(client.send)] leaves it: the queued messages stay. *)
Definition closed_client (c : hub.Client) : hub.Client :=
  {| hub.send := {| hub.buf := hub.buf (hub.send c);
                    hub.cap := hub.cap (hub.send c);
                    hub.closed := true |};
     hub.documentID := hub.documentID c |}.

End vocabulary.

(** ** More frames for the examples *)

Module frames.

Import hub.

(** A content message for document [doc-A], and a delete that does not
    apply to an empty document. *)
Definition content_hi : Message :=
  {| Type_ := MsgTypeContent; DocumentID := "doc-A"; Content := "hi";
     Operation := None; UserCount := 0 |}.

Definition delete_far : Message :=
  {| Type_ := MsgTypeOperation; DocumentID := "doc-A"; Content := "";
     Operation := Some (operations.NewDeleteOp 5 "x" 0); UserCount := 0 |}.

Definition known : list Message := content_hi :: delete_far :: wire.known.

Definition decode (data : string) : option Message :=
  List.find (fun m => String.eqb (wire.message_json m) data) known.

Definition codec : JSON := {|
  Marshal := fun m => Some (wire.message_json m);
  Unmarshal := decode;
  UnmarshalObject := fun data =>
    match decode data with Some _ => true | None => false end
|}.

(** The three clients when document [doc-A] exists. *)
Definition with_document : Hub :=
  set_documents wire.three_clients (<["doc-A" := document.NewDocument 0]> ∅).

End frames.

(** Closed goals: an equation between computed values, and a membership in
    a computed set. *)
Ltac run := vm_compute; reflexivity.
Ltac member := apply (bool_decide_unpack _); vm_compute; exact I.

(** Case analysis on the integer comparisons of the goal. *)
Ltac compare :=
  repeat match goal with
         | |- context [?x >? ?y] => destruct (Z.gtb_spec x y)
         | |- context [?x <? ?y] => destruct (Z.ltb_spec x y)
         | |- context [?x >=? ?y] => destruct (Z.geb_spec x y)
         end; simpl.

(** An [int] that is inside the machine range. *)
Ltac fits := unfold in_range, int_min, int_max in *; lia.

(** * Properties *)

(** ** Integers, strings and slices *)

Module GoFacts.

Lemma wrap_in_range z : in_range z -> wrap z = z.
Proof.
  unfold in_range, int_min, int_max, wrap. intros Hz.
  rewrite Z.mod_small; lia.
Qed.

Lemma wrap_range z : in_range (wrap z).
Proof.
  unfold in_range, int_min, int_max, wrap.
  pose proof (Z.mod_pos_bound (z + 2 ^ 63) (2 ^ 64) ltac:(lia)). lia.
Qed.

Lemma add_exact a b : in_range (a + b) -> add a b = a + b.
Proof. apply wrap_in_range. Qed.

Lemma sub_exact a b : in_range (a - b) -> sub a b = a - b.
Proof. apply wrap_in_range. Qed.

Lemma add_max_wraps : add int_max 1 = int_min.
Proof. reflexivity. Qed.

Lemma len_nonneg s : 0 <= len s.
Proof. unfold len. lia. Qed.

Lemma length_append s t :
  String.length (s +:+ t) = (String.length s + String.length t)%nat.
Proof. induction s as [|c s IH]; simpl; congruence. Qed.

Lemma len_append s t : len (s +:+ t) = len s + len t.
Proof. unfold len. rewrite length_append. lia. Qed.

Lemma len_zero_empty s : len s = 0 -> s = "".
Proof. unfold len. destruct s; simpl; [reflexivity | lia]. Qed.

Lemma to_nat_len s : Z.to_nat (len s) = String.length s.
Proof. unfold len. apply Nat2Z.id. Qed.

Lemma append_assoc s t u : (s +:+ t) +:+ u = s +:+ (t +:+ u).
Proof. induction s as [|c s IH]; simpl; congruence. Qed.

Lemma substring_zero_all s : String.substring 0 (String.length s) s = s.
Proof. induction s as [|c s IH]; simpl; congruence. Qed.

Lemma substring_prefix s t :
  String.substring 0 (String.length s) (s +:+ t) = s.
Proof.
  induction s as [|c s IH]; simpl.
  - destruct t; reflexivity.
  - congruence.
Qed.

Lemma substring_skip s t n m :
  String.substring (String.length s + n) m (s +:+ t) = String.substring n m t.
Proof. induction s as [|c s IH]; simpl; [reflexivity | apply IH]. Qed.

Lemma substring_split s (p : nat) :
  (p <= String.length s)%nat ->
  String.substring 0 p s +:+ String.substring p (String.length s - p) s = s.
Proof.
  revert p. induction s as [|c s IH]; intros [|p] Hp; simpl in *;
    try reflexivity; try lia.
  - f_equal. apply substring_zero_all.
  - f_equal. apply IH. lia.
Qed.

Lemma substring_length s (n m : nat) :
  (n + m <= String.length s)%nat ->
  String.length (String.substring n m s) = m.
Proof.
  revert n m. induction s as [|c s IH]; intros [|n] [|m] Hnm; simpl in *;
    try reflexivity; try lia.
  - f_equal. apply (IH 0%nat). simpl. lia.
  - apply IH. lia.
  - apply IH. lia.
Qed.

(** Every document splits at a position inside it. *)
Lemma split_at (D : string) (p : Z) :
  0 <= p <= len D ->
  exists A B, D = A +:+ B /\ len A = p.
Proof.
  intros Hp. unfold len in *.
  exists (String.substring 0 (Z.to_nat p) D),
         (String.substring (Z.to_nat p) (String.length D - Z.to_nat p) D).
  split.
  - symmetry. apply substring_split. lia.
  - rewrite substring_length; simpl; lia.
Qed.

Lemma slice_ok s lo hi :
  0 <= lo -> lo <= hi -> hi <= len s ->
  slice s lo hi = Ok (String.substring (Z.to_nat lo) (Z.to_nat (hi - lo)) s).
Proof.
  intros. unfold slice. rewrite bool_decide_eq_true_2; [reflexivity | lia].
Qed.

Lemma slice_prefix A R : slice (A +:+ R) 0 (len A) = Ok A.
Proof.
  pose proof (len_nonneg A). pose proof (len_nonneg R).
  rewrite slice_ok by (rewrite ?len_append; lia).
  rewrite Z.sub_0_r, to_nat_len. simpl (Z.to_nat 0).
  by rewrite substring_prefix.
Qed.

Lemma slice_suffix A R : slice (A +:+ R) (len A) (len (A +:+ R)) = Ok R.
Proof.
  pose proof (len_nonneg A). pose proof (len_nonneg R).
  rewrite slice_ok by (rewrite ?len_append; lia).
  rewrite len_append. replace (len A + len R - len A) with (len R) by lia.
  rewrite !to_nat_len.
  rewrite <- (Nat.add_0_r (String.length A)), substring_skip.
  by rewrite substring_zero_all.
Qed.

Lemma slice_middle A T B :
  slice (A +:+ T +:+ B) (len A) (len A + len T) = Ok T.
Proof.
  pose proof (len_nonneg A). pose proof (len_nonneg T).
  pose proof (len_nonneg B).
  rewrite slice_ok by (rewrite ?len_append; lia).
  replace (len A + len T - len A) with (len T) by lia.
  rewrite !to_nat_len.
  rewrite <- (Nat.add_0_r (String.length A)), substring_skip.
  by rewrite substring_prefix.
Qed.

Lemma slice_tail A T B :
  slice (A +:+ T +:+ B) (len A + len T) (len (A +:+ T +:+ B)) = Ok B.
Proof.
  rewrite <- append_assoc, <- len_append. apply slice_suffix.
Qed.

End GoFacts.

(** ** [operations] *)

Module operations_facts.

Import operations GoFacts.

(** What a successful [Validate] tells. *)
Lemma Validate_ok op :
  Validate op = None ->
  0 <= Position op /\ 0 <= Version op /\
  (Type_ op = OpInsert \/ Type_ op = OpDelete -> Text op <> "").
Proof.
  unfold Validate. intros Hv.
  destruct (Z.ltb_spec (Position op) 0) as [|Hp]; [discriminate|].
  split; [lia|].
  destruct (String.eqb_spec (Type_ op) OpInsert) as [Hi|Hi].
  - destruct (String.eqb_spec (Text op) "") as [|Ht]; [discriminate|].
    destruct (Z.ltb_spec (Version op) 0); [discriminate|]. split; [lia|tauto].
  - destruct (String.eqb_spec (Type_ op) OpDelete) as [Hd|Hd].
    + destruct (String.eqb_spec (Text op) "") as [|Ht]; [discriminate|].
      destruct (Z.ltb_spec (Version op) 0); [discriminate|]. split; [lia|tauto].
    + destruct (String.eqb_spec (Type_ op) OpRetain); [|discriminate].
      destruct (Z.ltb_spec (Version op) 0); [discriminate|].
      split; [lia|]. intros [?|?]; contradiction.
Qed.

Lemma Validate_insert position text version :
  0 <= position -> text <> "" -> 0 <= version ->
  Validate (NewInsertOp position text version) = None.
Proof.
  intros Hp Ht Hv. unfold Validate, NewInsertOp. simpl.
  destruct (Z.ltb_spec position 0); [lia|].
  destruct (String.eqb_spec text ""); [contradiction|].
  destruct (Z.ltb_spec version 0); [lia | reflexivity].
Qed.

Lemma Validate_delete position text version :
  0 <= position -> text <> "" -> 0 <= version ->
  Validate (NewDeleteOp position text version) = None.
Proof.
  intros Hp Ht Hv. unfold Validate, NewDeleteOp. simpl.
  destruct (Z.ltb_spec position 0); [lia|].
  destruct (String.eqb_spec text ""); [contradiction|].
  destruct (Z.ltb_spec version 0); [lia | reflexivity].
Qed.

(** [applyInsert] and [applyDelete] on a document cut at the position. *)
Lemma applyInsert_at A B op :
  Position op = len A ->
  applyInsert (A +:+ B) op = Ok (A +:+ Text op +:+ B).
Proof.
  intros Hp. unfold applyInsert. rewrite Hp.
  pose proof (len_nonneg A). pose proof (len_nonneg B).
  destruct (Z.ltb_spec (len A) 0); [lia|].
  destruct (Z.gtb_spec (len A) (len (A +:+ B))) as [Hgt|_].
  { rewrite len_append in Hgt. lia. }
  simpl. rewrite slice_prefix, slice_suffix. reflexivity.
Qed.

Lemma applyDelete_at A B op :
  Position op = len A -> Text op <> "" ->
  representable (A +:+ Text op +:+ B) ->
  applyDelete (A +:+ Text op +:+ B) op = Ok (A +:+ B).
Proof.
  intros Hp Ht Hrep. unfold applyDelete, Length, representable in *.
  rewrite Hp. rewrite !len_append in *.
  pose proof (len_nonneg A). pose proof (len_nonneg B).
  pose proof (len_nonneg (Text op)).
  assert (len (Text op) <> 0) by (intros Hz; apply Ht, len_zero_empty, Hz).
  rewrite add_exact by (unfold in_range, int_min, int_max in *; lia).
  destruct (Z.ltb_spec (len A) 0); [lia|].
  destruct (Z.geb_spec (len A) (len A + (len (Text op) + len B))); [lia|].
  destruct (Z.gtb_spec (len A + len (Text op))
              (len A + (len (Text op) + len B))); [lia|].
  simpl. rewrite slice_middle. simpl. rewrite String.eqb_refl. simpl.
  rewrite slice_prefix.
  replace (len A + (len (Text op) + len B))
    with (len (A +:+ Text op +:+ B)) by (rewrite !len_append; lia).
  rewrite slice_tail. reflexivity.
Qed.

(** X26. [Apply] never panics: on strings that fit an [int] together, no
    slice expression of it is out of range, whatever the operation. *)
Lemma Apply_never_panics (D : string) (op : option Operation) :
  (forall o, op = Some o -> len D + len (Text o) <= int_max) ->
  Apply D op <> Panic.
Proof.
  intros Hfit. destruct op as [op|]; [|done].
  specialize (Hfit op eq_refl). unfold Apply.
  destruct (Validate op); [done|].
  pose proof (len_nonneg D). pose proof (len_nonneg (Text op)).
  destruct (String.eqb (Type_ op) OpInsert).
  - unfold applyInsert.
    destruct (Z.ltb_spec (Position op) 0); [done|].
    destruct (Z.gtb_spec (Position op) (len D)); [done|]. simpl.
    rewrite !slice_ok by lia. done.
  - destruct (String.eqb (Type_ op) OpDelete).
    + unfold applyDelete, Length.
      destruct (Z.ltb_spec (Position op) 0); [done|].
      destruct (Z.geb_spec (Position op) (len D)); [done|]. simpl.
      rewrite add_exact by fits.
      destruct (Z.gtb_spec (Position op + len (Text op)) (len D)); [done|].
      rewrite !slice_ok by lia. simpl.
      by destruct (negb _).
    + by destruct (String.eqb (Type_ op) OpRetain).
Qed.

(** The helpers of [Transform] leave the versions alone. *)
Lemma transformInsertInsert_versions op1 op2 :
  Version (transformInsertInsert op1 op2).1 = Version op1 /\
  Version (transformInsertInsert op1 op2).2 = Version op2.
Proof. unfold transformInsertInsert. repeat case_match; simpl; auto. Qed.

Lemma transformInsertDelete_versions ins del :
  Version (transformInsertDelete ins del).1 = Version ins /\
  Version (transformInsertDelete ins del).2 = Version del.
Proof. unfold transformInsertDelete. repeat case_match; simpl; auto. Qed.

Lemma transformDeleteInsert_versions del ins :
  Version (transformDeleteInsert del ins).1 = Version del /\
  Version (transformDeleteInsert del ins).2 = Version ins.
Proof.
  unfold transformDeleteInsert.
  pose proof (transformInsertDelete_versions ins del) as [? ?].
  destruct (transformInsertDelete ins del). simpl in *. auto.
Qed.

Lemma transformDeleteDelete_versions op1 op2 op1' op2' :
  transformDeleteDelete op1 op2 = Ok (op1', op2') ->
  Version op1' = Version op1 /\ Version op2' = Version op2.
Proof.
  unfold transformDeleteDelete. intros Ht.
  repeat (case_match; simplify_eq; simpl in *; auto);
    unfold mbind, result_bind in *;
    repeat (case_match; simplify_eq; simpl in *; auto).
Qed.

Lemma Transform_versions a b a' b' :
  Transform (Some a) (Some b) = Ok (a', b') ->
  Version a' = add (Version a) 1 /\ Version b' = add (Version b) 1.
Proof.
  unfold Transform. intros Ht.
  destruct (Validate a); [discriminate|].
  destruct (Validate b); [discriminate|].
  set (a1 := {| Type_ := Type_ a; Position := Position a; Text := Text a;
                Version := add (Version a) 1 |}) in *.
  set (b1 := {| Type_ := Type_ b; Position := Position b; Text := Text b;
                Version := add (Version b) 1 |}) in *.
  change (add (Version a) 1) with (Version a1).
  change (add (Version b) 1) with (Version b1).
  repeat case_match; try discriminate.
  - injection Ht as Ht. pose proof (transformInsertInsert_versions a1 b1) as [? ?].
    rewrite Ht in *. auto.
  - injection Ht as Ht. pose proof (transformInsertDelete_versions a1 b1) as [? ?].
    rewrite Ht in *. auto.
  - injection Ht as Ht. pose proof (transformDeleteInsert_versions a1 b1) as [? ?].
    rewrite Ht in *. auto.
  - by apply transformDeleteDelete_versions.
Qed.

(** C4. For valid operations [a] and [b] authored against the same document
    version, both operations that [Transform a b] returns carry the version
    [max(a.version, b.version) + 1], the sum being Go's [int] addition; below
    the largest [int] that is the mathematical sum. *)
Theorem transform_bumps_version (a b a' b' : Operation) :
  Validate a = None -> Validate b = None ->
  Version a = Version b ->
  Transform (Some a) (Some b) = Ok (a', b') ->
  Version a' = add (Z.max (Version a) (Version b)) 1 /\
  Version b' = add (Z.max (Version a) (Version b)) 1 /\
  (Z.max (Version a) (Version b) < int_max ->
   Version a' = Z.max (Version a) (Version b) + 1 /\
   Version b' = Z.max (Version a) (Version b) + 1).
Proof.
  intros Ha Hb Hv Ht.
  apply Transform_versions in Ht as [-> ->].
  apply Validate_ok in Ha as (_ & Hva & _).
  rewrite <- Hv, Z.max_id. repeat split; try reflexivity;
    apply add_exact; unfold in_range, int_min, int_max in *; lia.
Qed.

Lemma transform_bumps_version_witness :
  exists a' b',
    Transform (Some (NewInsertOp 1 "X" 4)) (Some (NewDeleteOp 0 "a" 4))
      = Ok (a', b') /\
    Version a' = 5 /\ Version b' = 5.
Proof.
  exists (NewInsertOp 0 "X" 5), (NewDeleteOp 0 "a" 5).
  split; [reflexivity|].
  destruct (transform_bumps_version
              (NewInsertOp 1 "X" 4) (NewDeleteOp 0 "a" 4)
              (NewInsertOp 0 "X" 5) (NewDeleteOp 0 "a" 5)
              eq_refl eq_refl eq_refl eq_refl) as (_ & _ & Hexact).
  apply Hexact. reflexivity.
Defined.

(** C3. Two valid inserts at the same position: [Transform a b] returns [a]
    at its position and [b] moved right by [len(a.text)] (Go's addition,
    which is the mathematical one whenever the sum fits an [int]); on the
    document "ac" with [a = insert(1, "X", 0)] and [b = insert(1, "Y", 0)]
    the returned [b'] is at position 2 and both orders of application end
    in "aXYc". *)
Theorem transform_insert_tie (a b : Operation) :
  Validate a = None -> Validate b = None ->
  Type_ a = OpInsert -> Type_ b = OpInsert ->
  Position a = Position b ->
  (exists a' b',
      Transform (Some a) (Some b) = Ok (a', b') /\
      Type_ a' = OpInsert /\ Text a' = Text a /\ Position a' = Position a /\
      Type_ b' = OpInsert /\ Text b' = Text b /\
      Position b' = add (Position b) (len (Text a)) /\
      (Position b + len (Text a) <= int_max ->
       Position b' = Position b + len (Text a))) /\
  (exists a' b',
      Transform (Some (NewInsertOp 1 "X" 0)) (Some (NewInsertOp 1 "Y" 0))
        = Ok (a', b') /\
      Position a' = 1 /\ Position b' = 2 /\
      (d ← Apply "ac" (Some (NewInsertOp 1 "X" 0)); Apply d (Some b'))
        = Ok "aXYc" /\
      (d ← Apply "ac" (Some (NewInsertOp 1 "Y" 0)); Apply d (Some a'))
        = Ok "aXYc").
Proof.
  intros Ha Hb Hta Htb Hpos. split.
  - unfold Transform. rewrite Ha, Hb, Hta, Htb. simpl.
    unfold transformInsertInsert, Length. simpl. rewrite Hpos.
    rewrite Z.ltb_irrefl.
    destruct (Z.gtb_spec (Position b) (Position b)); [lia|].
    eexists _, _. split; [reflexivity|]. simpl.
    repeat split; try done.
    intros Hfit. apply add_exact.
    apply Validate_ok in Hb as (Hpb & _). pose proof (len_nonneg (Text a)).
    unfold in_range, int_min, int_max in *. lia.
  - eexists _, _. split; [reflexivity|]. simpl. repeat split; reflexivity.
Qed.

Lemma transform_insert_tie_witness :
  exists a' b',
    Transform (Some (NewInsertOp 3 "foo" 2)) (Some (NewInsertOp 3 "quux" 2))
      = Ok (a', b') /\ Position a' = 3 /\ Position b' = 6.
Proof.
  destruct (transform_insert_tie (NewInsertOp 3 "foo" 2) (NewInsertOp 3 "quux" 2)
              eq_refl eq_refl eq_refl eq_refl eq_refl)
    as [(a' & b' & Ht & _ & _ & Hpa & _ & _ & _ & Hpb) _].
  exists a', b'. split; [exact Ht|]. split; [exact Hpa|].
  apply Hpb. unfold len, int_max. simpl. lia.
Defined.

(** C5. Inserting [I.text] at a position of [D] and then deleting that text
    at the same position gives [D] back: both calls of [Apply] succeed.
    [v] is the version the delete is stamped with. *)
Theorem apply_insert_then_delete (D : string) (I : Operation) (v : Z) :
  Validate I = None -> Type_ I = OpInsert ->
  0 <= Position I <= len D ->
  0 <= v ->
  len D + len (Text I) <= int_max ->
  exists D1,
    Apply D (Some I) = Ok D1 /\
    Apply D1 (Some (NewDeleteOp (Position I) (Text I) v)) = Ok D.
Proof.
  intros Hvalid Hins Hpos Hv Hfit.
  destruct (split_at D (Position I) Hpos) as (A & B & -> & HA).
  destruct (Validate_ok I Hvalid) as (_ & _ & Htext).
  specialize (Htext (or_introl Hins)).
  exists (A +:+ Text I +:+ B). split.
  - unfold Apply. rewrite Hvalid, Hins. simpl. by apply applyInsert_at.
  - unfold Apply. rewrite Validate_delete by (done || lia). simpl.
    apply (applyDelete_at A B (NewDeleteOp (Position I) (Text I) v));
      [symmetry; exact HA | exact Htext |].
    unfold representable. simpl. rewrite !len_append in *. lia.
Qed.

Lemma apply_insert_then_delete_witness :
  exists D1,
    Apply "helo" (Some (NewInsertOp 3 "l" 1)) = Ok D1 /\
    Apply D1 (Some (NewDeleteOp 3 "l" 7)) = Ok "helo".
Proof.
  apply (apply_insert_then_delete "helo" (NewInsertOp 3 "l" 1) 7);
    try reflexivity; unfold len, int_max; simpl; lia.
Defined.

(** Where [Transform] does converge: two inserts, at any two positions of
    the document. *)
Lemma split_twice (D : string) (p q : Z) :
  0 <= p -> p <= q -> q <= len D ->
  exists A B C, D = A +:+ B +:+ C /\ len A = p /\ len A + len B = q.
Proof.
  intros Hp Hpq Hq.
  destruct (split_at D q ltac:(lia)) as (AB & C & -> & HAB).
  destruct (split_at AB p ltac:(lia)) as (A & B & -> & HA).
  exists A, B, C. rewrite append_assoc. rewrite len_append in HAB.
  repeat split; [done | lia].
Qed.

Lemma Apply_insert D position text version :
  0 <= position -> text <> "" -> 0 <= version ->
  Apply D (Some (NewInsertOp position text version))
  = applyInsert D (NewInsertOp position text version).
Proof.
  intros. unfold Apply. by rewrite Validate_insert.
Qed.

Lemma applyTransformed_insert D position text version :
  0 <= position -> text <> "" -> 0 <= version ->
  applyTransformed D (NewInsertOp position text version)
  = applyInsert D (NewInsertOp position text version).
Proof.
  intros Hp Ht Hv. unfold applyTransformed. simpl.
  destruct (String.eqb_spec text ""); [done|]. by apply Apply_insert.
Qed.

Lemma insert_insert_converges (D : string) (a b : Operation) :
  Validate a = None -> Validate b = None ->
  Type_ a = OpInsert -> Type_ b = OpInsert ->
  Position a <= len D -> Position b <= len D ->
  Version a < int_max -> Version b < int_max ->
  len D + len (Text a) + len (Text b) <= int_max ->
  exists r, first_then_second D a b = Ok r /\ second_then_first D a b = Ok r.
Proof.
  intros Ha Hb Hta Htb Hpa Hpb Hva Hvb Hfit.
  destruct (Validate_ok a Ha) as (Hpa0 & Hva0 & Htexta).
  destruct (Validate_ok b Hb) as (Hpb0 & Hvb0 & Htextb).
  specialize (Htexta (or_introl Hta)). specialize (Htextb (or_introl Htb)).
  unfold first_then_second, second_then_first, Transform.
  rewrite Ha, Hb. destruct a as [ta pa xa va], b as [tb pb xb vb].
  simpl in Hta, Htb, Hpa, Hpb, Hva, Hvb, Hfit, Hpa0, Hpb0, Hva0, Hvb0,
    Htexta, Htextb. subst ta tb.
  pose proof (len_nonneg xa). pose proof (len_nonneg xb).
  pose proof (len_nonneg D).
  cbn [Type_ Position Text Version String.eqb Ascii.eqb Bool.eqb OpInsert andb].
  rewrite !add_exact by (unfold in_range, int_min, int_max in *; lia).
  change (mkOperation OpInsert ?p ?x ?v) with (NewInsertOp p x v).
  rewrite !Apply_insert by (done || lia).
  unfold transformInsertInsert, Length, set_Position.
  cbn [Type_ Position Text Version NewInsertOp mbind result_bind].
  assert (forall p, 0 <= p -> p <= len D + len xa -> add p (len xb) = p + len xb)
    as Hshift_b
    by (intros; apply add_exact; unfold in_range, int_min, int_max in *; lia).
  assert (forall p, 0 <= p -> p <= len D + len xb -> add p (len xa) = p + len xa)
    as Hshift_a
    by (intros; apply add_exact; unfold in_range, int_min, int_max in *; lia).
  destruct (Z.ltb_spec pa pb) as [Hlt|Hge].
  - (* a is left of b *)
    destruct (split_twice D pa pb) as (A & B & C & -> & HA & HB); try lia.
    rewrite Hshift_a by lia.
    change (mkOperation OpInsert ?p ?x ?v) with (NewInsertOp p x v).
    exists (A +:+ xa +:+ B +:+ xb +:+ C). split.
    + rewrite (applyInsert_at A (B +:+ C)) by done.
      cbn [mbind result_bind Text NewInsertOp].
      rewrite applyTransformed_insert by (done || lia).
      replace (A +:+ xa +:+ B +:+ C) with ((A +:+ xa +:+ B) +:+ C)
        by by rewrite !append_assoc.
      rewrite (applyInsert_at (A +:+ xa +:+ B) C)
        by (simpl; rewrite !len_append; lia).
      simpl. by rewrite !append_assoc.
    + replace (A +:+ B +:+ C) with ((A +:+ B) +:+ C) by by rewrite append_assoc.
      rewrite (applyInsert_at (A +:+ B) C) by (simpl; rewrite len_append; lia).
      cbn [mbind result_bind Text NewInsertOp].
      rewrite applyTransformed_insert by (done || lia).
      rewrite append_assoc.
      by rewrite (applyInsert_at A (B +:+ xb +:+ C)) by done.
  - destruct (Z.gtb_spec pa pb) as [Hgt|Hle].
    + (* b is left of a *)
      destruct (split_twice D pb pa) as (A & B & C & -> & HA & HB); try lia.
      rewrite Hshift_b by lia.
      change (mkOperation OpInsert ?p ?x ?v) with (NewInsertOp p x v).
      exists (A +:+ xb +:+ B +:+ xa +:+ C). split.
      * replace (A +:+ B +:+ C) with ((A +:+ B) +:+ C) by by rewrite append_assoc.
        rewrite (applyInsert_at (A +:+ B) C) by (simpl; rewrite len_append; lia).
        cbn [mbind result_bind Text NewInsertOp].
        rewrite applyTransformed_insert by (done || lia).
        rewrite append_assoc.
        by rewrite (applyInsert_at A (B +:+ xa +:+ C)) by done.
      * rewrite (applyInsert_at A (B +:+ C)) by done.
        cbn [mbind result_bind Text NewInsertOp].
        rewrite applyTransformed_insert by (done || lia).
        replace (A +:+ xb +:+ B +:+ C) with ((A +:+ xb +:+ B) +:+ C)
          by by rewrite !append_assoc.
        rewrite (applyInsert_at (A +:+ xb +:+ B) C)
          by (simpl; rewrite !len_append; lia).
        simpl. by rewrite !append_assoc.
    + (* the tie: b goes after a *)
      assert (pa = pb) as -> by lia.
      destruct (split_at D pb) as (A & C & -> & HA); [lia|].
      rewrite Hshift_a by lia.
      change (mkOperation OpInsert ?p ?x ?v) with (NewInsertOp p x v).
      exists (A +:+ xa +:+ xb +:+ C). split.
      * rewrite (applyInsert_at A C) by done.
        cbn [mbind result_bind Text NewInsertOp].
        rewrite applyTransformed_insert by (done || lia).
        replace (A +:+ xa +:+ C) with ((A +:+ xa) +:+ C)
          by by rewrite !append_assoc.
        rewrite (applyInsert_at (A +:+ xa) C)
          by (simpl; rewrite !len_append; lia).
        simpl. by rewrite !append_assoc.
      * rewrite (applyInsert_at A C) by done.
        cbn [mbind result_bind Text NewInsertOp].
        rewrite applyTransformed_insert by (done || lia).
        by rewrite (applyInsert_at A (xb +:+ C)) by done.
Qed.

(** Two operations that both apply to [D], an insert and a delete whose
    range the insert does not fall strictly inside. *)
Lemma split_thrice (D : string) (p q r : Z) :
  0 <= p -> p <= q -> q <= r -> r <= len D ->
  exists A B X C,
    D = A +:+ B +:+ X +:+ C /\ len A = p /\ len A + len B = q /\
    len A + len B + len X = r.
Proof.
  intros Hp Hpq Hqr Hr.
  destruct (split_at D r ltac:(lia)) as (ABX & C & -> & HABX).
  destruct (split_twice ABX p q) as (A & B & X & -> & HA & HB); try lia.
  exists A, B, X, C. rewrite !append_assoc. rewrite !len_append in HABX.
  repeat split; [done | done | lia].
Qed.

Lemma slice_piece P X R t :
  slice (P +:+ X +:+ R) (len P) (len P + len t) = Ok t ->
  len X = len t -> X = t.
Proof.
  intros Hslice Hlen. rewrite <- Hlen, slice_middle in Hslice. congruence.
Qed.

Lemma Apply_delete D position text version :
  0 <= position -> text <> "" -> 0 <= version ->
  Apply D (Some (NewDeleteOp position text version))
  = applyDelete D (NewDeleteOp position text version).
Proof.
  intros. unfold Apply. by rewrite Validate_delete.
Qed.

Lemma applyTransformed_delete D position text version :
  0 <= position -> text <> "" -> 0 <= version ->
  applyTransformed D (NewDeleteOp position text version)
  = applyDelete D (NewDeleteOp position text version).
Proof.
  intros Hp Ht Hv. unfold applyTransformed. simpl.
  destruct (String.eqb_spec text ""); [done|]. by apply Apply_delete.
Qed.

Lemma applyInsert_inv D op r :
  applyInsert D op = Ok r -> 0 <= Position op <= len D.
Proof.
  unfold applyInsert.
  destruct (Z.ltb_spec (Position op) 0); [discriminate|].
  destruct (Z.gtb_spec (Position op) (len D)); [discriminate|]. lia.
Qed.

Lemma applyDelete_inv D op r :
  len D + len (Text op) <= int_max ->
  applyDelete D op = Ok r ->
  0 <= Position op /\ Position op + len (Text op) <= len D /\
  slice D (Position op) (Position op + len (Text op)) = Ok (Text op).
Proof.
  intros Hfit. unfold applyDelete, Length.
  pose proof (len_nonneg (Text op)). pose proof (len_nonneg D).
  destruct (Z.ltb_spec (Position op) 0); [discriminate|].
  destruct (Z.geb_spec (Position op) (len D)); [discriminate|]. simpl.
  rewrite add_exact by (unfold in_range, int_min, int_max in *; lia).
  destruct (Z.gtb_spec (Position op + len (Text op)) (len D)); [discriminate|].
  destruct (slice D (Position op) (Position op + len (Text op)))
    as [actual| |] eqn:Hslice; simpl; try discriminate.
  destruct (String.eqb_spec actual (Text op)) as [->|]; simpl; [|discriminate].
  intros _. repeat split; lia || done.
Qed.

Lemma applyDelete_new A B position text version :
  position = len A -> text <> "" ->
  len A + len text + len B <= int_max ->
  applyDelete (A +:+ text +:+ B) (NewDeleteOp position text version)
  = Ok (A +:+ B).
Proof.
  intros Hp Ht Hfit.
  apply (applyDelete_at A B (NewDeleteOp position text version)); try done.
  unfold representable. simpl. rewrite !len_append. lia.
Qed.

Lemma insert_delete_converges (D : string) (i d : Operation) :
  Validate i = None -> Validate d = None ->
  Type_ i = OpInsert -> Type_ d = OpDelete ->
  Version i < int_max -> Version d < int_max ->
  len D + len (Text i) + len (Text d) <= int_max ->
  (exists r, Apply D (Some i) = Ok r) ->
  (exists r, Apply D (Some d) = Ok r) ->
  Position i <= Position d \/ Position d + len (Text d) <= Position i ->
  exists r, first_then_second D i d = Ok r /\ second_then_first D i d = Ok r.
Proof.
  intros Hi Hd Hti Htd Hvi Hvd Hfit [ri Hri] [rd Hrd] Hapart.
  destruct (Validate_ok i Hi) as (Hpi0 & Hvi0 & Hx).
  destruct (Validate_ok d Hd) as (Hpd0 & Hvd0 & Ht).
  specialize (Hx (or_introl Hti)). specialize (Ht (or_intror Htd)).
  unfold first_then_second, second_then_first, Transform.
  rewrite Hi, Hd. destruct i as [ti pi x vi], d as [td pd t vd].
  simpl in Hti, Htd, Hvi, Hvd, Hfit, Hpi0, Hpd0, Hvi0, Hvd0, Hx, Ht, Hapart.
  subst ti td.
  pose proof (len_nonneg x). pose proof (len_nonneg t).
  pose proof (len_nonneg D).
  change (mkOperation OpInsert ?p ?y ?v) with (NewInsertOp p y v) in *.
  change (mkOperation OpDelete ?p ?y ?v) with (NewDeleteOp p y v) in *.
  rewrite Apply_insert in Hri |- * by (done || lia).
  rewrite Apply_delete in Hrd |- * by (done || lia).
  apply applyInsert_inv in Hri. simpl in Hri.
  apply applyDelete_inv in Hrd as (_ & Hend & Hslice); [|simpl; lia].
  simpl in Hend, Hslice.
  cbn [Type_ Position Text Version NewInsertOp NewDeleteOp
       String.eqb Ascii.eqb Bool.eqb OpInsert OpDelete andb].
  rewrite !add_exact by fits.
  change (mkOperation OpInsert ?p ?y ?v) with (NewInsertOp p y v).
  change (mkOperation OpDelete ?p ?y ?v) with (NewDeleteOp p y v).
  unfold transformInsertDelete, Length, set_Position.
  cbn [Type_ Position Text Version NewInsertOp NewDeleteOp mbind result_bind].
  rewrite !add_exact by fits.
  destruct (Z.leb_spec pi pd) as [Hle|Hgt].
  - (* the insert is at or left of the start of the delete *)
    destruct (split_thrice D pi pd (pd + len t)) as (A & B & X & C & -> & HA & HB & HX);
      try lia.
    assert (X = t) as ->.
    { apply (slice_piece (A +:+ B) X C).
      - rewrite len_append, HB, append_assoc. exact Hslice.
      - lia. }
    change (mkOperation OpInsert ?p ?y ?v) with (NewInsertOp p y v).
    change (mkOperation OpDelete ?p ?y ?v) with (NewDeleteOp p y v).
    exists (A +:+ x +:+ B +:+ C). split.
    + rewrite (applyInsert_at A (B +:+ t +:+ C)) by done.
      cbn [mbind result_bind Text NewInsertOp].
      rewrite applyTransformed_delete by (done || lia).
      replace (A +:+ x +:+ B +:+ t +:+ C) with ((A +:+ x +:+ B) +:+ t +:+ C)
        by by rewrite !append_assoc.
      rewrite (applyDelete_new (A +:+ x +:+ B) C)
        by (done || rewrite !len_append in *; lia).
      by rewrite !append_assoc.
    + rewrite <- (append_assoc A B (t +:+ C)).
      rewrite (applyDelete_new (A +:+ B) C)
        by (done || rewrite !len_append in *; lia).
      cbn [mbind result_bind]. rewrite applyTransformed_insert by (done || lia).
      rewrite append_assoc.
      by rewrite (applyInsert_at A (B +:+ C)) by done.
  - destruct (Z.gtb_spec pi (pd + len t)) as [Hright|Hnot].
    + (* the insert is right of the end of the delete *)
      rewrite sub_exact by fits.
      destruct (split_thrice D pd (pd + len t) pi) as (A & X & B & C & -> & HA & HX & HB);
        try lia.
      assert (X = t) as ->.
      { apply (slice_piece A X (B +:+ C)).
        - rewrite HA. exact Hslice.
        - lia. }
      change (mkOperation OpInsert ?p ?y ?v) with (NewInsertOp p y v).
      change (mkOperation OpDelete ?p ?y ?v) with (NewDeleteOp p y v).
      exists (A +:+ B +:+ x +:+ C). split.
      * replace (A +:+ t +:+ B +:+ C) with ((A +:+ t +:+ B) +:+ C)
          by by rewrite !append_assoc.
        rewrite (applyInsert_at (A +:+ t +:+ B) C)
          by (simpl; rewrite !len_append; lia).
        cbn [mbind result_bind Text NewInsertOp].
        rewrite applyTransformed_delete by (done || lia).
        rewrite !append_assoc.
        by rewrite (applyDelete_new A (B +:+ x +:+ C))
          by (done || rewrite !len_append in *; lia).
      * rewrite (applyDelete_new A (B +:+ C))
          by (done || rewrite !len_append in *; lia).
        cbn [mbind result_bind].
        rewrite applyTransformed_insert by (done || lia).
        rewrite <- (append_assoc A B C).
        rewrite (applyInsert_at (A +:+ B) C)
          by (simpl; rewrite !len_append; lia).
        by rewrite !append_assoc.
    + (* the insert is at the end of the delete *)
      assert (pi = pd + len t) as -> by lia.
      destruct (split_twice D pd (pd + len t)) as (A & X & C & -> & HA & HX);
        try lia.
      assert (X = t) as ->.
      { apply (slice_piece A X C).
        - rewrite HA. exact Hslice.
        - lia. }
      change (mkOperation OpInsert ?p ?y ?v) with (NewInsertOp p y v).
      change (mkOperation OpDelete ?p ?y ?v) with (NewDeleteOp p y v).
      exists (A +:+ x +:+ C). split.
      * rewrite <- (append_assoc A t C).
        rewrite (applyInsert_at (A +:+ t) C)
          by (simpl; rewrite !len_append; lia).
        cbn [mbind result_bind Text NewInsertOp].
        rewrite applyTransformed_delete by (done || lia).
        rewrite !append_assoc.
        by rewrite (applyDelete_new A (x +:+ C))
          by (done || rewrite !len_append in *; lia).
      * rewrite (applyDelete_new A C)
          by (done || rewrite !len_append in *; lia).
        cbn [mbind result_bind].
        rewrite applyTransformed_insert by (done || lia).
        by rewrite (applyInsert_at A C) by done.
Qed.

(** The mirror: [Transform] of a delete and an insert is [Transform] of the
    insert and the delete with the roles swapped. *)
Lemma delete_insert_mirror (D : string) (d i : Operation) :
  Validate d = None -> Validate i = None ->
  Type_ d = OpDelete -> Type_ i = OpInsert ->
  first_then_second D d i = second_then_first D i d /\
  second_then_first D d i = first_then_second D i d.
Proof.
  intros Hd Hi Htd Hti.
  unfold first_then_second, second_then_first, Transform.
  rewrite Hd, Hi, Htd, Hti.
  cbn [String.eqb Ascii.eqb Bool.eqb OpInsert OpDelete andb].
  unfold transformDeleteInsert.
  destruct (transformInsertDelete _ _) as [i' d']. done.
Qed.

Lemma delete_insert_converges (D : string) (d i : Operation) :
  Validate d = None -> Validate i = None ->
  Type_ d = OpDelete -> Type_ i = OpInsert ->
  Version d < int_max -> Version i < int_max ->
  len D + len (Text i) + len (Text d) <= int_max ->
  (exists r, Apply D (Some d) = Ok r) ->
  (exists r, Apply D (Some i) = Ok r) ->
  Position i <= Position d \/ Position d + len (Text d) <= Position i ->
  exists r, first_then_second D d i = Ok r /\ second_then_first D d i = Ok r.
Proof.
  intros Hd Hi Htd Hti Hvd Hvi Hfit Had Hai Hapart.
  destruct (delete_insert_mirror D d i Hd Hi Htd Hti) as [-> ->].
  destruct (insert_delete_converges D i d) as (r & H1 & H2); try done.
  by exists r.
Qed.

(** Two deletes whose ranges are disjoint, or the same. *)
Lemma split_four (D : string) (p q r s : Z) :
  0 <= p -> p <= q -> q <= r -> r <= s -> s <= len D ->
  exists A X B Y C,
    D = A +:+ X +:+ B +:+ Y +:+ C /\ len A = p /\ len A + len X = q /\
    len A + len X + len B = r /\ len A + len X + len B + len Y = s.
Proof.
  intros Hp Hpq Hqr Hrs Hs.
  destruct (split_at D s ltac:(lia)) as (AXBY & C & -> & HAXBY).
  destruct (split_thrice AXBY p q r) as (A & X & B & Y & -> & HA & HX & HB);
    try lia.
  exists A, X, B, Y, C. rewrite !append_assoc. rewrite !len_append in HAXBY.
  repeat split; [done | done | done | lia].
Qed.

Lemma disjoint_deletes_converge (D : string) (pa pb va vb : Z) (ta tb : string) :
  0 <= pa -> 0 <= va < int_max -> 0 <= vb < int_max ->
  ta <> "" -> tb <> "" ->
  len D + len ta + len tb <= int_max ->
  pa + len ta <= pb -> pb + len tb <= len D ->
  slice D pa (pa + len ta) = Ok ta ->
  slice D pb (pb + len tb) = Ok tb ->
  exists A B C,
    D = A +:+ ta +:+ B +:+ tb +:+ C /\ len A = pa /\
    len A + len ta + len B = pb.
Proof.
  intros Hpa Hva Hvb Hta Htb Hfit Hab Hb Hsa Hsb.
  pose proof (len_nonneg ta). pose proof (len_nonneg tb).
  destruct (split_four D pa (pa + len ta) pb (pb + len tb))
    as (A & X & B & Y & C & -> & HA & HX & HB & HY); try lia.
  assert (X = ta) as ->.
  { apply (slice_piece A X (B +:+ Y +:+ C)); [by rewrite HA | lia]. }
  assert (Y = tb) as ->.
  { apply (slice_piece (A +:+ ta +:+ B) Y C).
    - rewrite !len_append, !append_assoc.
      replace (len A + (len ta + len B)) with pb by lia. exact Hsb.
    - lia. }
  by exists A, B, C.
Qed.

Lemma delete_delete_converges (D : string) (a b : Operation) :
  Validate a = None -> Validate b = None ->
  Type_ a = OpDelete -> Type_ b = OpDelete ->
  Version a < int_max -> Version b < int_max ->
  len D + len (Text a) + len (Text b) <= int_max ->
  (exists r, Apply D (Some a) = Ok r) ->
  (exists r, Apply D (Some b) = Ok r) ->
  Position a + len (Text a) <= Position b \/
  Position b + len (Text b) <= Position a \/
  (Position a = Position b /\ len (Text a) = len (Text b)) ->
  exists r, first_then_second D a b = Ok r /\ second_then_first D a b = Ok r.
Proof.
  intros Ha Hb Hta Htb Hva Hvb Hfit [ra Hra] [rb Hrb] Hapart.
  destruct (Validate_ok a Ha) as (Hpa0 & Hva0 & Hxa).
  destruct (Validate_ok b Hb) as (Hpb0 & Hvb0 & Hxb).
  specialize (Hxa (or_intror Hta)). specialize (Hxb (or_intror Htb)).
  unfold first_then_second, second_then_first, Transform.
  rewrite Ha, Hb. destruct a as [ka pa ta va], b as [kb pb tb vb].
  simpl in Hta, Htb, Hva, Hvb, Hfit, Hpa0, Hpb0, Hva0, Hvb0, Hxa, Hxb, Hapart.
  subst ka kb.
  pose proof (len_nonneg ta). pose proof (len_nonneg tb).
  pose proof (len_nonneg D).
  assert (len ta <> 0) by (intros Hz; by apply Hxa, len_zero_empty).
  assert (len tb <> 0) by (intros Hz; by apply Hxb, len_zero_empty).
  change (mkOperation OpDelete ?p ?y ?v) with (NewDeleteOp p y v) in *.
  rewrite Apply_delete in Hra by (done || lia).
  rewrite Apply_delete in Hrb by (done || lia).
  rewrite !Apply_delete by (done || lia).
  pose proof Hra as Hra'. pose proof Hrb as Hrb'.
  apply applyDelete_inv in Hra' as (_ & Henda & Hslicea); [|simpl; lia].
  apply applyDelete_inv in Hrb' as (_ & Hendb & Hsliceb); [|simpl; lia].
  simpl in Henda, Hslicea, Hendb, Hsliceb.
  cbn [Type_ Position Text Version NewDeleteOp
       String.eqb Ascii.eqb Bool.eqb OpInsert OpDelete andb].
  rewrite !add_exact by fits.
  change (mkOperation OpDelete ?p ?y ?v) with (NewDeleteOp p y v).
  unfold transformDeleteDelete, Length, set_Position, set_Text.
  cbn [Type_ Position Text Version NewDeleteOp].
  rewrite !add_exact by fits.
  destruct (Z.leb_spec (pa + len ta) pb) as [Hleft|Hnleft].
  - (* a is left of b *)
    rewrite sub_exact by fits.
    destruct (disjoint_deletes_converge D pa pb va vb ta tb)
      as (A & B & C & -> & HA & HB); try done; try lia.
    change (mkOperation OpDelete ?p ?y ?v) with (NewDeleteOp p y v).
    cbn [mbind result_bind].
    exists (A +:+ B +:+ C). rewrite !len_append in *. split.
    + rewrite (applyDelete_new A (B +:+ tb +:+ C))
        by (done || rewrite !len_append; lia).
      cbn [mbind result_bind].
      rewrite applyTransformed_delete by (done || lia).
      rewrite <- (append_assoc A B (tb +:+ C)).
      rewrite (applyDelete_new (A +:+ B) C)
        by (done || rewrite !len_append; lia).
      by rewrite append_assoc.
    + replace (A +:+ ta +:+ B +:+ tb +:+ C)
        with ((A +:+ ta +:+ B) +:+ tb +:+ C) by by rewrite !append_assoc.
      rewrite (applyDelete_new (A +:+ ta +:+ B) C)
        by (done || rewrite !len_append; lia).
      cbn [mbind result_bind].
      rewrite applyTransformed_delete by (done || lia).
      rewrite !append_assoc.
      by rewrite (applyDelete_new A (B +:+ C))
        by (done || rewrite !len_append; lia).
  - destruct (Z.leb_spec (pb + len tb) pa) as [Hright|Hnright].
    + (* b is left of a *)
      rewrite sub_exact by fits.
      destruct (disjoint_deletes_converge D pb pa vb va tb ta)
        as (A & B & C & -> & HA & HB); try done; try lia.
      change (mkOperation OpDelete ?p ?y ?v) with (NewDeleteOp p y v).
      cbn [mbind result_bind].
      exists (A +:+ B +:+ C). rewrite !len_append in *. split.
      * replace (A +:+ tb +:+ B +:+ ta +:+ C)
          with ((A +:+ tb +:+ B) +:+ ta +:+ C) by by rewrite !append_assoc.
        rewrite (applyDelete_new (A +:+ tb +:+ B) C)
          by (done || rewrite !len_append; lia).
        cbn [mbind result_bind].
        rewrite applyTransformed_delete by (done || lia).
        rewrite !append_assoc.
        by rewrite (applyDelete_new A (B +:+ C))
          by (done || rewrite !len_append; lia).
      * rewrite (applyDelete_new A (B +:+ ta +:+ C))
          by (done || rewrite !len_append; lia).
        cbn [mbind result_bind].
        rewrite applyTransformed_delete by (done || lia).
        rewrite <- (append_assoc A B (ta +:+ C)).
        rewrite (applyDelete_new (A +:+ B) C)
          by (done || rewrite !len_append; lia).
        by rewrite append_assoc.
    + (* the same range: both come back empty and are skipped *)
      destruct Hapart as [?|[?|[-> Hlen]]]; [lia | lia |].
      rewrite Hlen, !Z.eqb_refl. cbn [andb mbind result_bind].
      assert (ta = tb) as ->.
      { rewrite Hlen in Hslicea. congruence. }
      assert (applyDelete D (NewDeleteOp pb tb va)
              = applyDelete D (NewDeleteOp pb tb vb)) as Hsame by reflexivity.
      exists ra. rewrite Hra, Hrb. cbn [mbind result_bind].
      unfold applyTransformed. simpl. split; [done | congruence].
Qed.

(** X25. [Transform] keeps its promise for every pair of edits that both apply
    to the document, except for a pair in conflict: an insert strictly
    inside the range of the delete, or two deletes whose ranges overlap
    without being the same.  The versions are below the largest [int] (the
    bumped version must still be valid), and the three strings together
    fit an [int]. *)
Lemma transform_converges_unless_conflicting (D : string) (a b : Operation) :
  Validate a = None -> Validate b = None ->
  Type_ a = OpInsert \/ Type_ a = OpDelete ->
  Type_ b = OpInsert \/ Type_ b = OpDelete ->
  Version a < int_max -> Version b < int_max ->
  len D + len (Text a) + len (Text b) <= int_max ->
  applies D a -> applies D b ->
  ~ conflicting a b ->
  converge D a b.
Proof.
  intros Ha Hb Hka Hkb Hva Hvb Hfit Hada Hadb Hfree.
  unfold conflicting, strictly_inside, overlapping in Hfree.
  destruct Hka as [Hka|Hka], Hkb as [Hkb|Hkb].
  - apply insert_insert_converges; try done.
    + destruct Hada as [r Hr]. unfold Apply in Hr. rewrite Ha, Hka in Hr.
      simpl in Hr. by apply applyInsert_inv in Hr as [_ ?].
    + destruct Hadb as [r Hr]. unfold Apply in Hr. rewrite Hb, Hkb in Hr.
      simpl in Hr. by apply applyInsert_inv in Hr as [_ ?].
  - apply insert_delete_converges; try done.
    assert (~ (Position b < Position a < Position b + len (Text b)))
      by (intros ?; apply Hfree; left; done).
    lia.
  - apply delete_insert_converges; try done; try lia.
    assert (~ (Position a < Position b < Position a + len (Text a)))
      by (intros ?; apply Hfree; right; left; done).
    lia.
  - apply delete_delete_converges; try done.
    assert (~ (Position a < Position b + len (Text b) /\
               Position b < Position a + len (Text a) /\
               ~ (Position a = Position b /\ len (Text a) = len (Text b))))
      by (intros ?; apply Hfree; right; right; done).
    lia.
Qed.

(** C1, at the inputs where convergence fails.  Two overlapping deletes on
    "abcdef": [a] is returned unclipped, so after [b] it no longer fits the
    document; an insert strictly inside a delete on "abcd": the delete is
    returned with its old text, so after the insert it no longer matches. *)
Theorem transform_does_not_converge :
  (let D := "abcdef" in
   let a := NewDeleteOp 1 "bcd" 0 in
   let b := NewDeleteOp 2 "cde" 0 in
   Validate a = None /\ Validate b = None /\
   Apply D (Some a) = Ok "aef" /\ Apply D (Some b) = Ok "abf" /\
   Transform (Some a) (Some b)
     = Ok (NewDeleteOp 1 "bcd" 1, NewDeleteOp 1 "e" 1) /\
   first_then_second D a b = Ok "af" /\
   second_then_first D a b = Err (ErrDeleteExceeds 1 4 3)) /\
  (let D := "abcd" in
   let i := NewInsertOp 2 "Z" 0 in
   let d := NewDeleteOp 1 "bc" 0 in
   Validate i = None /\ Validate d = None /\
   Apply D (Some i) = Ok "abZcd" /\ Apply D (Some d) = Ok "ad" /\
   Transform (Some i) (Some d)
     = Ok (NewInsertOp 1 "Z" 1, NewDeleteOp 1 "bc" 1) /\
   first_then_second D i d = Err (ErrDeleteTextMismatch "bc" "bZ") /\
   second_then_first D i d = Ok "aZd").
Proof. split; repeat split; reflexivity. Qed.

End operations_facts.

(** ** [document] *)

Module document_facts.

Import operations document GoFacts.

(** C6. [ApplyOperation] is all or nothing: when [Apply] fails the document
    is left as it was and the current version comes back with the error;
    when [Apply] succeeds the new content is stored, the version goes up
    by exactly one and is returned, and the clock is read. *)
Theorem ApplyOperation_atomic (d : Document) (op : option Operation)
    (now : Time) :
  int_min <= version d < int_max ->
  match Apply (content d) op with
  | Err err => ApplyOperation d op now = Some (d, ("", version d, Some err))
  | Ok newContent =>
      ApplyOperation d op now =
      Some ({| content := newContent;
               version := version d + 1;
               lastModified := now |},
            (newContent, version d + 1, None))
  | Panic => ApplyOperation d op now = None
  end.
Proof.
  intros Hv. unfold ApplyOperation.
  destruct (Apply (content d) op); try reflexivity.
  simpl. rewrite add_exact; [reflexivity|].
  unfold in_range, int_min, int_max in *. lia.
Qed.

Lemma ApplyOperation_atomic_witness :
  ApplyOperation (NewDocument 10) (Some (NewInsertOp 0 "hi" 0)) 11
    = Some ({| content := "hi"; version := 1; lastModified := 11 |},
            ("hi", 1, None)) /\
  ApplyOperation (NewDocument 10) (Some (NewDeleteOp 0 "hi" 0)) 11
    = Some (NewDocument 10, ("", 0, Some (ErrDeleteOutOfRange 0 0))).
Proof.
  split.
  - apply (ApplyOperation_atomic (NewDocument 10)
             (Some (NewInsertOp 0 "hi" 0)) 11).
    simpl. unfold int_min, int_max. lia.
  - apply (ApplyOperation_atomic (NewDocument 10)
             (Some (NewDeleteOp 0 "hi" 0)) 11).
    simpl. unfold int_min, int_max. lia.
Defined.

End document_facts.

(** ** [hub] *)

Module hub_facts.

Import hub.

(** *** Range loops over the clients *)

Lemma elem_of_spawned (p client : ptr) (sp : gset ptr) :
  p <> client -> p ∈ {[client]} ∪ sp <-> p ∈ sp.
Proof.
  intros Hne. rewrite elem_of_union, elem_of_singleton. tauto.
Qed.

Lemma range_clients_spec body cs : forall hp sp hp' sp',
  NoDup cs ->
  range_clients body cs hp sp = Some (hp', sp') ->
  forall p,
    (p ∉ cs -> hp' !! p = hp !! p /\ (p ∈ sp' <-> p ∈ sp)) /\
    (p ∈ cs ->
     match body p (hp !! p) with
     | Continue => hp' !! p = hp !! p /\ (p ∈ sp' <-> p ∈ sp)
     | Sent c => hp' !! p = Some c /\ (p ∈ sp' <-> p ∈ sp)
     | Unregistering => hp' !! p = hp !! p /\ p ∈ sp'
     | Crash => False
     end).
Proof.
  induction cs as [|client cs IH]; intros hp sp hp' sp' Hnd Hrun p.
  - simpl in Hrun. simplify_eq. split; [done|].
    intros Hp. by apply elem_of_nil in Hp.
  - apply NoDup_cons in Hnd as [Hfresh Hnd]. simpl in Hrun.
    destruct (body client (hp !! client)) as [|c| |] eqn:Hbody;
      try discriminate;
      pose proof (IH _ _ _ _ Hnd Hrun) as Hrest.
    + split.
      * intros Hp. apply not_elem_of_cons in Hp as [Hne Hp].
        by apply Hrest.
      * intros Hp. apply elem_of_cons in Hp as [->|Hp].
        -- rewrite Hbody. by apply Hrest.
        -- by apply Hrest.
    + split.
      * intros Hp. apply not_elem_of_cons in Hp as [Hne Hp].
        destruct (Hrest p) as [Hout _]. specialize (Hout Hp).
        by rewrite lookup_insert_ne in Hout.
      * intros Hp. apply elem_of_cons in Hp as [->|Hp].
        -- rewrite Hbody. destruct (Hrest client) as [Hout _].
           specialize (Hout Hfresh). by rewrite lookup_insert_eq in Hout.
        -- destruct (Hrest p) as [_ Hin]. specialize (Hin Hp).
           assert (p <> client) by (intros ->; contradiction).
           by rewrite lookup_insert_ne in Hin.
    + split.
      * intros Hp. apply not_elem_of_cons in Hp as [Hne Hp].
        destruct (Hrest p) as [Hout _]. specialize (Hout Hp).
        destruct Hout as [? Hsp]. split; [done|].
        by rewrite Hsp, elem_of_spawned.
      * intros Hp. apply elem_of_cons in Hp as [->|Hp].
        -- rewrite Hbody. destruct (Hrest client) as [Hout _].
           specialize (Hout Hfresh). destruct Hout as [? Hsp].
           split; [done|]. apply Hsp.
           apply elem_of_union_l, elem_of_singleton. reflexivity.
        -- destruct (Hrest p) as [_ Hin]. specialize (Hin Hp).
           assert (p <> client) by (intros ->; contradiction).
           destruct (body p (hp !! p)); try done;
             destruct Hin as [? Hsp]; split; try done;
             by rewrite Hsp, elem_of_spawned.
Qed.

(** A loop whose body panics on no client of the list runs to its end. *)
Lemma range_clients_runs body cs : forall hp sp,
  NoDup cs ->
  (forall p, p ∈ cs -> body p (hp !! p) <> Crash) ->
  is_Some (range_clients body cs hp sp).
Proof.
  induction cs as [|client cs IH]; intros hp sp Hnd Hok; [by eexists|].
  apply NoDup_cons in Hnd as [Hfresh Hnd]. simpl.
  assert (forall c p, p ∈ cs -> (<[client:=c]> hp) !! p = hp !! p) as Hne.
  { intros c p Hp. apply lookup_insert_ne. intros ->. contradiction. }
  destruct (body client (hp !! client)) as [|c| |] eqn:Hbody.
  - apply IH; [done|]. intros p Hp. apply Hok. by apply list_elem_of_further.
  - apply IH; [done|]. intros p Hp. rewrite Hne by done.
    apply Hok. by apply list_elem_of_further.
  - apply IH; [done|]. intros p Hp. apply Hok. by apply list_elem_of_further.
  - exfalso. apply (Hok client); [apply list_elem_of_here | done].
Qed.

Lemma range_clients_runs_iff body cs hp sp :
  NoDup cs ->
  is_Some (range_clients body cs hp sp) <->
  forall p, p ∈ cs -> body p (hp !! p) <> Crash.
Proof.
  intros Hnd. split.
  - intros [[hp' sp'] Hrun] p Hp Hcrash.
    destruct (range_clients_spec _ _ _ _ _ _ Hnd Hrun p) as [_ Hin].
    specialize (Hin Hp). by rewrite Hcrash in Hin.
  - by apply range_clients_runs.
Qed.

(** Go does not fix the order in which a range loop visits a map.  The
    loops of the hub do not depend on it: any two orders of the same
    clients end in the same heap and start the same goroutines. *)
Lemma range_clients_order body cs cs' hp sp :
  NoDup cs -> cs ≡ₚ cs' ->
  range_clients body cs hp sp = range_clients body cs' hp sp.
Proof.
  intros Hnd Hperm.
  assert (NoDup cs') as Hnd' by by rewrite <- Hperm.
  destruct (range_clients body cs hp sp) as [[hp1 sp1]|] eqn:Hrun1;
    destruct (range_clients body cs' hp sp) as [[hp2 sp2]|] eqn:Hrun2.
  - pose proof (range_clients_spec _ _ _ _ _ _ Hnd Hrun1) as Hspec1.
    pose proof (range_clients_spec _ _ _ _ _ _ Hnd' Hrun2) as Hspec2.
    assert (hp1 = hp2 /\ sp1 = sp2) as [-> ->]; [|done].
    split.
    + apply map_eq. intros p.
      destruct (Hspec1 p) as [Hout1 Hin1], (Hspec2 p) as [Hout2 Hin2].
      destruct (decide (p ∈ cs)) as [Hp|Hp].
      * assert (p ∈ cs') as Hp' by by rewrite <- Hperm.
        specialize (Hin1 Hp). specialize (Hin2 Hp').
        destruct (body p (hp !! p)); try done;
          destruct Hin1 as [-> _], Hin2 as [-> _]; done.
      * assert (p ∉ cs') as Hp' by by rewrite <- Hperm.
        destruct (Hout1 Hp) as [-> _], (Hout2 Hp') as [-> _]. done.
    + apply set_eq. intros p.
      destruct (Hspec1 p) as [Hout1 Hin1], (Hspec2 p) as [Hout2 Hin2].
      destruct (decide (p ∈ cs)) as [Hp|Hp].
      * assert (p ∈ cs') as Hp' by by rewrite <- Hperm.
        specialize (Hin1 Hp). specialize (Hin2 Hp').
        destruct (body p (hp !! p)); try done;
          destruct Hin1 as [_ Hs1], Hin2 as [_ Hs2]; tauto.
      * assert (p ∉ cs') as Hp' by by rewrite <- Hperm.
        destruct (Hout1 Hp) as [_ Hs1], (Hout2 Hp') as [_ Hs2]. tauto.
  - exfalso. assert (is_Some (range_clients body cs' hp sp)) as [? Hsome].
    { apply (proj2 (range_clients_runs_iff body cs' hp sp Hnd')).
      intros p Hp. rewrite <- Hperm in Hp. revert p Hp.
      apply (proj1 (range_clients_runs_iff body cs hp sp Hnd)). by eexists. }
    congruence.
  - exfalso. assert (is_Some (range_clients body cs hp sp)) as [? Hsome].
    { apply (proj2 (range_clients_runs_iff body cs hp sp Hnd)).
      intros p Hp. rewrite Hperm in Hp. revert p Hp.
      apply (proj1 (range_clients_runs_iff body cs' hp sp Hnd')). by eexists. }
    congruence.
  - done.
Qed.

Lemma select_send_open c message default :
  closed (send c) = false ->
  select_send c message default =
  if bool_decide (full c) then default else Sent (enqueue c message).
Proof. intros Hopen. unfold select_send. by rewrite Hopen. Qed.

Lemma not_elem_of_spawned_empty (p : ptr) (sp : gset ptr) :
  (p ∈ sp <-> p ∈ (∅ : gset ptr)) -> p ∉ sp.
Proof. intros Hsp Hp. apply Hsp in Hp. by apply not_elem_of_empty in Hp. Qed.

Section with_json.

Context {J : JSON}.

(** *** The two fan-out functions *)

Lemma broadcastToDocument_fanout h d message exclude :
  live h ->
  exists h' sp,
    broadcastToDocument h d message exclude = Some (h', sp) /\
    documents h' = documents h /\
    fanout h h' sp
      (fun p c => String.eqb (documentID c) d && negb (excluded exclude p))
      message.
Proof.
  intros Hlive. unfold broadcastToDocument.
  match goal with
  | |- context [range_clients ?b _ _ _] => set (body := b)
  end.
  destruct (range_clients_runs body (elements (clients h)) (heap h) ∅)
    as [[hp sp] Hrun].
  { apply NoDup_elements. }
  { intros p Hp. apply elem_of_elements in Hp.
    destruct (Hlive p Hp) as (c & Hc & Hopen). subst body. simpl.
    rewrite Hc. destruct (String.eqb (documentID c) d); [|done].
    destruct (excluded exclude p); [done|].
    rewrite select_send_open by done. by case_bool_decide. }
  exists (set_heap h hp), sp. rewrite Hrun. simpl.
  split; [done|]. split; [done|]. split; [done|].
  intros p.
  destruct (range_clients_spec _ _ _ _ _ _ (NoDup_elements _) Hrun p)
    as [Hout Hin].
  rewrite elem_of_elements in Hout, Hin. split.
  - intros Hp. destruct (Hout Hp) as [? Hsp]. split; [done|].
    by apply not_elem_of_spawned_empty.
  - intros Hp. destruct (Hlive p Hp) as (c & Hc & Hopen).
    exists c. split; [done|]. specialize (Hin Hp).
    subst body. simpl in Hin. rewrite Hc in Hin.
    destruct (String.eqb (documentID c) d); simpl.
    + destruct (excluded exclude p); simpl.
      * destruct Hin as [? Hsp]. split; [congruence|].
        by apply not_elem_of_spawned_empty.
      * rewrite select_send_open in Hin by done. unfold offer.
        case_bool_decide.
        -- destruct Hin as [? Hsp]. split; [congruence|]. tauto.
        -- destruct Hin as [? Hsp]. split; [done|].
           apply not_elem_of_spawned_empty in Hsp. tauto.
    + destruct Hin as [? Hsp]. split; [congruence|].
      by apply not_elem_of_spawned_empty.
Qed.

Lemma broadcastToAll_fanout h message exclude :
  live h ->
  exists h' sp,
    broadcastToAll h message exclude = Some (h', sp) /\
    documents h' = documents h /\
    fanout h h' sp (fun p c => negb (excluded exclude p)) message.
Proof.
  intros Hlive. unfold broadcastToAll.
  match goal with
  | |- context [range_clients ?b _ _ _] => set (body := b)
  end.
  destruct (range_clients_runs body (elements (clients h)) (heap h) ∅)
    as [[hp sp] Hrun].
  { apply NoDup_elements. }
  { intros p Hp. apply elem_of_elements in Hp.
    destruct (Hlive p Hp) as (c & Hc & Hopen). subst body. simpl.
    rewrite Hc. destruct (excluded exclude p); [done|].
    rewrite select_send_open by done. by case_bool_decide. }
  exists (set_heap h hp), sp. rewrite Hrun. simpl.
  split; [done|]. split; [done|]. split; [done|].
  intros p.
  destruct (range_clients_spec _ _ _ _ _ _ (NoDup_elements _) Hrun p)
    as [Hout Hin].
  rewrite elem_of_elements in Hout, Hin. split.
  - intros Hp. destruct (Hout Hp) as [? Hsp]. split; [done|].
    by apply not_elem_of_spawned_empty.
  - intros Hp. destruct (Hlive p Hp) as (c & Hc & Hopen).
    exists c. split; [done|]. specialize (Hin Hp).
    subst body. simpl in Hin. rewrite Hc in Hin.
    destruct (excluded exclude p); simpl.
    + destruct Hin as [? Hsp]. split; [congruence|].
      by apply not_elem_of_spawned_empty.
    + rewrite select_send_open in Hin by done. unfold offer.
      case_bool_decide.
      * destruct Hin as [? Hsp]. split; [congruence|]. tauto.
      * destruct Hin as [? Hsp]. split; [done|].
        apply not_elem_of_spawned_empty in Hsp. tauto.
Qed.

(** *** The user-count emission *)

Lemma countDocuments_spec cs hp : forall m m',
  countDocuments cs hp m = Some m' ->
  (forall d, countClients cs hp d (default 0 (m !! d))
             = Some (default 0 (m' !! d))) /\
  (forall d, is_Some (m !! d) -> is_Some (m' !! d)) /\
  (forall p c, p ∈ cs -> hp !! p = Some c -> is_Some (m' !! documentID c)).
Proof.
  induction cs as [|client cs IH]; intros m m' Hcount; simpl in *.
  - simplify_eq. repeat split; try done.
    intros p c Hp. by apply elem_of_nil in Hp.
  - destruct (hp !! client) as [c|] eqn:Hc; simpl in *; [|discriminate].
    destruct (IH _ _ Hcount) as (Hnum & Hmono & Hkeys).
    repeat split.
    + intros d. specialize (Hnum d).
      destruct (String.eqb_spec (documentID c) d) as [<-|Hne].
      * by rewrite lookup_insert_eq in Hnum.
      * by rewrite lookup_insert_ne in Hnum.
    + intros d Hd. apply Hmono.
      destruct (decide (documentID c = d)) as [<-|Hne].
      * rewrite lookup_insert_eq. by eexists.
      * by rewrite lookup_insert_ne.
    + intros p c' Hp Hc'. apply elem_of_cons in Hp as [->|Hp].
      * simplify_eq. apply Hmono. rewrite lookup_insert_eq. by eexists.
      * by eapply Hkeys.
Qed.

Lemma countDocuments_runs cs hp : forall m,
  (forall p, p ∈ cs -> is_Some (hp !! p)) ->
  is_Some (countDocuments cs hp m).
Proof.
  induction cs as [|client cs IH]; intros m Hall; simpl; [by eexists|].
  destruct (Hall client) as [c Hc]; [apply list_elem_of_here|].
  rewrite Hc. simpl. apply IH. intros p Hp.
  apply Hall. by apply list_elem_of_further.
Qed.

Lemma offer_closed c message : closed (send (offer c message)) = closed (send c).
Proof. unfold offer. by case_bool_decide. Qed.

Lemma offer_documentID c message : documentID (offer c message) = documentID c.
Proof. unfold offer. by case_bool_decide. Qed.

Lemma offer_full c message : full c -> offer c message = c.
Proof. intros Hfull. unfold offer. by rewrite bool_decide_eq_true_2. Qed.

Lemma notify_full c count : full c -> notify c count = c.
Proof.
  intros Hfull. unfold notify. destruct count; [|done].
  destruct (ToBytes _); try done. by apply offer_full.
Qed.

Lemma sendUserCounts_spec cs :
  NoDup cs ->
  forall entries hp sp,
    NoDup entries.*1 ->
    (forall p, p ∈ cs -> exists c, hp !! p = Some c /\ closed (send c) = false) ->
    exists hp',
      sendUserCounts cs entries hp sp = Some (hp', sp) /\
      forall p,
        (p ∉ cs -> hp' !! p = hp !! p) /\
        (p ∈ cs -> exists c,
            hp !! p = Some c /\
            hp' !! p =
            Some (notify c ((list_to_map entries : gmap string Z)
                              !! documentID c))).
Proof.
  intros Hcs. induction entries as [|[d n] rest IH]; intros hp sp Hnd Hlive.
  - exists hp. split; [done|]. intros p. split; [done|].
    intros Hp. destruct (Hlive p Hp) as (c & Hc & _). by exists c.
  - simpl in Hnd. apply NoDup_cons in Hnd as [Hd Hnd].
    assert ((list_to_map rest : gmap string Z) !! d = None) as Hnone
      by by apply not_elem_of_list_to_map_1.
    simpl sendUserCounts. unfold notify.
    destruct (ToBytes (NewUserCountMessage n)) as [b| |] eqn:Hbytes.
    + match goal with
      | |- context [range_clients ?f _ _ _] => set (body := f)
      end.
      destruct (range_clients_runs body cs hp sp Hcs) as [[hp1 sp1] Hrun].
      { intros p Hp. destruct (Hlive p Hp) as (c & Hc & Hopen).
        subst body. simpl. rewrite Hc.
        destruct (String.eqb (documentID c) d); [|done].
        rewrite select_send_open by done. by case_bool_decide. }
      rewrite Hrun. simpl.
      assert (forall p, p ∈ cs -> exists c,
                 hp !! p = Some c /\ closed (send c) = false /\
                 hp1 !! p = Some (if String.eqb (documentID c) d
                                  then offer c b else c) /\
                 (p ∈ sp1 <-> p ∈ sp)) as Hstep.
      { intros p Hp. destruct (Hlive p Hp) as (c & Hc & Hopen).
        exists c. split; [done|]. split; [done|].
        destruct (range_clients_spec _ _ _ _ _ _ Hcs Hrun p) as [_ Hin].
        specialize (Hin Hp). subst body. simpl in Hin. rewrite Hc in Hin.
        destruct (String.eqb (documentID c) d).
        - rewrite select_send_open in Hin by done. unfold offer.
          case_bool_decide; destruct Hin as [Hin ?]; split; congruence.
        - destruct Hin as [Hin ?]. split; congruence. }
      assert (sp1 = sp) as ->.
      { apply set_eq. intros p. destruct (decide (p ∈ cs)) as [Hp|Hp].
        - by destruct (Hstep p Hp) as (_ & _ & _ & _ & ?).
        - destruct (range_clients_spec _ _ _ _ _ _ Hcs Hrun p) as [Hout _].
          by apply Hout. }
      destruct (IH hp1 sp Hnd) as (hp' & Hsend & Hspec).
      { intros p Hp. destruct (Hstep p Hp) as (c & Hc & Hopen & Hc1 & _).
        eexists. split; [exact Hc1|].
        destruct (String.eqb (documentID c) d); [|done].
        by rewrite offer_closed. }
      exists hp'. split; [done|]. intros p. split.
      * intros Hp. destruct (Hspec p) as [Hout _]. rewrite (Hout Hp).
        destruct (range_clients_spec _ _ _ _ _ _ Hcs Hrun p) as [Hout1 _].
        by apply Hout1.
      * intros Hp. destruct (Hstep p Hp) as (c & Hc & _ & Hc1 & _).
        exists c. split; [done|].
        destruct (Hspec p) as [_ Hin]. destruct (Hin Hp) as (c1 & Hc1' & ->).
        rewrite Hc1 in Hc1'. simplify_eq. f_equal. unfold notify.
        destruct (String.eqb_spec (documentID c) d) as [Heq|Hne].
        -- rewrite offer_documentID, Heq, Hnone, lookup_insert_eq.
           by rewrite Hbytes.
        -- by rewrite lookup_insert_ne.
    + destruct (IH hp sp Hnd Hlive) as (hp' & Hsend & Hspec).
      exists hp'. split; [done|]. intros p. split; [apply Hspec|].
      intros Hp. destruct (Hspec p) as [_ Hin].
      destruct (Hin Hp) as (c & Hc & ->). exists c. split; [done|].
      f_equal. unfold notify. rewrite list_to_map_cons.
      destruct (decide (d = documentID c)) as [->|Hne].
      * by rewrite Hnone, lookup_insert_eq, Hbytes.
      * by rewrite lookup_insert_ne.
    + destruct (IH hp sp Hnd Hlive) as (hp' & Hsend & Hspec).
      exists hp'. split; [done|]. intros p. split; [apply Hspec|].
      intros Hp. destruct (Hspec p) as [_ Hin].
      destruct (Hin Hp) as (c & Hc & ->). exists c. split; [done|].
      f_equal. unfold notify. rewrite list_to_map_cons.
      destruct (decide (d = documentID c)) as [->|Hne].
      * by rewrite Hnone, lookup_insert_eq, Hbytes.
      * by rewrite lookup_insert_ne.
Qed.

(** After [broadcastUserCount] every registered client has been offered the
    count of its document, nothing else has changed, and no unregistering
    goroutine has been started. *)
Lemma broadcastUserCount_spec h :
  live h ->
  exists h',
    broadcastUserCount h = Some (h', ∅) /\
    clients h' = clients h /\ documents h' = documents h /\
    forall p,
      (p ∉ clients h -> heap h' !! p = heap h !! p) /\
      (p ∈ clients h -> exists c,
          heap h !! p = Some c /\
          is_Some (ClientCountForDocument h (documentID c)) /\
          heap h' !! p =
          Some (notify c (ClientCountForDocument h (documentID c)))).
Proof.
  intros Hlive. unfold broadcastUserCount.
  destruct (countDocuments_runs (elements (clients h)) (heap h) ∅)
    as [docCounts Hcount].
  { intros p Hp. apply elem_of_elements in Hp.
    destruct (Hlive p Hp) as (c & Hc & _). by eexists. }
  rewrite Hcount. simpl.
  destruct (countDocuments_spec _ _ _ _ Hcount) as (Hnum & _ & Hkeys).
  destruct (sendUserCounts_spec (elements (clients h)) (NoDup_elements _)
              (map_to_list docCounts) (heap h) ∅)
    as (hp' & Hsend & Hspec).
  { apply NoDup_fst_map_to_list. }
  { intros p Hp. apply elem_of_elements in Hp. by apply Hlive. }
  rewrite Hsend. simpl. eexists. split; [reflexivity|]. simpl.
  split; [done|]. split; [done|]. intros p.
  destruct (Hspec p) as [Hout Hin]. rewrite elem_of_elements in Hout, Hin.
  split; [done|]. intros Hp.
  destruct (Hin Hp) as (c & Hc & Hc'). exists c. split; [done|].
  rewrite list_to_map_to_list in Hc'.
  assert (is_Some (docCounts !! documentID c)) as [n Hn].
  { eapply Hkeys; [|exact Hc]. by apply elem_of_elements. }
  unfold ClientCountForDocument.
  specialize (Hnum (documentID c)). rewrite lookup_empty in Hnum.
  simpl in Hnum. rewrite Hnum, Hn. simpl. split; [by eexists|].
  by rewrite Hc', Hn.
Qed.

(** *** One iteration of [Run] *)



Lemma GetOrCreateDocument_frame h d now :
  clients (GetOrCreateDocument h d now).1 = clients h /\
  heap (GetOrCreateDocument h d now).1 = heap h /\
  documents (GetOrCreateDocument h d now).1 !! d
    = Some (GetOrCreateDocument h d now).2 /\
  (forall d', d' <> d ->
     documents (GetOrCreateDocument h d now).1 !! d' = documents h !! d').
Proof.
  unfold GetOrCreateDocument.
  destruct (documents h !! d) as [doc|] eqn:Hd; simpl.
  - done.
  - rewrite lookup_insert_eq. repeat split; try done.
    intros d' Hne. by rewrite lookup_insert_ne.
Qed.

Lemma live_GetOrCreateDocument h d now :
  live h -> live (GetOrCreateDocument h d now).1.
Proof.
  intros Hlive p. destruct (GetOrCreateDocument_frame h d now) as (-> & -> & _).
  apply Hlive.
Qed.

Lemma fanout_after_create h d now h' sp target message :
  fanout (GetOrCreateDocument h d now).1 h' sp target message ->
  fanout h h' sp target message.
Proof.
  unfold fanout.
  by destruct (GetOrCreateDocument_frame h d now) as (-> & -> & _).
Qed.

(** The fan-out on a document passes over the sender. *)
Lemma broadcastToDocument_skips_sender h d message p h' sp :
  live h ->
  broadcastToDocument h d message (Some p) = Some (h', sp) ->
  heap h' !! p = heap h !! p /\ p ∉ sp.
Proof.
  intros Hlive Hrun.
  destruct (broadcastToDocument_fanout h d message (Some p) Hlive)
    as (h'' & sp'' & Hrun' & _ & _ & Hfan).
  rewrite Hrun in Hrun'. simplify_eq.
  destruct (Hfan p) as [Hout Hin].
  destruct (decide (p ∈ clients h)) as [Hp|Hp]; [|by apply Hout].
  destruct (Hin Hp) as (c & Hc & Htarget).
  simpl in Htarget. rewrite bool_decide_eq_true_2 in Htarget by done.
  rewrite andb_false_r in Htarget. destruct Htarget as [-> ?]. done.
Qed.

(** X27. Every broadcast that is routed by its document id leaves the queue of
    its sender alone, whatever its type: the exclusion the legacy path
    does not make. *)
Lemma routed_broadcast_skips_sender t0 t1 h message p msg h' sp :
  live h ->
  Unmarshal message = Some msg ->
  UnmarshalObject message = true ->
  DocumentID msg <> "" ->
  Run_step t0 t1 h (Broadcast message (Some p)) = Some (h', sp) ->
  heap h' !! p = heap h !! p /\ p ∉ sp.
Proof.
  intros Hlive Hmsg Hobj Hdoc.
  apply String.eqb_neq in Hdoc.
  unfold Run_step, MessageFromBytes, IsLegacyContent.
  rewrite Hmsg, Hobj. simpl. rewrite Hdoc.
  pose proof (live_GetOrCreateDocument h (DocumentID msg) t0 Hlive) as Hlive1.
  destruct (GetOrCreateDocument_frame h (DocumentID msg) t0) as (_ & Hheap & _).
  destruct (GetOrCreateDocument h (DocumentID msg) t0) as [h1 doc].
  simpl in Hlive1, Hheap. rewrite <- Hheap.
  assert (forall ds, live (set_documents h1 ds)) as Hlive2 by (intros ds; exact Hlive1).
  destruct (String.eqb (Type_ msg) MsgTypeOperation).
  - destruct (Operation msg) as [op|].
    + destruct (document.ApplyOperation doc (Some op) t1)
        as [[doc' [[newContent newVersion] [err|]]]|]; simpl.
      * intros ?. simplify_eq. simpl. split; [done | apply not_elem_of_empty].
      * destruct (ToBytes _) as [b| |].
        -- intros Hrun.
           by apply broadcastToDocument_skips_sender in Hrun.
        -- intros ?. simplify_eq. simpl. split; [done | apply not_elem_of_empty].
        -- intros ?. simplify_eq. simpl. split; [done | apply not_elem_of_empty].
      * discriminate.
    + intros ?. simplify_eq. split; [done | apply not_elem_of_empty].
  - destruct (String.eqb (Type_ msg) MsgTypeContent).
    + destruct (negb (String.eqb (Content msg) "")).
      * intros Hrun. by apply broadcastToDocument_skips_sender in Hrun.
      * intros ?. simplify_eq. split; [done | apply not_elem_of_empty].
    + intros Hrun. by apply broadcastToDocument_skips_sender in Hrun.
Qed.


(** C7, as the code has it.  A structured message with a document id whose
    type is neither "operation" nor "content" is fanned out as received to
    the participants of that document except the sender.  An operation
    message without an operation and a content message without content
    end the iteration with no fan-out: the document is created if it was
    not there and no queue changes. *)
Theorem other_types_are_relayed (t0 t1 : document.Time) (h : Hub)
    (message : string) (sender : option ptr) (msg : Message) :
  live h ->
  Unmarshal message = Some msg ->
  UnmarshalObject message = true ->
  DocumentID msg <> "" ->
  (Type_ msg <> MsgTypeOperation -> Type_ msg <> MsgTypeContent ->
   exists h' sp,
     Run_step t0 t1 h (Broadcast message sender) = Some (h', sp) /\
     documents h' = documents (GetOrCreateDocument h (DocumentID msg) t0).1 /\
     fanout h h' sp
       (fun p c => String.eqb (documentID c) (DocumentID msg)
                   && negb (excluded sender p))
       message) /\
  ((Type_ msg = MsgTypeOperation /\ Operation msg = None) \/
   (Type_ msg = MsgTypeContent /\ Content msg = "") ->
   Run_step t0 t1 h (Broadcast message sender)
   = Some ((GetOrCreateDocument h (DocumentID msg) t0).1, ∅) /\
   heap (GetOrCreateDocument h (DocumentID msg) t0).1 = heap h).
Proof.
  intros Hlive Hmsg Hobj Hdoc.
  assert (String.eqb (DocumentID msg) "" = false) as Hdocb
    by by apply String.eqb_neq.
  split.
  - intros Hop Hcontent.
    apply String.eqb_neq in Hop, Hcontent.
    unfold Run_step, MessageFromBytes, IsLegacyContent.
    rewrite Hmsg, Hobj. simpl. rewrite Hdocb.
    pose proof (live_GetOrCreateDocument h (DocumentID msg) t0 Hlive) as Hlive1.
    destruct (GetOrCreateDocument h (DocumentID msg) t0) as [h1 doc] eqn:Hget.
    rewrite Hop, Hcontent. simpl in Hlive1.
    destruct (broadcastToDocument_fanout h1 (DocumentID msg) message sender
                Hlive1) as (h' & sp & Hrun & Hdocs & Hfan).
    exists h', sp. split; [done|]. split; [done|].
    apply (fanout_after_create h (DocumentID msg) t0). by rewrite Hget.
  - intros Hcase.
    unfold Run_step, MessageFromBytes, IsLegacyContent.
    rewrite Hmsg, Hobj. simpl. rewrite Hdocb.
    destruct (GetOrCreateDocument_frame h (DocumentID msg) t0) as (_ & Hheap & _).
    destruct (GetOrCreateDocument h (DocumentID msg) t0) as [h1 doc] eqn:Hget.
    simpl in *. split; [|done].
    destruct Hcase as [[Htype Hnone]|[Htype Hempty]].
    + by rewrite Htype, Hnone.
    + by rewrite Htype, Hempty.
Qed.

(** C8, as the code has it.  On the user-count path (the emission after a
    registration or an unregistration) a participant whose queue is full is
    skipped and keeps its queue, and nobody is scheduled for removal: no
    unregistering goroutine is started. *)
Theorem user_count_skips_full_queues (t0 t1 : document.Time) (h : Hub)
    (q : ptr) :
  live h ->
  ((exists c, heap h !! q = Some c /\ closed (send c) = false) ->
   exists h',
     Run_step t0 t1 h (Register q) = Some (h', ∅) /\
     clients h' = {[q]} ∪ clients h /\
     forall p c, heap h !! p = Some c -> full c -> heap h' !! p = Some c) /\
  (exists h',
     Run_step t0 t1 h (Unregister q) = Some (h', ∅) /\
     clients h' = clients h ∖ {[q]} /\
     forall p c, p <> q -> heap h !! p = Some c -> full c ->
                 heap h' !! p = Some c).
Proof.
  intros Hlive. split.
  - intros (cq & Hcq & Hopen). unfold Run_step.
    set (h1 := {| clients := {[q]} ∪ clients h; documents := documents h;
                  heap := heap h |}).
    assert (live h1) as Hlive1.
    { intros p Hp. simpl in Hp. apply elem_of_union in Hp as [Hp|Hp].
      - apply elem_of_singleton in Hp as ->. by exists cq.
      - by apply Hlive. }
    destruct (broadcastUserCount_spec h1 Hlive1)
      as (h' & Hrun & Hclients & _ & Hspec).
    exists h'. rewrite Hrun. simpl. split; [done|]. split; [done|].
    intros p c Hc Hfull. destruct (Hspec p) as [Hout Hin].
    destruct (decide (p ∈ clients h1)) as [Hp|Hp].
    + destruct (Hin Hp) as (c' & Hc' & _ & ->). simpl in Hc'.
      simplify_eq. by rewrite notify_full.
    + by rewrite (Hout Hp).
  - unfold Run_step. case_bool_decide as Hq.
    + destruct (Hlive q Hq) as (cq & Hcq & Hopen).
      rewrite Hcq. simpl. unfold close. rewrite Hopen. simpl.
      match goal with
      | |- context [broadcastUserCount ?x] => set (h1 := x)
      end.
      assert (live h1) as Hlive1.
      { intros p Hp. simpl in Hp. apply elem_of_difference in Hp as [Hp Hne].
        rewrite elem_of_singleton in Hne. simpl.
        rewrite lookup_insert_ne by done. by apply Hlive. }
      destruct (broadcastUserCount_spec h1 Hlive1)
        as (h' & Hrun & Hclients & _ & Hspec).
      exists h'. rewrite Hrun. simpl. split; [done|]. split; [done|].
      intros p c Hne Hc Hfull. destruct (Hspec p) as [Hout Hin].
      destruct (decide (p ∈ clients h1)) as [Hp|Hp].
      * destruct (Hin Hp) as (c' & Hc' & _ & ->). simpl in Hc'.
        rewrite lookup_insert_ne in Hc' by done.
        simplify_eq. by rewrite notify_full.
      * rewrite (Hout Hp). simpl. by rewrite lookup_insert_ne.
    + simpl.
      destruct (broadcastUserCount_spec h Hlive)
        as (h' & Hrun & Hclients & _ & Hspec).
      exists h'. rewrite Hrun. simpl. split; [done|]. split.
      * rewrite Hclients. apply set_eq. intros x.
        rewrite elem_of_difference, elem_of_singleton.
        split; [|tauto]. intros Hx. split; [done|]. by intros ->.
      * intros p c Hne Hc Hfull. destruct (Hspec p) as [Hout Hin].
        destruct (decide (p ∈ clients h)) as [Hp|Hp].
        -- destruct (Hin Hp) as (c' & Hc' & _ & ->).
           simplify_eq. by rewrite notify_full.
        -- by rewrite (Hout Hp).
Qed.

(** C9, as the code has it.  Unregistering a participant that is not in the
    participant set leaves the set and the document table as they were and
    closes nothing, but the user-count emission still runs: every
    registered participant is offered the count of its document. *)
Theorem unregister_absent_recounts (t0 t1 : document.Time) (h : Hub)
    (q : ptr) :
  live h ->
  q ∉ clients h ->
  exists h',
    Run_step t0 t1 h (Unregister q) = Some (h', ∅) /\
    clients h' = clients h /\ documents h' = documents h /\
    forall p,
      (p ∉ clients h -> heap h' !! p = heap h !! p) /\
      (p ∈ clients h -> exists c,
          heap h !! p = Some c /\
          is_Some (ClientCountForDocument h (documentID c)) /\
          heap h' !! p =
          Some (notify c (ClientCountForDocument h (documentID c)))).
Proof.
  intros Hlive Hq. unfold Run_step.
  rewrite bool_decide_eq_false_2 by done. simpl.
  destruct (broadcastUserCount_spec h Hlive)
    as (h' & Hrun & Hclients & Hdocs & Hspec).
  exists h'. by rewrite Hrun.
Qed.

End with_json.

End hub_facts.

(** *** The examples, run *)

Module hub_examples.

Import hub hub_facts wire.

Lemma live_three_clients : live three_clients.
Proof.
  intros p Hp. unfold three_clients in Hp. simpl in Hp.
  rewrite !elem_of_union, !elem_of_singleton in Hp.
  destruct Hp as [[->| ->]| ->]; eexists; split; run.
Qed.

Lemma live_one_stalled : live one_stalled.
Proof.
  intros p Hp. unfold one_stalled in Hp. simpl in Hp.
  rewrite !elem_of_union, !elem_of_singleton in Hp.
  destruct Hp as [->| ->]; eexists; split; run.
Qed.



(** C2, at the inputs where the sender is sent its own broadcast: a plain
    text frame, and a structured frame without a document id.  Both go
    through [broadcastToAll] with a [nil] exclusion. *)
Theorem sender_is_sent_its_own_broadcast :
  (Unmarshal "hello" = None /\
   queue three_clients p1 = Some [] /\
   exists h' sp,
     Run_step 0 0 three_clients (Broadcast "hello" (Some p1)) = Some (h', sp) /\
     queue h' p1 = Some ["hello"]) /\
  (let frame := message_json content_without_document in
   Unmarshal frame = Some content_without_document /\
   UnmarshalObject frame = true /\
   DocumentID content_without_document = "" /\
   exists h' sp,
     Run_step 0 0 three_clients (Broadcast frame (Some p1)) = Some (h', sp) /\
     queue h' p1 = Some [frame]).
Proof.
  split.
  - split; [run|]. split; [run|]. eexists _, _. split; run.
  - split; [run|]. split; [run|]. split; [run|]. eexists _, _. split; run.
Qed.

(** The default branch of the type switch relays a user-count frame that a
    participant sends: the other participant of the document gets it, the
    sender and the participant of the other document do not. *)
Lemma other_types_are_relayed_witness :
  let frame := message_json user_count_for_document in
  exists h' sp,
    Run_step 0 0 three_clients (Broadcast frame (Some p1)) = Some (h', sp) /\
    documents h' = documents (GetOrCreateDocument three_clients "doc-A" 0).1 /\
    fanout three_clients h' sp
      (fun p c => String.eqb (documentID c) "doc-A" && negb (excluded (Some p1) p))
      frame.
Proof.
  destruct (other_types_are_relayed (J := codec) 0 0 three_clients
              (message_json user_count_for_document) (Some p1)
              user_count_for_document live_three_clients
              ltac:(vm_compute; reflexivity) ltac:(vm_compute; reflexivity)
              ltac:(discriminate)) as [Hrelay _].
  apply Hrelay; discriminate.
Defined.

(** C7 fails for a content message without content: the frame decodes, it
    names the document of [p2], [p2] is not the sender and has room, and
    yet nothing is queued for [p2]. *)
Lemma empty_content_is_not_relayed :
  let frame := message_json content_without_text in
  Unmarshal frame = Some content_without_text /\
  UnmarshalObject frame = true /\
  DocumentID content_without_text = "doc-A" /\
  Type_ content_without_text = MsgTypeContent /\
  Content content_without_text = "" /\
  heap three_clients !! p2 = Some (NewClient "doc-A") /\
  exists h' sp,
    Run_step 0 0 three_clients (Broadcast frame (Some p1)) = Some (h', sp) /\
    queue h' p2 = Some [] /\
    ~ fanout three_clients h' sp
        (fun p c => String.eqb (documentID c) "doc-A"
                    && negb (excluded (Some p1) p))
        frame.
Proof.
  repeat (split; [run|]).
  eexists _, _. split; [run|]. split; [run|].
  intros [_ Hfan]. destruct (Hfan p2) as [_ Hin].
  destruct Hin as (c & Hc & Htarget); [member|].
  vm_compute in Hc. injection Hc as <-.
  vm_compute in Htarget. destruct Htarget as [Hqueued _]. discriminate.
Qed.

(** The same for an operation message that carries no operation. *)
Lemma missing_operation_is_not_relayed :
  let frame := message_json operation_without_operation in
  Unmarshal frame = Some operation_without_operation /\
  UnmarshalObject frame = true /\
  exists h' sp,
    Run_step 0 0 three_clients (Broadcast frame (Some p1)) = Some (h', sp) /\
    queue h' p2 = Some [] /\ queue h' p1 = Some [] /\ queue h' p3 = Some [].
Proof.
  repeat (split; [run|]).
  eexists _, _. split; [run|]. repeat split; run.
Qed.

Lemma user_count_skips_full_queues_witness :
  live one_stalled /\
  (exists h',
     Run_step 0 0 one_stalled (Register p2) = Some (h', ∅) /\
     clients h' = {[p2]} ∪ clients one_stalled /\
     forall p c, heap one_stalled !! p = Some c -> full c ->
                 heap h' !! p = Some c) /\
  (exists h',
     Run_step 0 0 one_stalled (Unregister p2) = Some (h', ∅) /\
     clients h' = clients one_stalled ∖ {[p2]} /\
     forall p c, p <> p2 -> heap one_stalled !! p = Some c -> full c ->
                 heap h' !! p = Some c).
Proof.
  split; [exact live_one_stalled|].
  destruct (user_count_skips_full_queues (J := codec) 0 0 one_stalled p2
              live_one_stalled)
    as [Hregister Hunregister].
  split; [|exact Hunregister].
  apply Hregister. exists (NewClient "doc-A"). split; reflexivity.
Defined.

(** C8 fails: [p1] is registered with a full queue when [p2] leaves.  The
    count for their document is not queued for [p1], and no unregistering
    goroutine is started for it; an ordinary broadcast on the same hub
    does start one. *)
Lemma full_queue_is_not_evicted_on_user_count :
  full (stalled "doc-A") /\
  heap one_stalled !! p1 = Some (stalled "doc-A") /\
  p1 ∈ clients one_stalled /\
  (exists h',
     Run_step 0 0 one_stalled (Unregister p2) = Some (h', ∅) /\
     heap h' !! p1 = Some (stalled "doc-A") /\
     elements (clients h') = [p1]) /\
  (exists h',
     Run_step 0 0 one_stalled (Broadcast "hello" (Some p2))
     = Some (h', {[p1]})).
Proof.
  split; [unfold full; simpl; lia|]. split; [run|]. split; [member|]. split.
  - eexists. split; [run|]. split; run.
  - eexists. run.
Qed.

Lemma unregister_absent_recounts_witness :
  live three_clients /\ (stranger ∉ clients three_clients) /\
  exists h',
    Run_step 0 0 three_clients (Unregister stranger) = Some (h', ∅) /\
    clients h' = clients three_clients /\
    documents h' = documents three_clients /\
    forall p,
      (p ∉ clients three_clients -> heap h' !! p = heap three_clients !! p) /\
      (p ∈ clients three_clients -> exists c,
          heap three_clients !! p = Some c /\
          is_Some (ClientCountForDocument three_clients (documentID c)) /\
          heap h' !! p =
          Some (notify c (ClientCountForDocument three_clients (documentID c)))).
Proof.
  assert (stranger ∉ clients three_clients) as Habsent by member.
  split; [exact live_three_clients|]. split; [exact Habsent|].
  exact (unregister_absent_recounts (J := codec) 0 0 three_clients stranger
           live_three_clients Habsent).
Defined.

(** C9 fails: [stranger] is not registered, and after its unregistration the
    queues of the registered participants are not what they were: each
    holds the count of its document. *)
Lemma unregister_absent_changes_queues :
  (stranger ∉ clients three_clients) /\
  queue three_clients p1 = Some [] /\
  queue three_clients p3 = Some [] /\
  exists h' sp,
    Run_step 0 0 three_clients (Unregister stranger) = Some (h', sp) /\
    queue h' p1 = Some [message_json (NewUserCountMessage 2)] /\
    queue h' p3 = Some [message_json (NewUserCountMessage 1)] /\
    queue h' p1 <> queue three_clients p1.
Proof.
  split; [member|]. split; [run|]. split; [run|].
  eexists _, _. split; [run|]. split; [run|]. split; [run|].
  vm_compute. discriminate.
Qed.

(** The operation path on the same hub: [p1] sends an insert for its
    document.  The document is created and becomes "hi" at version 1,
    [p2] is sent the operation stamped with version 1, and neither the
    sender nor the participant of the other document is sent anything. *)
Example operation_is_applied_and_relayed :
  let frame := message_json insert_hi in
  let stamped :=
    message_json
      {| Type_ := MsgTypeOperation; DocumentID := "doc-A"; Content := "";
         Operation := Some (operations.NewInsertOp 0 "hi" 1);
         UserCount := 0 |} in
  exists h',
    Run_step 5 7 three_clients (Broadcast frame (Some p1)) = Some (h', ∅) /\
    documents h' !! "doc-A"
      = Some {| document.content := "hi"; document.version := 1;
                document.lastModified := 7 |} /\
    queue h' p1 = Some [] /\
    queue h' p2 = Some [stamped] /\
    queue h' p3 = Some [].
Proof.
  eexists. split; [run|]. repeat split; run.
Qed.

End hub_examples.

(** * Further properties *)

(** ** [operations]: [Apply], [ApplyAll] and [Transform] *)

Module operations_laws.

Import operations GoFacts operations_facts vocabulary.

Lemma append_empty_r s : s +:+ "" = s.
Proof. induction s as [|c s IH]; simpl; congruence. Qed.

Lemma is_suffix_refl s : is_suffix s s.
Proof. by exists "". Qed.

Lemma is_suffix_empty s : is_suffix "" s.
Proof. exists s. by rewrite append_empty_r. Qed.

Lemma Validate_iff op :
  Validate op = None <->
  0 <= Position op /\ 0 <= Version op /\
  ((is_edit op /\ Text op <> "") \/ Type_ op = OpRetain).
Proof.
  split.
  - intros Hv. destruct (Validate_ok op Hv) as (Hp & Hver & Ht).
    repeat split; try done. revert Hv. unfold Validate, is_edit.
    destruct (Z.ltb_spec (Position op) 0); [discriminate|].
    destruct (String.eqb_spec (Type_ op) OpInsert) as [Hi|Hi]; [tauto|].
    destruct (String.eqb_spec (Type_ op) OpDelete) as [Hd|Hd]; [tauto|].
    destruct (String.eqb_spec (Type_ op) OpRetain) as [Hr|Hr];
      [tauto | discriminate].
  - intros (Hp & Hver & Hkind). unfold Validate, is_edit in *.
    destruct (Z.ltb_spec (Position op) 0); [lia|].
    destruct (Z.ltb_spec (Version op) 0); [lia|].
    destruct Hkind as [[[Hk|Hk] Ht]|Hk]; rewrite Hk; simpl;
      try reflexivity;
      by destruct (String.eqb_spec (Text op) "").
Qed.

(** X1. A valid insert applies exactly when its position is inside the
    document or at its end, and the result is the document with the text
    put at that position; past the end it is refused with the position and
    the length of the document. *)
Theorem insert_applies_at_a_cut (D : string) (op : Operation) :
  Validate op = None -> Type_ op = OpInsert ->
  (forall r, Apply D (Some op) = Ok r <->
             exists A B, D = A +:+ B /\ len A = Position op /\
                         r = A +:+ Text op +:+ B) /\
  (len D < Position op ->
   Apply D (Some op) = Err (ErrInsertOutOfRange (Position op) (len D))).
Proof.
  intros Hv Hk. unfold Apply. rewrite Hv, Hk. simpl. split.
  - intros r. split.
    + intros Hr. pose proof (applyInsert_inv _ _ _ Hr) as Hpos.
      destruct (split_at D (Position op) Hpos) as (A & B & -> & HA).
      exists A, B. rewrite applyInsert_at in Hr by done. by simplify_eq.
    + intros (A & B & -> & HA & ->). by apply applyInsert_at.
  - intros Hpast. unfold applyInsert.
    destruct (Z.ltb_spec (Position op) 0); [done|].
    destruct (Z.gtb_spec (Position op) (len D)); [done | lia].
Qed.

Lemma insert_applies_at_a_cut_witness :
  Apply "helo" (Some (NewInsertOp 3 "l" 0)) = Ok "hello" /\
  Apply "helo" (Some (NewInsertOp 5 "l" 0)) = Err (ErrInsertOutOfRange 5 4).
Proof.
  destruct (insert_applies_at_a_cut "helo" (NewInsertOp 3 "l" 0)
              eq_refl eq_refl) as [Hcut _].
  destruct (insert_applies_at_a_cut "helo" (NewInsertOp 5 "l" 0)
              eq_refl eq_refl) as [_ Hpast].
  split.
  - apply Hcut. exists "hel", "o". repeat split.
  - apply Hpast. unfold len. simpl. lia.
Defined.

(** X2. A valid delete applies exactly when its text stands in the document
    at its position, and the result is the document without that
    occurrence.  The document and the text together fit an [int]. *)
Theorem delete_applies_on_its_text (D : string) (op : Operation) (r : string) :
  Validate op = None -> Type_ op = OpDelete ->
  len D + len (Text op) <= int_max ->
  Apply D (Some op) = Ok r <->
  exists A B, D = A +:+ Text op +:+ B /\ len A = Position op /\ r = A +:+ B.
Proof.
  intros Hv Hk Hfit. unfold Apply. rewrite Hv, Hk. simpl.
  destruct (Validate_ok op Hv) as (Hp & _ & Ht).
  specialize (Ht (or_intror Hk)).
  pose proof (len_nonneg (Text op)). pose proof (len_nonneg D). split.
  - intros Hr.
    destruct (applyDelete_inv _ _ _ Hfit Hr) as (_ & Hend & Hslice).
    destruct (split_twice D (Position op) (Position op + len (Text op)))
      as (A & X & B & -> & HA & HX); try lia.
    assert (X = Text op) as ->.
    { apply (slice_piece A X B); [by rewrite HA | lia]. }
    exists A, B. rewrite applyDelete_at in Hr; [by simplify_eq | done | done |].
    unfold representable. rewrite !len_append in *. lia.
  - intros (A & B & -> & HA & ->). apply applyDelete_at; [done | done |].
    unfold representable. rewrite !len_append in *. lia.
Qed.

Lemma delete_applies_on_its_text_witness :
  Apply "hello" (Some (NewDeleteOp 1 "ell" 0)) = Ok "ho".
Proof.
  apply (delete_applies_on_its_text "hello" (NewDeleteOp 1 "ell" 0) "ho");
    [reflexivity | reflexivity | unfold len, int_max; simpl; lia |].
  exists "h", "o". repeat split.
Defined.


Lemma applyDelete_cut D op r :
  Text op <> "" -> len D + len (Text op) <= int_max ->
  applyDelete D op = Ok r ->
  exists A B, D = A +:+ Text op +:+ B /\ len A = Position op /\ r = A +:+ B.
Proof.
  intros Ht Hfit Hr.
  pose proof (len_nonneg (Text op)). pose proof (len_nonneg D).
  destruct (applyDelete_inv _ _ _ Hfit Hr) as (_ & Hend & Hslice).
  destruct (split_twice D (Position op) (Position op + len (Text op)))
    as (A & X & B & -> & HA & HX); try lia.
  { unfold applyDelete in Hr.
    by destruct (Z.ltb_spec (Position op) 0); [discriminate|]. }
  assert (X = Text op) as ->.
  { apply (slice_piece A X B); [by rewrite HA | lia]. }
  exists A, B. rewrite applyDelete_at in Hr; [by simplify_eq | done | done |].
  unfold representable. rewrite !len_append in *. lia.
Qed.

(** X3. A delete is undone by the insert of its text at its position:
    when a valid delete applies to a document, applying that insert to the
    result gives the document back, so that an insert and a delete of the
    same text at the same position undo each other in both orders. *)
Theorem apply_delete_then_insert (D r : string) (op : Operation) (v : Z) :
  Validate op = None -> Type_ op = OpDelete ->
  0 <= v ->
  len D + len (Text op) <= int_max ->
  Apply D (Some op) = Ok r ->
  Apply r (Some (NewInsertOp (Position op) (Text op) v)) = Ok D.
Proof.
  intros Hv Hk Hver Hfit Hr. unfold Apply in Hr. rewrite Hv, Hk in Hr.
  simpl in Hr. destruct (Validate_ok op Hv) as (Hp & _ & Ht).
  specialize (Ht (or_intror Hk)).
  destruct (applyDelete_cut D op r Ht Hfit Hr) as (A & B & -> & HA & ->).
  rewrite Apply_insert by done.
  by apply (applyInsert_at A B (NewInsertOp (Position op) (Text op) v)).
Qed.

Lemma apply_delete_then_insert_witness :
  Apply "ho" (Some (NewInsertOp 1 "ell" 3)) = Ok "hello".
Proof.
  apply (apply_delete_then_insert "hello" "ho" (NewDeleteOp 1 "ell" 0) 3);
    try reflexivity; unfold len, int_max; simpl; lia.
Defined.

(** X4. What [Apply] does to the length of the document: an insert adds the
    length of its text, a delete takes it away, and a retain leaves the
    document as it is. *)
Theorem Apply_changes_length (D r : string) (op : Operation) :
  len D + len (Text op) <= int_max ->
  Apply D (Some op) = Ok r ->
  (Type_ op = OpInsert /\ len r = len D + len (Text op)) \/
  (Type_ op = OpDelete /\ len r = len D - len (Text op)) \/
  (Type_ op = OpRetain /\ r = D).
Proof.
  intros Hfit. unfold Apply.
  destruct (Validate op) as [e|] eqn:Hv; [done|].
  destruct (Validate_ok op Hv) as (Hp & _ & Ht).
  destruct (String.eqb_spec (Type_ op) OpInsert) as [Hi|Hi].
  - intros Hr. left. split; [done|].
    pose proof (applyInsert_inv _ _ _ Hr) as Hpos.
    destruct (split_at D (Position op) Hpos) as (A & B & -> & HA).
    rewrite applyInsert_at in Hr by done. injection Hr as <-.
    rewrite !len_append. lia.
  - destruct (String.eqb_spec (Type_ op) OpDelete) as [Hd|Hd].
    + intros Hr. right. left. split; [done|].
      destruct (applyDelete_cut D op r (Ht (or_intror Hd)) Hfit Hr)
        as (A & B & -> & HA & ->).
      rewrite !len_append. lia.
    + destruct (String.eqb_spec (Type_ op) OpRetain) as [Hr|Hr]; [|done].
      intros [= <-]. by right; right.
Qed.

Lemma Apply_changes_length_witness :
  (Type_ (NewDeleteOp 1 "ell" 0) = OpInsert /\
   len "ho" = len "hello" + len (Text (NewDeleteOp 1 "ell" 0))) \/
  (Type_ (NewDeleteOp 1 "ell" 0) = OpDelete /\
   len "ho" = len "hello" - len (Text (NewDeleteOp 1 "ell" 0))) \/
  (Type_ (NewDeleteOp 1 "ell" 0) = OpRetain /\ "ho" = "hello").
Proof.
  apply (Apply_changes_length "hello" "ho" (NewDeleteOp 1 "ell" 0));
    [unfold len, int_max; simpl; lia | reflexivity].
Defined.

(** *** [ApplyAll] *)

Lemma wrap_add_l a b : wrap (wrap a + b) = wrap (a + b).
Proof.
  unfold wrap. f_equal.
  replace ((a + 2 ^ 63) mod 2 ^ 64 - 2 ^ 63 + b + 2 ^ 63)
    with ((a + 2 ^ 63) mod 2 ^ 64 + b) by lia.
  rewrite Zplus_mod_idemp_l. f_equal. lia.
Qed.

Lemma ApplyAll_from_app (ops1 ops2 : list (option Operation)) (i : Z) (D : string) :
  in_range i ->
  ApplyAll_from i D (ops1 ++ ops2) =
  match ApplyAll_from i D ops1 with
  | Ok d => ApplyAll_from (wrap (i + Z.of_nat (length ops1))) d ops2
  | Err e => Err e
  | Panic => Panic
  end.
Proof.
  revert i D. induction ops1 as [|op ops1 IH]; intros i D Hi.
  - simpl. by rewrite Z.add_0_r, wrap_in_range.
  - cbn [app ApplyAll_from length]. destruct (Apply D op) as [d|e|]; try done.
    rewrite IH by apply wrap_range. unfold add. rewrite wrap_add_l.
    by replace (i + 1 + Z.of_nat (length ops1))
      with (i + Z.of_nat (S (length ops1))) by lia.
Qed.

Lemma ApplyAll_from_ok (ops : list (option Operation)) (i j : Z) (D r : string) :
  ApplyAll_from i D ops = Ok r -> ApplyAll_from j D ops = Ok r.
Proof.
  revert i j D. induction ops as [|op ops IH]; intros i j D; simpl; [done|].
  destruct (Apply D op); try done. apply IH.
Qed.

(** X5. [ApplyAll] over two lists one after the other: an error or a panic
    in the first list is the result of the whole; otherwise the second list
    is applied to the document the first one produced, and succeeds with the
    same document as [ApplyAll] on that list alone. *)
Theorem ApplyAll_composes (D : string) (ops1 ops2 : list (option Operation)) :
  match ApplyAll D ops1 with
  | Ok d =>
      (forall r, ApplyAll D (ops1 ++ ops2) = Ok r <-> ApplyAll d ops2 = Ok r) /\
      (ApplyAll D (ops1 ++ ops2) = Panic <-> ApplyAll d ops2 = Panic)
  | Err e => ApplyAll D (ops1 ++ ops2) = Err e
  | Panic => ApplyAll D (ops1 ++ ops2) = Panic
  end.
Proof.
  unfold ApplyAll. rewrite ApplyAll_from_app by fits.
  destruct (ApplyAll_from 0 D ops1) as [d|e|]; try done.
  assert (forall ops i j d0, ApplyAll_from i d0 ops = Panic ->
                             ApplyAll_from j d0 ops = Panic) as Hpanic.
  { induction ops as [|op ops IH]; intros i j d0; simpl; [done|].
    destruct (Apply d0 op); try done. apply IH. }
  split; [intros r|]; split; first [apply ApplyAll_from_ok | apply Hpanic].
Qed.

(** X6. When [ApplyAll] fails, the index in its error is the position of the
    first operation that [Apply] refuses: the operations before it apply in
    sequence, and the cause is [Apply]'s error on the document they
    produced.  The list is one that fits in memory, so that its indices are
    [int]s. *)
Theorem ApplyAll_reports_first_failure
    (D : string) (ops : list (option Operation)) (e : error) :
  Z.of_nat (length ops) <= int_max ->
  ApplyAll D ops = Err e ->
  exists (k : nat) op d cause,
    ops !! k = Some op /\
    ApplyAll D (take k ops) = Ok d /\
    Apply d op = Err cause /\
    e = ErrApplyAll (Z.of_nat k) cause.
Proof.
  unfold ApplyAll.
  assert (forall ops i D,
    0 <= i -> i + Z.of_nat (length ops) <= int_max ->
    ApplyAll_from i D ops = Err e ->
    exists (k : nat) op d cause,
      ops !! k = Some op /\ ApplyAll_from i D (take k ops) = Ok d /\
      Apply d op = Err cause /\ e = ErrApplyAll (i + Z.of_nat k) cause) as Hgen.
  { clear. induction ops as [|op ops IH]; intros i D Hi Hlen; simpl; [done|].
    destruct (Apply D op) as [d|cause|] eqn:Hop; try done.
    - intros Hrest. simpl in Hlen.
      rewrite add_exact in Hrest by fits.
      destruct (IH (i + 1) d ltac:(lia) ltac:(lia) Hrest)
        as (k & op' & d' & cause & Hk & Htake & Hcause & ->).
      exists (S k), op', d', cause. simpl. rewrite Hop.
      rewrite add_exact by fits.
      repeat split; try done. f_equal. lia.
    - intros [= <-]. exists 0%nat, op, D, cause. simpl.
      repeat split; try done. f_equal. lia. }
  intros Hlen Herr.
  destruct (Hgen ops 0 D ltac:(lia) ltac:(lia) Herr)
    as (k & op & d & cause & ? & ? & ? & ->).
  by exists k, op, d, cause.
Qed.

Lemma ApplyAll_reports_first_failure_witness :
  exists (k : nat) op d cause,
    [Some (NewInsertOp 0 "ab" 0); Some (NewDeleteOp 5 "x" 0);
     Some (NewInsertOp 0 "c" 0)] !! k = Some op /\
    ApplyAll "" (take k [Some (NewInsertOp 0 "ab" 0); Some (NewDeleteOp 5 "x" 0);
                         Some (NewInsertOp 0 "c" 0)]) = Ok d /\
    Apply d op = Err cause /\
    ErrApplyAll 1 (ErrDeleteOutOfRange 5 2) = ErrApplyAll (Z.of_nat k) cause.
Proof.
  apply (ApplyAll_reports_first_failure ""
           [Some (NewInsertOp 0 "ab" 0); Some (NewDeleteOp 5 "x" 0);
            Some (NewInsertOp 0 "c" 0)]);
    [unfold int_max; simpl; lia | reflexivity].
Defined.


(** *** [Transform] *)

Lemma transformInsertInsert_shape op1 op2 :
  let r := transformInsertInsert op1 op2 in
  (Type_ r.1 = Type_ op1 /\ Text r.1 = Text op1) /\
  (Type_ r.2 = Type_ op2 /\ Text r.2 = Text op2) /\
  (0 <= Position op1 -> 0 <= Position op2 ->
   Position op1 + len (Text op1) + len (Text op2) <= int_max ->
   Position op2 + len (Text op1) + len (Text op2) <= int_max ->
   0 <= Position r.1 /\ 0 <= Position r.2).
Proof.
  unfold transformInsertInsert, Length.
  pose proof (len_nonneg (Text op1)). pose proof (len_nonneg (Text op2)).
  destruct (Position op1 <? Position op2);
    [|destruct (Position op1 >? Position op2)]; simpl;
    (split; [done|split; [done|]]); intros; rewrite add_exact by fits; lia.
Qed.

Lemma transformInsertDelete_shape insert delete :
  let r := transformInsertDelete insert delete in
  (Type_ r.1 = Type_ insert /\ Text r.1 = Text insert) /\
  (Type_ r.2 = Type_ delete /\ Text r.2 = Text delete) /\
  (0 <= Position insert -> 0 <= Position delete ->
   Position insert + len (Text insert) + len (Text delete) <= int_max ->
   Position delete + len (Text insert) + len (Text delete) <= int_max ->
   0 <= Position r.1 /\ 0 <= Position r.2).
Proof.
  unfold transformInsertDelete, Length.
  pose proof (len_nonneg (Text insert)). pose proof (len_nonneg (Text delete)).
  destruct (Z.leb_spec (Position insert) (Position delete));
    [|destruct (Z.gtb_spec (Position insert)
                  (add (Position delete) (len (Text delete)))) as [Hgt|_]];
    simpl; (split; [done|split; [done|]]); intros.
  - rewrite add_exact by fits. lia.
  - rewrite add_exact in Hgt by fits. rewrite sub_exact by fits. lia.
  - lia.
Qed.

Lemma substring_is_suffix (t : string) (n : Z) :
  0 <= n <= len t ->
  is_suffix (String.substring (Z.to_nat n) (Z.to_nat (len t - n)) t) t.
Proof.
  intros Hn. exists (String.substring 0 (Z.to_nat n) t). symmetry.
  replace (Z.to_nat (len t - n)) with (String.length t - Z.to_nat n)%nat
    by (unfold len; lia).
  apply substring_split. unfold len in Hn. lia.
Qed.

Lemma transformDeleteDelete_shape op1 op2 :
  exists o1 o2,
    transformDeleteDelete op1 op2 = Ok (o1, o2) /\
    (Type_ o1 = Type_ op1 /\ is_suffix (Text o1) (Text op1)) /\
    (Type_ o2 = Type_ op2 /\ is_suffix (Text o2) (Text op2)) /\
    (0 <= Position op1 -> 0 <= Position op2 ->
     Position op1 + len (Text op1) + len (Text op2) <= int_max ->
     Position op2 + len (Text op1) + len (Text op2) <= int_max ->
     0 <= Position o1 /\ 0 <= Position o2).
Proof.
  unfold transformDeleteDelete, Length.
  pose proof (len_nonneg (Text op1)). pose proof (len_nonneg (Text op2)).
  pose proof (is_suffix_refl (Text op1)). pose proof (is_suffix_refl (Text op2)).
  pose proof (is_suffix_empty (Text op1)). pose proof (is_suffix_empty (Text op2)).
  destruct (Z.leb_spec (add (Position op1) (len (Text op1))) (Position op2))
    as [Hbefore|_].
  { eexists _, _. split; [reflexivity|]. simpl.
    split; [done|]. split; [done|]. intros ? ? ? ?.
    rewrite add_exact in Hbefore by fits. rewrite sub_exact by fits. lia. }
  destruct (Z.leb_spec (add (Position op2) (len (Text op2))) (Position op1))
    as [Hafter|_].
  { eexists _, _. split; [reflexivity|]. simpl.
    split; [done|]. split; [done|]. intros ? ? ? ?.
    rewrite add_exact in Hafter by fits. rewrite sub_exact by fits. lia. }
  destruct ((Position op1 =? Position op2)
            && (add (Position op1) (len (Text op1))
                =? add (Position op2) (len (Text op2)))).
  { eexists _, _. split; [reflexivity|]. simpl.
    split; [done|]. split; [done|]. lia. }
  destruct (Position op2 <? Position op1); simpl.
  - set (overlap := sub _ _).
    destruct ((overlap >? 0) && (overlap <? len (Text op1))) eqn:Hclip.
    + apply andb_true_iff in Hclip as [Hpos%Z.gtb_lt Hlt%Z.ltb_lt].
      rewrite slice_ok by lia. simpl.
      eexists _, _. split; [reflexivity|]. simpl.
      split; [|split]; [..|lia]; try done.
      split; [done|]. apply substring_is_suffix. lia.
    + destruct (overlap >=? len (Text op1));
        (eexists _, _; split; [reflexivity|]); simpl;
        (split; [done|]); (split; [done|]); lia.
  - set (overlap := sub _ _).
    destruct ((overlap >? 0) && (overlap <? len (Text op2))) eqn:Hclip.
    + apply andb_true_iff in Hclip as [Hpos%Z.gtb_lt Hlt%Z.ltb_lt].
      rewrite slice_ok by lia. simpl.
      eexists _, _. split; [reflexivity|]. simpl.
      split; [|split]; [..|lia]; try done.
      split; [done|]. apply substring_is_suffix. lia.
    + destruct (overlap >=? len (Text op2));
        (eexists _, _; split; [reflexivity|]); simpl;
        (split; [done|]); (split; [done|]); lia.
Qed.

(** What [Transform] does on two valid operations that are inserts or
    deletes, in one statement that the theorems below share. *)
Lemma Transform_edits (a b : Operation) :
  Validate a = None -> Validate b = None -> is_edit a -> is_edit b ->
  exists a' b',
    Transform (Some a) (Some b) = Ok (a', b') /\
    transformed a a' /\ transformed b b' /\
    (Position a + len (Text a) + len (Text b) <= int_max ->
     Position b + len (Text a) + len (Text b) <= int_max ->
     0 <= Position a' /\ 0 <= Position b').
Proof.
  intros Hva Hvb Hea Heb.
  destruct (Validate_ok a Hva) as (Hpa & _ & _).
  destruct (Validate_ok b Hvb) as (Hpb & _ & _).
  unfold Transform, transformed. rewrite Hva, Hvb.
  set (a1 := {| Type_ := Type_ a; Position := Position a; Text := Text a;
                Version := add (Version a) 1 |}).
  set (b1 := {| Type_ := Type_ b; Position := Position b; Text := Text b;
                Version := add (Version b) 1 |}).
  destruct Hea as [Ha|Ha], Heb as [Hb|Hb]; rewrite Ha, Hb; simpl.
  - pose proof (transformInsertInsert_shape a1 b1) as Hs.
    destruct (transformInsertInsert a1 b1) as [a' b']. simpl in Hs.
    destruct Hs as ((Hk1 & Ht1) & (Hk2 & Ht2) & Hpos).
    exists a', b'. rewrite Hk1, Hk2, Ht1, Ht2.
    repeat split; try done; try apply is_suffix_refl; by apply Hpos.
  - pose proof (transformInsertDelete_shape a1 b1) as Hs.
    destruct (transformInsertDelete a1 b1) as [a' b']. simpl in Hs.
    destruct Hs as ((Hk1 & Ht1) & (Hk2 & Ht2) & Hpos).
    exists a', b'. rewrite Hk1, Hk2, Ht1, Ht2.
    repeat split; try done; try apply is_suffix_refl; by apply Hpos.
  - unfold transformDeleteInsert.
    pose proof (transformInsertDelete_shape b1 a1) as Hs.
    destruct (transformInsertDelete b1 a1) as [b' a']. simpl in Hs.
    destruct Hs as ((Hk1 & Ht1) & (Hk2 & Ht2) & Hpos).
    exists a', b'. rewrite Hk1, Hk2, Ht1, Ht2.
    repeat split; try done; try apply is_suffix_refl; apply Hpos; lia.
  - destruct (transformDeleteDelete_shape a1 b1)
      as (a' & b' & -> & (Hk1 & Ht1) & (Hk2 & Ht2) & Hpos).
    exists a', b'. rewrite Hk1, Hk2. simpl in *.
    repeat split; try done; by apply Hpos.
Qed.

(** X7. [Transform] succeeds on every pair of valid operations that are
    inserts or deletes, and never panics on them.  Each returned operation
    has the kind of the one it comes from; an insert keeps its text, and a
    delete keeps its text or a suffix of it (possibly the empty one). *)
Theorem Transform_total_on_edits (a b : Operation) :
  Validate a = None -> Validate b = None -> is_edit a -> is_edit b ->
  exists a' b',
    Transform (Some a) (Some b) = Ok (a', b') /\
    transformed a a' /\ transformed b b'.
Proof.
  intros Hva Hvb Hea Heb.
  destruct (Transform_edits a b Hva Hvb Hea Heb) as (a' & b' & ? & ? & ? & _).
  by exists a', b'.
Qed.

Lemma Transform_total_on_edits_witness :
  exists a' b',
    Transform (Some (NewDeleteOp 0 "hello" 0)) (Some (NewDeleteOp 3 "lo wo" 0))
    = Ok (a', b') /\
    transformed (NewDeleteOp 0 "hello" 0) a' /\
    transformed (NewDeleteOp 3 "lo wo" 0) b'.
Proof.
  apply (Transform_total_on_edits (NewDeleteOp 0 "hello" 0)
                                  (NewDeleteOp 3 "lo wo" 0));
    [reflexivity | reflexivity | by right | by right].
Defined.

(** X8. What [Transform] returns can be given back to [Validate]: a returned
    operation with a text is valid, and one without a text is a delete that
    was used up by the other delete, which [Validate] (and so [Apply])
    refuses as an empty delete.  The versions are below the largest [int]
    and the positions and lengths add up within an [int]. *)
Theorem Transform_outputs_validate (a b a' b' : Operation) :
  Validate a = None -> Validate b = None -> is_edit a -> is_edit b ->
  Version a < int_max -> Version b < int_max ->
  Position a + len (Text a) + len (Text b) <= int_max ->
  Position b + len (Text a) + len (Text b) <= int_max ->
  Transform (Some a) (Some b) = Ok (a', b') ->
  forall o, o = a' \/ o = b' ->
    (Text o <> "" -> Validate o = None) /\
    (Text o = "" -> Type_ o = OpDelete /\ Validate o = Some ErrEmptyDelete).
Proof.
  intros Hva Hvb Hea Heb Hvera Hverb Hfa Hfb Ht.
  destruct (Transform_edits a b Hva Hvb Hea Heb)
    as (a2 & b2 & Ht' & Hsa & Hsb & Hpos).
  rewrite Ht in Ht'. injection Ht' as <- <-.
  destruct (Hpos Hfa Hfb) as [Hpa Hpb].
  destruct (Transform_versions _ _ _ _ Ht) as [Hv1 Hv2].
  apply Validate_iff in Hva as (_ & Hva & [[_ Hta]|Hra]);
    [|destruct Hea as [Hea|Hea]; rewrite Hea in Hra; discriminate].
  apply Validate_iff in Hvb as (_ & Hvb & [[_ Htb]|Hrb]);
    [|destruct Heb as [Heb|Heb]; rewrite Heb in Hrb; discriminate].
  rewrite add_exact in Hv1, Hv2 by fits.
  assert (forall o o', is_edit o -> Text o <> "" -> transformed o o' ->
                       0 <= Position o' -> 0 <= Version o' ->
            (Text o' <> "" -> Validate o' = None) /\
            (Text o' = "" -> Type_ o' = OpDelete /\
                             Validate o' = Some ErrEmptyDelete)) as Hone.
  { clear. intros o o' He Ht (Hk & _ & Hins) Hp Hv. split.
    - intros Ht'. apply Validate_iff. repeat split; try done.
      left. split; [|done]. unfold is_edit. by rewrite Hk.
    - intros Ht'. assert (Type_ o' = OpDelete) as Hd.
      { rewrite Hk. destruct He as [Hi|Hd]; [|done].
        specialize (Hins Hi). congruence. }
      split; [done|]. unfold Validate. rewrite Hd, Ht'. simpl.
      by destruct (Z.ltb_spec (Position o') 0); [lia|]. }
  intros o [->| ->]; [apply (Hone a) | apply (Hone b)]; try done; lia.
Qed.

Lemma Transform_outputs_validate_witness :
  (Text (NewDeleteOp 3 "lo" 1) <> "" -> Validate (NewDeleteOp 3 "lo" 1) = None) /\
  (Text (NewDeleteOp 3 "lo" 1) = "" ->
   Type_ (NewDeleteOp 3 "lo" 1) = OpDelete /\
   Validate (NewDeleteOp 3 "lo" 1) = Some ErrEmptyDelete).
Proof.
  apply (Transform_outputs_validate
           (NewDeleteOp 0 "hel" 0) (NewDeleteOp 6 "lo" 0)
           (NewDeleteOp 0 "hel" 1) (NewDeleteOp 3 "lo" 1));
    try reflexivity; try (by right); try (by left);
    unfold len, int_max; simpl; lia.
Defined.

Lemma min_comm x y : operations.min x y = operations.min y x.
Proof.
  unfold operations.min.
  destruct (Z.ltb_spec x y), (Z.ltb_spec y x); lia.
Qed.

Lemma transformDeleteDelete_mirror op1 op2 o1 o2 :
  0 <= Position op1 -> 0 <= Position op2 ->
  Text op1 <> "" -> Text op2 <> "" ->
  Position op1 + len (Text op1) + len (Text op2) <= int_max ->
  Position op2 + len (Text op1) + len (Text op2) <= int_max ->
  Position op1 <> Position op2 ->
  transformDeleteDelete op1 op2 = Ok (o1, o2) ->
  transformDeleteDelete op2 op1 = Ok (o2, o1).
Proof.
  intros Hp1 Hp2 Ht1 Ht2 Hf1 Hf2 Hne.
  assert (0 < len (Text op1)) as Hl1.
  { pose proof (len_nonneg (Text op1)).
    destruct (Z.eq_dec (len (Text op1)) 0) as [H0%len_zero_empty|]; [done|lia]. }
  assert (0 < len (Text op2)) as Hl2.
  { pose proof (len_nonneg (Text op2)).
    destruct (Z.eq_dec (len (Text op2)) 0) as [H0%len_zero_empty|]; [done|lia]. }
  unfold transformDeleteDelete, Length.
  rewrite (min_comm (add (Position op2) (len (Text op2)))
                    (add (Position op1) (len (Text op1)))).
  rewrite !add_exact by fits.
  destruct (Z.leb_spec (Position op1 + len (Text op1)) (Position op2)),
           (Z.leb_spec (Position op2 + len (Text op2)) (Position op1));
    try lia; try (by intros [= <- <-]).
  destruct (Z.eqb_spec (Position op1) (Position op2)); [done|].
  destruct (Z.eqb_spec (Position op2) (Position op1)); [done|].
  cbn [andb].
  destruct (Z.ltb_spec (Position op2) (Position op1)),
           (Z.ltb_spec (Position op1) (Position op2)); try lia; simpl;
    set (overlap := sub _ _); compare; try lia;
    try (by intros [= <- <-]);
    destruct (slice _ _ _); simpl; try done; by intros [= <- <-].
Qed.

(** X9. [Transform] does not care which of two concurrent operations is
    given first, except where it has to break a tie: for two valid edits
    of different kinds or at different positions, swapping the arguments
    swaps the results.  (Two inserts at one position are told apart by the
    argument order, and so are two deletes that start together.) *)
Theorem Transform_mirror (a b a' b' : Operation) :
  Validate a = None -> Validate b = None -> is_edit a -> is_edit b ->
  Position a + len (Text a) + len (Text b) <= int_max ->
  Position b + len (Text a) + len (Text b) <= int_max ->
  Type_ a <> Type_ b \/ Position a <> Position b ->
  Transform (Some a) (Some b) = Ok (a', b') ->
  Transform (Some b) (Some a) = Ok (b', a').
Proof.
  intros Hva Hvb Hea Heb Hfa Hfb Hdiff.
  unfold Transform. rewrite Hva, Hvb.
  apply Validate_iff in Hva as (Hpa & _ & [[_ Hta]|Hra]);
    [|destruct Hea as [Hea|Hea]; rewrite Hea in Hra; discriminate].
  apply Validate_iff in Hvb as (Hpb & _ & [[_ Htb]|Hrb]);
    [|destruct Heb as [Heb|Heb]; rewrite Heb in Hrb; discriminate].
  set (a1 := {| Type_ := Type_ a; Position := Position a; Text := Text a;
                Version := add (Version a) 1 |}).
  set (b1 := {| Type_ := Type_ b; Position := Position b; Text := Text b;
                Version := add (Version b) 1 |}).
  destruct Hea as [Ha|Ha], Heb as [Hb|Hb]; rewrite Ha, Hb in *; simpl.
  - assert (Position a <> Position b) as Hne by (by destruct Hdiff).
    unfold transformInsertInsert. simpl.
    destruct (Z.ltb_spec (Position a) (Position b)),
             (Z.ltb_spec (Position b) (Position a)); try lia;
      destruct (Z.gtb_spec (Position a) (Position b)),
               (Z.gtb_spec (Position b) (Position a)); try lia;
      by intros [= <- <-].
  - unfold transformDeleteInsert.
    destruct (transformInsertDelete a1 b1). by intros [= <- <-].
  - unfold transformDeleteInsert.
    destruct (transformInsertDelete b1 a1). by intros [= <- <-].
  - assert (Position a <> Position b) as Hne by (by destruct Hdiff).
    by apply transformDeleteDelete_mirror.
Qed.

Lemma Transform_mirror_witness :
  Transform (Some (NewDeleteOp 3 "lo wo" 0)) (Some (NewDeleteOp 0 "hello" 0))
  = Ok (NewDeleteOp 0 " wo" 1, NewDeleteOp 0 "hello" 1).
Proof.
  apply (Transform_mirror (NewDeleteOp 0 "hello" 0) (NewDeleteOp 3 "lo wo" 0));
    try reflexivity; try (by right); try (unfold len, int_max; simpl; lia).
Defined.

(** X10. [Transform] has no rule for [retain]: when both operations are valid
    and one of them is a retain, it fails and names the two kinds. *)
Theorem Transform_rejects_retain (a b : Operation) :
  Validate a = None -> Validate b = None ->
  Type_ a = OpRetain \/ Type_ b = OpRetain ->
  Transform (Some a) (Some b)
  = Err (ErrUnsupportedCombination (Type_ a) (Type_ b)).
Proof.
  intros Hva Hvb Hr. unfold Transform. rewrite Hva, Hvb.
  apply Validate_iff in Hva as (_ & _ & Hka).
  apply Validate_iff in Hvb as (_ & _ & Hkb).
  destruct Hr as [Hr|Hr]; rewrite Hr; simpl.
  - done.
  - destruct Hka as [[[Hk|Hk] _]|Hk]; rewrite Hk; done.
Qed.

Lemma Transform_rejects_retain_witness :
  Transform (Some (NewInsertOp 0 "a" 0)) (Some (mkOperation OpRetain 2 "" 0))
  = Err (ErrUnsupportedCombination OpInsert OpRetain).
Proof.
  apply (Transform_rejects_retain (NewInsertOp 0 "a" 0)
                                  (mkOperation OpRetain 2 "" 0));
    [reflexivity | reflexivity | by right].
Defined.

Lemma transform_converges_unless_conflicting_witness :
  converge "hello" (NewInsertOp 1 "X" 0) (NewDeleteOp 3 "lo" 0).
Proof.
  apply (transform_converges_unless_conflicting "hello"
           (NewInsertOp 1 "X" 0) (NewDeleteOp 3 "lo" 0));
    try reflexivity.
  - by left.
  - by right.
  - unfold len, int_max. simpl. lia.
  - exists "hXello". reflexivity.
  - exists "hel". reflexivity.
  - unfold conflicting, strictly_inside, overlapping. simpl.
    intros [(_ & _ & H)|[(H & _)|(H & _)]]; [lia | discriminate..].
Defined.

Lemma Apply_never_panics_witness :
  Apply "abc" (Some (NewDeleteOp 1 "zz" 0)) <> Panic.
Proof.
  apply (Apply_never_panics "abc" (Some (NewDeleteOp 1 "zz" 0))).
  intros o [= <-]. unfold len, int_max. simpl. lia.
Defined.

End operations_laws.

(** ** [document]: runs of mutations *)

Module document_laws.

Import operations document GoFacts vocabulary.

Lemma mutate_version d m now d' changed :
  int_min <= version d < int_max ->
  mutate d m now = Some (d', changed) ->
  version d' = version d + (if changed then 1 else 0).
Proof.
  intros Hv. destruct m as [c|op]; simpl.
  - intros [= <- <-]. simpl. rewrite add_exact by fits. done.
  - unfold ApplyOperation.
    destruct (Apply (content d) op) as [r|e|]; intros [= <- <-]; simpl;
      [rewrite add_exact by fits; done | lia].
Qed.

(** X11. The version of a document counts its successful mutations: after any
    run of [SetContent] and [ApplyOperation] calls on a new document in
    which no call panics, the version is the number of calls that changed
    the document ([SetContent] always does, [ApplyOperation] when [Apply]
    accepts the operation), and reading it back with [GetVersion],
    [GetContentAndVersion] or [GetStats] gives that number.  The run is
    shorter than the largest [int]. *)
Theorem version_counts_mutations (t0 : Time)
    (calls : list (mutation * Time)) (d : Document) (n : nat) :
  Z.of_nat (length calls) <= int_max ->
  mutate_all (NewDocument t0) calls = Some (d, n) ->
  GetVersion d = Z.of_nat n /\
  (GetContentAndVersion d).2 = Z.of_nat n /\
  (GetStats d).1.1 = Z.of_nat n /\
  (n <= length calls)%nat.
Proof.
  intros Hlen Hrun.
  assert (forall calls d0 d n,
    0 <= version d0 -> version d0 + Z.of_nat (length calls) <= int_max ->
    mutate_all d0 calls = Some (d, n) ->
    version d = version d0 + Z.of_nat n /\ (n <= length calls)%nat) as Hgen.
  { clear. induction calls as [|[m now] calls IH]; intros d0 d n H0 Hlen; simpl.
    - intros [= <- <-]. split; lia.
    - simpl in Hlen. destruct (mutate d0 m now) as [[d1 changed]|] eqn:Hm; [|done].
      destruct (mutate_all d1 calls) as [[d2 k]|] eqn:Hrest; [|done].
      intros [= <- <-].
      apply mutate_version in Hm; [|fits].
      apply IH in Hrest as [Hv Hk]; [|destruct changed; lia..].
      destruct changed; split; lia. }
  destruct (Hgen calls (NewDocument t0) d n) as [Hv Hn];
    [simpl; lia | simpl; lia | done |].
  unfold GetVersion, GetContentAndVersion, GetStats. simpl in *.
  repeat split; lia.
Qed.

Lemma version_counts_mutations_witness :
  GetVersion {| content := "hi!"; version := 2; lastModified := 3 |} = 2 /\
  (GetContentAndVersion
     {| content := "hi!"; version := 2; lastModified := 3 |}).2 = 2 /\
  (GetStats {| content := "hi!"; version := 2; lastModified := 3 |}).1.1 = 2 /\
  (2 <= 3)%nat.
Proof.
  apply (version_counts_mutations 0
           [(CallSetContent "hi", 1);
            (CallApplyOperation (Some (NewDeleteOp 7 "x" 0)), 2);
            (CallApplyOperation (Some (NewInsertOp 2 "!" 0)), 3)]
           {| content := "hi!"; version := 2; lastModified := 3 |} 2%nat);
    [unfold int_max; simpl; lia | reflexivity].
Defined.

(** X12. A document replays a log: when [ApplyAll] accepts a list of
    operations on the content of a document, giving them to
    [ApplyOperation] one after the other changes the document at every
    call and leaves it with the content [ApplyAll] computed. *)
Theorem ApplyOperation_replays_ApplyAll (d : Document)
    (ops : list (option Operation * Time)) (r : string) :
  ApplyAll (content d) ops.*1 = Ok r ->
  exists d',
    mutate_all d (map (fun x => (CallApplyOperation x.1, x.2)) ops)
    = Some (d', length ops) /\
    GetContent d' = r.
Proof.
  unfold ApplyAll, GetContent. generalize 0 as i. revert d.
  induction ops as [|[op now] ops IH]; intros d i; simpl.
  - intros [= <-]. by exists d.
  - unfold ApplyOperation.
    destruct (Apply (content d) op) as [c|e|] eqn:Hop; [|done..].
    intros Hrest.
    set (d1 := {| content := c; version := add (version d) 1;
                  lastModified := now |}).
    destruct (IH d1 _ Hrest) as (d' & -> & Hc). by exists d'.
Qed.

Lemma ApplyOperation_replays_ApplyAll_witness :
  exists d',
    mutate_all (NewDocument 0)
      (map (fun x => (CallApplyOperation x.1, x.2))
         [(Some (NewInsertOp 0 "helo" 0), 1); (Some (NewInsertOp 3 "l" 1), 2);
          (Some (NewDeleteOp 0 "h" 2), 3)])
    = Some (d', 3%nat) /\
    GetContent d' = "ello".
Proof.
  apply (ApplyOperation_replays_ApplyAll (NewDocument 0)
           [(Some (NewInsertOp 0 "helo" 0), 1); (Some (NewInsertOp 3 "l" 1), 2);
            (Some (NewDeleteOp 0 "h" 2), 3)] "ello").
  reflexivity.
Defined.

End document_laws.

(** ** [hub]: the loop of [Run] and the tables of the hub *)

Module hub_laws.

Import hub hub_facts vocabulary GoFacts.

Lemma grown_refl c : grown c c.
Proof. unfold grown. repeat split. by left. Qed.

Lemma offer_grown c message : grown c (offer c message).
Proof.
  unfold offer. destruct (bool_decide_reflect (full c)) as [Hf|Hf].
  - apply grown_refl.
  - unfold grown. simpl. repeat split. right. by exists message.
Qed.

Lemma touched_grown c c' : touched c c' -> grown c c'.
Proof. intros [->|[message ->]]; [apply grown_refl | apply offer_grown]. Qed.

Lemma touched_closed c c' :
  touched c c' -> closed (send c') = closed (send c).
Proof. intros Ht. by destruct (touched_grown c c' Ht) as (_ & _ & ? & _). Qed.

Lemma fanout_touch h h' sp target message :
  fanout h h' sp target message ->
  forall p c, heap h !! p = Some c ->
    exists c', heap h' !! p = Some c' /\ touched c c' /\
               (target p c = false -> c' = c /\ p ∉ sp) /\
               (p ∈ sp -> p ∈ clients h /\ full c /\ c' = c).
Proof.
  intros [Hcl Hfan] p c Hc. destruct (Hfan p) as [Hout Hin].
  destruct (decide (p ∈ clients h)) as [Hp|Hp].
  - destruct (Hin Hp) as (c0 & Hc0 & Ht). rewrite Hc in Hc0.
    injection Hc0 as <-. destruct (target p c).
    + destruct Ht as [Hq Hsp]. exists (offer c message).
      split; [done|]. split; [right; by exists message|].
      split; [done|]. intros Hin'. apply Hsp in Hin'.
      split; [done|]. split; [done|]. by apply offer_full.
    + destruct Ht as [Hq Hsp]. exists c.
      split; [done|]. split; [by left|]. split; done.
  - destruct (Hout Hp) as [Hq Hsp]. exists c. rewrite Hq.
    split; [done|]. split; [by left|]. split; done.
Qed.

Lemma fanout_quiet h h' target message :
  live h -> clients h' = clients h -> heap h' = heap h ->
  (forall p c, target p c = false) ->
  fanout h h' ∅ target message.
Proof.
  intros Hlive Hcl Hheap Hnone. split; [done|]. intros p. rewrite Hheap. split.
  - intros _. split; [done | apply not_elem_of_empty].
  - intros Hp. destruct (Hlive p Hp) as (c & Hc & _). exists c.
    split; [done|]. rewrite Hnone. split; [done | apply not_elem_of_empty].
Qed.

Section with_json.

Context {J : JSON}.

Lemma broadcastToDocument_frame h d message exclude h' sp :
  broadcastToDocument h d message exclude = Some (h', sp) ->
  documents h' = documents h /\ clients h' = clients h.
Proof.
  unfold broadcastToDocument.
  destruct (range_clients _ _ _ _) as [[hp sp0]|]; simpl; [|done].
  by intros [= <- <-].
Qed.

Lemma broadcastToAll_frame h message exclude h' sp :
  broadcastToAll h message exclude = Some (h', sp) ->
  documents h' = documents h /\ clients h' = clients h.
Proof.
  unfold broadcastToAll.
  destruct (range_clients _ _ _ _) as [[hp sp0]|]; simpl; [|done].
  by intros [= <- <-].
Qed.

Lemma broadcastUserCount_frame h h' sp :
  broadcastUserCount h = Some (h', sp) ->
  documents h' = documents h /\ clients h' = clients h.
Proof.
  unfold broadcastUserCount.
  destruct (countDocuments _ _ _) as [docCounts|]; simpl; [|done].
  destruct (sendUserCounts _ _ _ _) as [[hp sp0]|]; simpl; [|done].
  by intros [= <- <-].
Qed.

(** What a broadcast that is routed by its document id does, whatever its
    type: the entry of its document is set to a document that is the old
    one or one version later, and the bytes that are relayed, if any, go
    to clients of that document other than the sender. *)
Lemma Run_step_routed t0 t1 h message sender msg h' sp :
  Unmarshal message = Some msg ->
  UnmarshalObject message = true ->
  DocumentID msg <> "" ->
  Run_step t0 t1 h (Broadcast message sender) = Some (h', sp) ->
  exists doc' target bytes,
    documents h' = <[DocumentID msg := doc']>
                     (documents (GetOrCreateDocument h (DocumentID msg) t0).1) /\
    clients h' = clients h /\
    (doc' = (GetOrCreateDocument h (DocumentID msg) t0).2 \/
     document.version doc'
     = add (document.version (GetOrCreateDocument h (DocumentID msg) t0).2) 1) /\
    (forall p c, target p c = true ->
       documentID c = DocumentID msg /\ excluded sender p = false) /\
    (live h -> fanout h h' sp target bytes).
Proof.
  intros Hmsg Hobj Hdoc.
  apply String.eqb_neq in Hdoc.
  unfold Run_step, MessageFromBytes, IsLegacyContent.
  rewrite Hmsg, Hobj. simpl. rewrite Hdoc.
  pose proof (live_GetOrCreateDocument h (DocumentID msg) t0) as Hlive1.
  destruct (GetOrCreateDocument_frame h (DocumentID msg) t0)
    as (Hcl & Hheap & Hd & _).
  destruct (GetOrCreateDocument h (DocumentID msg) t0) as [h1 doc].
  simpl in Hlive1, Hcl, Hheap, Hd |- *.
  assert (forall doc' hq,
    hq = set_documents h1 (<[DocumentID msg := doc']> (documents h1)) ->
    doc' = doc \/ document.version doc' = add (document.version doc) 1 ->
    exists doc' target bytes,
      documents hq = <[DocumentID msg := doc']> (documents h1) /\
      clients hq = clients h /\
      (doc' = doc \/ document.version doc' = add (document.version doc) 1) /\
      (forall p c, target p c = true ->
         documentID c = DocumentID msg /\ excluded sender p = false) /\
      (live h -> fanout h hq ∅ target bytes)) as Hquiet.
  { intros doc' hq -> Hdoc'. exists doc', (fun _ _ => false), "".
    simpl. split; [done|]. split; [done|]. split; [done|]. split; [done|].
    intros Hlive. by apply fanout_quiet. }
  assert (h1 = set_documents h1 (<[DocumentID msg := doc]> (documents h1)))
    as Hsame.
  { rewrite insert_id by done. by destruct h1. }
  assert (forall doc' bytes,
    doc' = doc \/ document.version doc' = add (document.version doc) 1 ->
    broadcastToDocument
      (set_documents h1 (<[DocumentID msg := doc']> (documents h1)))
      (DocumentID msg) bytes sender = Some (h', sp) ->
    exists doc' target bytes,
      documents h' = <[DocumentID msg := doc']> (documents h1) /\
      clients h' = clients h /\
      (doc' = doc \/ document.version doc' = add (document.version doc) 1) /\
      (forall p c, target p c = true ->
         documentID c = DocumentID msg /\ excluded sender p = false) /\
      (live h -> fanout h h' sp target bytes)) as Hrelay.
  { intros doc' bytes Hdoc' Hrun.
    exists doc',
      (fun p c => String.eqb (documentID c) (DocumentID msg)
                  && negb (excluded sender p)), bytes.
    destruct (broadcastToDocument_frame _ _ _ _ _ _ Hrun) as [Hds Hcs].
    simpl in Hds, Hcs. split; [done|]. split; [congruence|]. split; [done|].
    split.
    - intros p c [Hsame'%String.eqb_eq Hex%negb_true_iff]%andb_true_iff. done.
    - intros Hlive.
      destruct (broadcastToDocument_fanout
                  (set_documents h1 (<[DocumentID msg := doc']> (documents h1)))
                  (DocumentID msg) bytes sender)
        as (h'' & sp'' & Hrun' & _ & Hfan); [by apply Hlive1|].
      rewrite Hrun in Hrun'. injection Hrun' as <- <-.
      unfold fanout in *. simpl in Hfan. by rewrite Hcl, Hheap in Hfan. }
  destruct (String.eqb (Type_ msg) MsgTypeOperation).
  - destruct (Operation msg) as [op|].
    + unfold document.ApplyOperation.
      destruct (operations.Apply (document.content doc) (Some op))
        as [newContent|err|]; simpl; [| |done].
      * destruct (ToBytes _) as [b| |].
        -- apply Hrelay. by right.
        -- intros [= <- <-]. eapply Hquiet; [reflexivity | by right].
        -- intros [= <- <-]. eapply Hquiet; [reflexivity | by right].
      * intros [= <- <-]. eapply Hquiet; [reflexivity | by left].
    + intros [= <- <-]. eapply Hquiet; [exact Hsame | by left].
  - destruct (String.eqb (Type_ msg) MsgTypeContent).
    + destruct (negb (String.eqb (Content msg) "")).
      * apply Hrelay. by right.
      * intros [= <- <-]. eapply Hquiet; [exact Hsame | by left].
    + rewrite Hsame at 1. apply Hrelay. by left.
Qed.

Lemma Run_step_unrouted t0 t1 h message sender :
  (forall msg, Unmarshal message = Some msg ->
               UnmarshalObject message = true -> DocumentID msg = "") ->
  Run_step t0 t1 h (Broadcast message sender) = broadcastToAll h message None.
Proof.
  intros Hun. unfold Run_step, MessageFromBytes, IsLegacyContent.
  destruct (Unmarshal message) as [msg|]; [|done].
  destruct (UnmarshalObject message); [|done]. simpl.
  by rewrite (Hun msg eq_refl eq_refl).
Qed.

Lemma routed_or_not message :
  (exists msg, Unmarshal message = Some msg /\
               UnmarshalObject message = true /\ DocumentID msg <> "") \/
  (forall msg, Unmarshal message = Some msg ->
               UnmarshalObject message = true -> DocumentID msg = "").
Proof.
  destruct (Unmarshal message) as [msg|]; [|by right].
  destruct (UnmarshalObject message); [|by right].
  destruct (String.eqb_spec (DocumentID msg) "") as [Hd|Hd].
  - right. by intros ? [= <-] _.
  - left. by exists msg.
Qed.

Lemma Run_step_broadcast_fanout t0 t1 h message sender h' sp :
  live h ->
  Run_step t0 t1 h (Broadcast message sender) = Some (h', sp) ->
  exists target bytes, fanout h h' sp target bytes.
Proof.
  intros Hlive Hrun.
  destruct (routed_or_not message) as [(msg & Hmsg & Hobj & Hd)|Hun].
  - destruct (Run_step_routed _ _ _ _ _ _ _ _ Hmsg Hobj Hd Hrun)
      as (_ & target & bytes & _ & _ & _ & _ & Hfan).
    exists target, bytes. by apply Hfan.
  - rewrite Run_step_unrouted in Hrun by done.
    destruct (broadcastToAll_fanout h message None Hlive)
      as (h'' & sp'' & Hrun' & _ & Hfan).
    rewrite Hrun in Hrun'. injection Hrun' as <- <-. eauto.
Qed.

Lemma notify_touched c count : touched c (notify c count).
Proof.
  unfold notify. destruct count as [n|]; [|by left].
  destruct (ToBytes _) as [b| |]; [right; by exists b | by left..].
Qed.

Lemma broadcastUserCount_touch h :
  live h ->
  exists h',
    broadcastUserCount h = Some (h', ∅) /\
    clients h' = clients h /\
    (forall p, p ∉ clients h -> heap h' !! p = heap h !! p) /\
    forall p c, heap h !! p = Some c ->
      exists c', heap h' !! p = Some c' /\ touched c c'.
Proof.
  intros Hlive.
  destruct (broadcastUserCount_spec h Hlive) as (h' & Hrun & Hcl & _ & Hall).
  exists h'. split; [done|]. split; [done|].
  split; [intros p; apply Hall|]. intros p c Hc.
  destruct (Hall p) as [Hout Hin].
  destruct (decide (p ∈ clients h)) as [Hp|Hp].
  - destruct (Hin Hp) as (c0 & Hc0 & _ & Hq). rewrite Hc in Hc0.
    injection Hc0 as <-. eexists. split; [exact Hq | apply notify_touched].
  - exists c. rewrite (Hout Hp). split; [done | by left].
Qed.

(** One iteration of the loop, client by client. *)
Lemma Run_step_touch t0 t1 h e h' sp :
  live h -> admissible h e ->
  Run_step t0 t1 h e = Some (h', sp) ->
  clients h' = clients_after h e /\
  (forall p, p ∈ sp -> p ∈ clients h /\ exists m s, e = Broadcast m s) /\
  forall p c, heap h !! p = Some c ->
    exists c', heap h' !! p = Some c' /\
      ((e = Unregister p /\ p ∈ clients h /\ c' = closed_client c) \/
       ((e = Unregister p -> p ∉ clients h) /\ touched c c')) /\
      (p ∈ sp -> full c /\ c' = c).
Proof.
  intros Hlive Hadm. destruct e as [q|q|message sender].
  - (* Register *)
    simpl in Hadm. destruct Hadm as (cq & Hcq & Hopen). simpl.
    set (h1 := {| clients := {[q]} ∪ clients h; documents := documents h;
                  heap := heap h |}).
    assert (live h1) as Hlive1.
    { intros p [->%elem_of_singleton|Hp]%elem_of_union; simpl; [eauto|].
      by apply Hlive. }
    destruct (broadcastUserCount_touch h1 Hlive1)
        as (h'' & -> & Hcl & Hout & Hall).
    intros [= <- <-]. split; [done|].
    split; [intros p Hp; by apply not_elem_of_empty in Hp|].
    intros p c Hc. destruct (Hall p c Hc) as (c' & Hc' & Ht).
    exists c'. split; [done|]. split; [by right|].
    intros Hp. by apply not_elem_of_empty in Hp.
  - (* Unregister *)
    simpl. destruct (decide (q ∈ clients h)) as [Hq|Hq].
    + rewrite bool_decide_eq_true_2 by done.
      destruct (Hlive q Hq) as (cq & Hcq & Hopen).
      rewrite Hcq. simpl. unfold close. rewrite Hopen. simpl.
      set (h1 := {| clients := clients h ∖ {[q]}; documents := documents h;
                    heap := <[q := _]> (heap h) |}).
      assert (live h1) as Hlive1.
      { intros p [Hp Hne%not_elem_of_singleton]%elem_of_difference. simpl.
        rewrite lookup_insert_ne by done. by apply Hlive. }
      destruct (broadcastUserCount_touch h1 Hlive1)
        as (h'' & -> & Hcl & Hout & Hall).
      intros [= <- <-]. split; [done|].
      split; [intros p Hp; by apply not_elem_of_empty in Hp|].
      intros p c Hc. destruct (decide (p = q)) as [->|Hne].
      * rewrite Hcq in Hc. injection Hc as <-.
        rewrite Hout by (simpl; apply not_elem_of_difference; right;
                         by apply elem_of_singleton).
        simpl. rewrite lookup_insert_eq. eexists. split; [done|].
        split; [by left|]. intros Hp. by apply not_elem_of_empty in Hp.
      * destruct (Hall p c) as (c' & Hc' & Ht).
        { simpl. by rewrite lookup_insert_ne. }
        exists c'. split; [done|]. split.
        -- right. split; [|done]. by intros [= ->].
        -- intros Hp. by apply not_elem_of_empty in Hp.
    + rewrite bool_decide_eq_false_2 by done. simpl.
      destruct (broadcastUserCount_touch h Hlive)
        as (h'' & -> & Hcl & Hout & Hall).
      intros [= <- <-]. split.
      { rewrite Hcl. apply set_eq. intros p.
        rewrite elem_of_difference, elem_of_singleton.
        split; [|tauto]. intros Hp. split; [done|]. by intros ->. }
      split; [intros p Hp; by apply not_elem_of_empty in Hp|].
      intros p c Hc. destruct (Hall p c Hc) as (c' & Hc' & Ht).
      exists c'. split; [done|]. split.
      * right. split; [|done]. by intros [= ->].
      * intros Hp. by apply not_elem_of_empty in Hp.
  - (* Broadcast *)
    intros Hrun.
    destruct (Run_step_broadcast_fanout _ _ _ _ _ _ _ Hlive Hrun)
      as (target & bytes & Hfan).
    split; [apply Hfan|]. split.
    + intros p Hp. split; [|eauto]. destruct Hfan as [_ Hfan].
      destruct (Hfan p) as [Hout _].
      destruct (decide (p ∈ clients h)) as [|Hn]; [done|].
      by destruct (Hout Hn).
    + intros p c Hc.
      destruct (fanout_touch _ _ _ _ _ Hfan p c Hc) as (c' & Hc' & Ht & _ & Hsp).
      exists c'. split; [done|]. split; [by right|].
      intros Hp. by destruct (Hsp Hp) as (_ & ? & ?).
Qed.

(** X13. A broadcast that is routed by its document id stays in its
    document: whatever its type, a client bound to another document keeps
    its queue and is not scheduled for removal, and the documents with
    another id are the ones there were, none created and none changed. *)
Theorem routed_broadcast_stays_in_document (t0 t1 : document.Time) (h : Hub)
    (message : string) (sender : option ptr) (msg : Message)
    (h' : Hub) (sp : gset ptr) :
  live h ->
  Unmarshal message = Some msg ->
  UnmarshalObject message = true ->
  DocumentID msg <> "" ->
  Run_step t0 t1 h (Broadcast message sender) = Some (h', sp) ->
  (forall p c, heap h !! p = Some c -> documentID c <> DocumentID msg ->
               heap h' !! p = Some c /\ (p ∉ sp)) /\
  (forall d, d <> DocumentID msg -> GetDocument h' d = GetDocument h d).
Proof.
  intros Hlive Hmsg Hobj Hd Hrun.
  destruct (Run_step_routed _ _ _ _ _ _ _ _ Hmsg Hobj Hd Hrun)
    as (doc' & target & bytes & Hdocs & _ & _ & Htarget & Hfan).
  split.
  - intros p c Hc Hother.
    destruct (fanout_touch _ _ _ _ _ (Hfan Hlive) p c Hc)
      as (c' & Hc' & _ & Hnot & _).
    destruct (target p c) eqn:Ht.
    + by destruct (Htarget p c Ht).
    + by destruct (Hnot eq_refl) as [-> ?].
  - intros d Hne. unfold GetDocument. rewrite Hdocs.
    rewrite lookup_insert_ne by done.
    by destruct (GetOrCreateDocument_frame h (DocumentID msg) t0)
      as (_ & _ & _ & ->).
Qed.

(** X14. The hub never drops a document and never takes a version back:
    after any iteration of the loop that returns, a document that was in
    the table is still there, as it was or with the next version.  The
    version is an [int] below the largest one; at the largest [int] the
    increment of [SetContent] and [ApplyOperation] wraps around. *)
Theorem Run_step_keeps_documents (t0 t1 : document.Time) (h : Hub)
    (e : event) (h' : Hub) (sp : gset ptr) (d : string)
    (doc : document.Document) :
  Run_step t0 t1 h e = Some (h', sp) ->
  GetDocument h d = Some doc ->
  int_min <= document.GetVersion doc < int_max ->
  exists doc', GetDocument h' d = Some doc' /\
    (doc' = doc \/
     document.GetVersion doc' = document.GetVersion doc + 1) /\
    document.GetVersion doc <= document.GetVersion doc'.
Proof.
  unfold GetDocument, document.GetVersion. intros Hrun Hdoc Hbound.
  assert (forall doc',
    documents h' !! d = Some doc' ->
    doc' = doc \/ document.version doc' = add (document.version doc) 1 ->
    exists doc', documents h' !! d = Some doc' /\
      (doc' = doc \/ document.version doc' = document.version doc + 1) /\
      document.version doc <= document.version doc') as Hstep.
  { intros doc' Hdoc' Hver. exists doc'. split; [done|].
    rewrite add_exact in Hver by fits.
    destruct Hver as [->|Hver]; (split; [tauto | lia]). }
  assert (documents h' = documents h ->
          exists doc', documents h' !! d = Some doc' /\
            (doc' = doc \/ document.version doc' = document.version doc + 1) /\
            document.version doc <= document.version doc') as Hsame.
  { intros Heq. apply (Hstep doc); [by rewrite Heq | by left]. }
  destruct e as [q|q|message sender].
  - simpl in Hrun. apply broadcastUserCount_frame in Hrun as [Hdocs _]. by apply Hsame.
  - simpl in Hrun.
    destruct (bool_decide (q ∈ clients h)).
    + destruct (heap h !! q) as [c|]; [|done]. simpl in Hrun.
      destruct (close (send c)); [|done]. simpl in Hrun.
      apply broadcastUserCount_frame in Hrun as [Hdocs _]. by apply Hsame.
    + simpl in Hrun. apply broadcastUserCount_frame in Hrun as [Hdocs _]. by apply Hsame.
  - destruct (routed_or_not message) as [(msg & Hmsg & Hobj & Hd)|Hun].
    + destruct (Run_step_routed _ _ _ _ _ _ _ _ Hmsg Hobj Hd Hrun)
        as (doc' & _ & _ & Hdocs & _ & Hver & _).
      destruct (GetOrCreateDocument_frame h (DocumentID msg) t0)
        as (_ & _ & Hat & Hothers).
      destruct (decide (d = DocumentID msg)) as [->|Hne].
      * apply (Hstep doc'); [rewrite Hdocs; apply lookup_insert_eq|].
        unfold GetOrCreateDocument in Hver. rewrite Hdoc in Hver. done.
      * apply (Hstep doc); [|by left].
        rewrite Hdocs, lookup_insert_ne by done. by rewrite Hothers.
    + rewrite Run_step_unrouted in Hrun by done.
      apply broadcastToAll_frame in Hrun as [Hdocs _]. by apply Hsame.
Qed.

(** X15. The loop keeps the hub well formed: after an iteration on a hub
    whose registered clients are client objects with an open channel, the
    registered clients are such objects again, and the client set has
    changed by the client of the event and by nobody else. *)
Theorem Run_step_keeps_live (t0 t1 : document.Time) (h : Hub) (e : event)
    (h' : Hub) (sp : gset ptr) :
  live h -> admissible h e ->
  Run_step t0 t1 h e = Some (h', sp) ->
  live h' /\ clients h' = clients_after h e.
Proof.
  intros Hlive Hadm Hrun.
  destruct (Run_step_touch _ _ _ _ _ _ Hlive Hadm Hrun) as (Hcl & _ & Hall).
  split; [|done]. intros p Hp. rewrite Hcl in Hp.
  assert (exists c, heap h !! p = Some c /\ closed (send c) = false /\
                    (e = Unregister p -> p ∉ clients h)) as (c & Hc & Hopen & Hne).
  { destruct e as [q|q|message sender]; simpl in Hp, Hadm.
    - apply elem_of_union in Hp as [->%elem_of_singleton|Hp].
      + destruct Hadm as (c & ? & ?). by exists c.
      + destruct (Hlive p Hp) as (c & ? & ?). by exists c.
    - apply elem_of_difference in Hp as [Hp Hq%not_elem_of_singleton].
      destruct (Hlive p Hp) as (c & ? & ?). exists c.
      split; [done|]. split; [done|]. by intros [= ->].
    - destruct (Hlive p Hp) as (c & ? & ?). by exists c. }
  destruct (Hall p c Hc) as (c' & Hc' & [(He & Hin & _)|[_ Ht]] & _).
  - by destruct (Hne He).
  - exists c'. split; [done|]. by rewrite (touched_closed c c' Ht).
Qed.

(** X16. Within one iteration of the loop a queue only grows at the back,
    by one message at most and only when it had room, so that a queue
    within its capacity stays within it; the document and the capacity of
    a client never change; and the only channel that is closed is the one
    of a registered client that is unregistered, whose queued messages are
    kept. *)
Theorem Run_step_queues_grow (t0 t1 : document.Time) (h : Hub) (e : event)
    (h' : Hub) (sp : gset ptr) :
  live h -> admissible h e ->
  Run_step t0 t1 h e = Some (h', sp) ->
  forall p c, heap h !! p = Some c ->
    exists c', heap h' !! p = Some c' /\
      ((length (buf (send c)) <= cap (send c))%nat ->
       (length (buf (send c')) <= cap (send c'))%nat) /\
      (grown c c' \/
       (e = Unregister p /\ p ∈ clients h /\ c' = closed_client c)).
Proof.
  intros Hlive Hadm Hrun p c Hc.
  destruct (Run_step_touch _ _ _ _ _ _ Hlive Hadm Hrun) as (_ & _ & Hall).
  destruct (Hall p c Hc) as (c' & Hc' & [(He & Hin & ->)|[_ Ht]] & _).
  - exists (closed_client c). split; [done|]. split; [done|]. by right.
  - exists c'. split; [done|]. apply touched_grown in Ht. split; [|by left].
    destruct Ht as (_ & Hcap & _ & [->|(message & -> & Hroom)]);
      rewrite Hcap; [done|].
    unfold full in Hroom. rewrite length_app. simpl. lia.
Qed.

(** X17. A client is scheduled for removal only by a broadcast, only when
    it is registered and its queue is full, and the message it could not
    take is dropped: its queue is left as it was. *)
Theorem eviction_needs_full_queue (t0 t1 : document.Time) (h : Hub)
    (e : event) (h' : Hub) (sp : gset ptr) (p : ptr) :
  live h -> admissible h e ->
  Run_step t0 t1 h e = Some (h', sp) ->
  p ∈ sp ->
  (exists message sender, e = Broadcast message sender) /\
  p ∈ clients h /\
  exists c, heap h !! p = Some c /\ full c /\ heap h' !! p = Some c.
Proof.
  intros Hlive Hadm Hrun Hp.
  destruct (Run_step_touch _ _ _ _ _ _ Hlive Hadm Hrun) as (_ & Hsp & Hall).
  destruct (Hsp p Hp) as [Hin He]. split; [done|]. split; [done|].
  destruct (Hlive p Hin) as (c & Hc & _).
  destruct (Hall p c Hc) as (c' & Hc' & _ & Hfull).
  destruct (Hfull Hp) as [? ->]. by exists c.
Qed.

(** *** The operation and content paths of a routed broadcast *)

Lemma relay_fanout h d t0 ds bytes sender :
  live h ->
  exists h' sp,
    broadcastToDocument (set_documents (GetOrCreateDocument h d t0).1 ds)
      d bytes sender = Some (h', sp) /\
    documents h' = ds /\
    fanout h h' sp
      (fun p c => String.eqb (documentID c) d && negb (excluded sender p))
      bytes.
Proof.
  intros Hlive.
  pose proof (live_GetOrCreateDocument h d t0 Hlive) as Hlive1.
  destruct (GetOrCreateDocument_frame h d t0) as (Hcl & Hheap & _).
  destruct (broadcastToDocument_fanout
              (set_documents (GetOrCreateDocument h d t0).1 ds) d bytes sender)
    as (h' & sp & Hrun & Hdocs & Hfan); [by apply Hlive1|].
  exists h', sp. split; [done|]. split; [done|].
  unfold fanout in *. simpl in Hfan. by rewrite Hcl, Hheap in Hfan.
Qed.

(** X18. An operation message whose operation applies to its document: the
    document takes the new content and the next version, and what is
    relayed to the other clients of the document is the message written
    again with the operation's version set to the version of the document,
    not the bytes that were received. *)
Theorem applied_operation_is_relayed (t0 t1 : document.Time) (h : Hub)
    (message : string) (sender : option ptr) (msg : Message)
    (op : operations.Operation) (newContent bytes : string) :
  live h ->
  Unmarshal message = Some msg ->
  UnmarshalObject message = true ->
  DocumentID msg <> "" ->
  Type_ msg = MsgTypeOperation ->
  Operation msg = Some op ->
  operations.Apply
    (document.GetContent (GetOrCreateDocument h (DocumentID msg) t0).2)
    (Some op) = Ok newContent ->
  Marshal {| Type_ := Type_ msg; DocumentID := DocumentID msg;
             Content := Content msg;
             Operation :=
               Some (operations.set_Version op
                       (add (document.GetVersion
                               (GetOrCreateDocument h (DocumentID msg) t0).2) 1));
             UserCount := UserCount msg |} = Some bytes ->
  exists h' sp,
    Run_step t0 t1 h (Broadcast message sender) = Some (h', sp) /\
    GetDocument h' (DocumentID msg)
    = Some {| document.content := newContent;
              document.version :=
                add (document.GetVersion
                       (GetOrCreateDocument h (DocumentID msg) t0).2) 1;
              document.lastModified := t1 |} /\
    fanout h h' sp
      (fun p c => String.eqb (documentID c) (DocumentID msg)
                  && negb (excluded sender p))
      bytes.
Proof.
  intros Hlive Hmsg Hobj Hdoc Htype Hop Happly Hbytes.
  apply String.eqb_neq in Hdoc.
  unfold Run_step, MessageFromBytes, IsLegacyContent.
  rewrite Hmsg, Hobj. simpl. rewrite Hdoc.
  unfold document.GetContent, document.GetVersion in *.
  pose proof (relay_fanout h (DocumentID msg) t0) as Hrelay.
  destruct (GetOrCreateDocument h (DocumentID msg) t0) as [h1 doc].
  cbn [fst snd] in *. cbv beta iota zeta.
  rewrite Htype, Hop, String.eqb_refl.
  unfold document.ApplyOperation. rewrite Happly. simpl.
  unfold ToBytes. rewrite Htype in Hbytes. rewrite Hbytes.
  destruct (Hrelay
    (<[DocumentID msg :=
         {| document.content := newContent;
            document.version := add (document.version doc) 1;
            document.lastModified := t1 |}]> (documents h1))
    bytes sender Hlive) as (h' & sp & Hrun & Hdocs & Hfan).
  exists h', sp. split; [done|]. split; [|done].
  unfold GetDocument. rewrite Hdocs. apply lookup_insert_eq.
Qed.

(** X19. An operation message whose operation [Apply] refuses is dropped
    without a word: the document keeps its content and its version, no
    queue changes, not even the sender's, and nobody is scheduled for
    removal.  All that is left of the message is the document itself,
    which was created if it was not there. *)
Theorem failed_operation_is_dropped (t0 t1 : document.Time) (h : Hub)
    (message : string) (sender : option ptr) (msg : Message)
    (op : operations.Operation) (err : error) :
  Unmarshal message = Some msg ->
  UnmarshalObject message = true ->
  DocumentID msg <> "" ->
  Type_ msg = MsgTypeOperation ->
  Operation msg = Some op ->
  operations.Apply
    (document.GetContent (GetOrCreateDocument h (DocumentID msg) t0).2)
    (Some op) = Err err ->
  Run_step t0 t1 h (Broadcast message sender)
  = Some ((GetOrCreateDocument h (DocumentID msg) t0).1, ∅) /\
  heap (GetOrCreateDocument h (DocumentID msg) t0).1 = heap h /\
  clients (GetOrCreateDocument h (DocumentID msg) t0).1 = clients h /\
  GetDocument (GetOrCreateDocument h (DocumentID msg) t0).1 (DocumentID msg)
  = Some (GetOrCreateDocument h (DocumentID msg) t0).2.
Proof.
  intros Hmsg Hobj Hdoc Htype Hop Happly.
  apply String.eqb_neq in Hdoc.
  unfold Run_step, MessageFromBytes, IsLegacyContent.
  rewrite Hmsg, Hobj. simpl. rewrite Hdoc.
  unfold document.GetContent, GetDocument in *.
  destruct (GetOrCreateDocument_frame h (DocumentID msg) t0)
    as (Hcl & Hheap & Hd & _).
  destruct (GetOrCreateDocument h (DocumentID msg) t0) as [h1 doc].
  cbn [fst snd] in *. cbv beta iota zeta.
  rewrite Htype, Hop, String.eqb_refl.
  unfold document.ApplyOperation. rewrite Happly. simpl.
  rewrite insert_id by done. split; [|done]. by destruct h1.
Qed.

(** X20. A content message with a document id and a content replaces the
    content of its document, which moves to the next version, and is
    relayed to the other clients of the document, written again from the
    decoded message. *)
Theorem content_replaces_document (t0 t1 : document.Time) (h : Hub)
    (message : string) (sender : option ptr) (msg : Message) :
  live h ->
  Unmarshal message = Some msg ->
  UnmarshalObject message = true ->
  DocumentID msg <> "" ->
  Type_ msg = MsgTypeContent ->
  Content msg <> "" ->
  exists h' sp,
    Run_step t0 t1 h (Broadcast message sender) = Some (h', sp) /\
    GetDocument h' (DocumentID msg)
    = Some (document.SetContent (GetOrCreateDocument h (DocumentID msg) t0).2
              (Content msg) t1) /\
    fanout h h' sp
      (fun p c => String.eqb (documentID c) (DocumentID msg)
                  && negb (excluded sender p))
      (match Marshal msg with Some data => data | None => "" end).
Proof.
  intros Hlive Hmsg Hobj Hdoc Htype Hcontent.
  apply String.eqb_neq in Hdoc. apply String.eqb_neq in Hcontent.
  unfold Run_step, MessageFromBytes, IsLegacyContent.
  rewrite Hmsg, Hobj. simpl. rewrite Hdoc.
  pose proof (relay_fanout h (DocumentID msg) t0) as Hrelay.
  destruct (GetOrCreateDocument h (DocumentID msg) t0) as [h1 doc].
  simpl in *. rewrite Htype, Hcontent. simpl.
  destruct (Hrelay
    (<[DocumentID msg := document.SetContent doc (Content msg) t1]>
       (documents h1))
    (match ToBytes msg with Ok data => data | _ => "" end) sender Hlive)
    as (h' & sp & Hrun & Hdocs & Hfan).
  exists h', sp. split; [done|]. split.
  - unfold GetDocument. rewrite Hdocs. apply lookup_insert_eq.
  - unfold ToBytes in Hfan. by destruct (Marshal msg).
Qed.

(** *** Registration, unregistration and the user count *)

Lemma countClients_ext cs hp hp' d : forall n,
  (forall p, p ∈ cs -> documentID <$> hp' !! p = documentID <$> hp !! p) ->
  countClients cs hp' d n = countClients cs hp d n.
Proof.
  induction cs as [|p cs IH]; intros n Hsame; simpl; [done|].
  pose proof (Hsame p (list_elem_of_here _ _)) as Hp.
  destruct (hp !! p) as [c|], (hp' !! p) as [c'|]; simpl in *; try done.
  injection Hp as ->. apply IH. intros p' Hp'.
  apply Hsame. by apply list_elem_of_further.
Qed.

Lemma notify_documentID c count : documentID (notify c count) = documentID c.
Proof. by destruct (touched_grown _ _ (notify_touched c count)) as [? _]. Qed.

(** After [broadcastUserCount] every registered client has been offered the
    count that [ClientCountForDocument] then reports for its document. *)
Lemma broadcastUserCount_recounts h :
  live h ->
  exists h',
    broadcastUserCount h = Some (h', ∅) /\
    live h' /\ clients h' = clients h /\
    (forall p, p ∉ clients h -> heap h' !! p = heap h !! p) /\
    forall p, p ∈ clients h ->
      exists c n, heap h !! p = Some c /\
        ClientCountForDocument h' (documentID c) = Some n /\
        heap h' !! p = Some (notify c (Some n)).
Proof.
  intros Hlive.
  destruct (broadcastUserCount_spec h Hlive) as (h' & Hrun & Hcl & _ & Hall).
  assert (forall d, ClientCountForDocument h' d = ClientCountForDocument h d)
    as Hcount.
  { intros d. unfold ClientCountForDocument. rewrite Hcl.
    apply countClients_ext. intros p Hp%elem_of_elements.
    destruct (Hall p) as [_ Hin]. destruct (Hin Hp) as (c & -> & _ & ->).
    simpl. by rewrite notify_documentID. }
  exists h'. split; [done|]. split; [|split; [done|split]].
  - intros p Hp. rewrite Hcl in Hp. destruct (Hall p) as [_ Hin].
    destruct (Hin Hp) as (c & Hc & _ & ->).
    destruct (Hlive p Hp) as (c0 & Hc0 & Hopen). rewrite Hc in Hc0.
    injection Hc0 as <-. eexists. split; [done|].
    by rewrite (touched_closed _ _ (notify_touched c _)).
  - intros p. apply Hall.
  - intros p Hp. destruct (Hall p) as [_ Hin].
    destruct (Hin Hp) as (c & Hc & [n Hn] & Hq).
    exists c, n. rewrite Hcount, Hn. by rewrite Hn in Hq.
Qed.

(** The hub on which a registration or an unregistration counts the
    users. *)
Lemma Run_step_membership t0 t1 h e :
  live h -> admissible h e ->
  (forall message sender, e <> Broadcast message sender) ->
  exists h1,
    Run_step t0 t1 h e = broadcastUserCount h1 /\
    live h1 /\ clients h1 = clients_after h e /\
    (forall p, p ∈ clients h1 -> heap h1 !! p = heap h !! p) /\
    (forall q c, e = Unregister q -> q ∈ clients h -> heap h !! q = Some c ->
                 heap h1 !! q = Some (closed_client c)).
Proof.
  intros Hlive Hadm Hmem. destruct e as [q|q|message sender].
  - simpl in Hadm. destruct Hadm as (cq & Hcq & Hopen).
    exists {| clients := {[q]} ∪ clients h; documents := documents h;
              heap := heap h |}.
    split; [done|]. split; [|done].
    intros p [->%elem_of_singleton|Hp]%elem_of_union; simpl; [eauto|].
    by apply Hlive.
  - destruct (decide (q ∈ clients h)) as [Hq|Hq].
    + destruct (Hlive q Hq) as (cq & Hcq & Hopen).
      exists {| clients := clients h ∖ {[q]}; documents := documents h;
                heap := <[q := closed_client cq]> (heap h) |}.
      split.
      { simpl. rewrite bool_decide_eq_true_2 by done.
        rewrite Hcq. simpl. unfold close. by rewrite Hopen. }
      split.
      { intros p [Hp Hne%not_elem_of_singleton]%elem_of_difference. simpl.
        rewrite lookup_insert_ne by done. by apply Hlive. }
      split; [done|]. split.
      * intros p [Hp Hne%not_elem_of_singleton]%elem_of_difference. simpl.
        by rewrite lookup_insert_ne.
      * intros q' c [= <-] _ Hc. simpl. rewrite lookup_insert_eq. congruence.
    + exists h. split.
      { simpl. by rewrite bool_decide_eq_false_2. }
      split; [done|]. split.
      { simpl. apply set_eq. intros p.
        rewrite elem_of_difference, elem_of_singleton.
        split; [|tauto]. intros Hp. split; [done|]. by intros ->. }
      split; [done|]. by intros q' c [= <-] ?.
  - by destruct (Hmem message sender).
Qed.

(** X21. A registration or an unregistration is announced to everybody who
    is registered after it: each of them is offered the user-count message
    for its document, with the count that [ClientCountForDocument] reports
    once the event is handled, and no client is scheduled for removal. *)
Theorem membership_change_is_announced (t0 t1 : document.Time) (h : Hub)
    (e : event) :
  live h -> admissible h e ->
  (forall message sender, e <> Broadcast message sender) ->
  exists h',
    Run_step t0 t1 h e = Some (h', ∅) /\
    clients h' = clients_after h e /\
    forall p, p ∈ clients h' ->
      exists c n, heap h !! p = Some c /\
        ClientCountForDocument h' (documentID c) = Some n /\
        heap h' !! p = Some (notify c (Some n)).
Proof.
  intros Hlive Hadm Hmem.
  destruct (Run_step_membership t0 t1 h e Hlive Hadm Hmem)
    as (h1 & -> & Hlive1 & Hcl1 & Hheap1 & _).
  destruct (broadcastUserCount_recounts h1 Hlive1)
    as (h' & Hrun & _ & Hcl & _ & Hall).
  exists h'. split; [done|]. split; [congruence|].
  intros p Hp. rewrite Hcl in Hp.
  destruct (Hall p Hp) as (c & n & Hc & Hn & Hq).
  exists c, n. by rewrite <- Hheap1.
Qed.

(** X22. Unregistering a registered client takes it out of the client set
    and closes its channel, keeping what was queued; and a second
    unregistration of the same client, as the goroutines started for a
    full queue can send, finds it gone and closes nothing: it does not
    panic on the closed channel. *)
Theorem unregister_closes_once (t0 t1 : document.Time) (h : Hub) (q : ptr) :
  live h -> q ∈ clients h ->
  exists c h',
    heap h !! q = Some c /\
    Run_step t0 t1 h (Unregister q) = Some (h', ∅) /\
    (q ∉ clients h') /\
    heap h' !! q = Some (closed_client c) /\
    forall t2 t3,
      exists h'',
        Run_step t2 t3 h' (Unregister q) = Some (h'', ∅) /\
        clients h'' = clients h' /\
        heap h'' !! q = Some (closed_client c).
Proof.
  intros Hlive Hq.
  destruct (Hlive q Hq) as (c & Hc & _).
  destruct (Run_step_membership t0 t1 h (Unregister q) Hlive I
              ltac:(discriminate))
    as (h1 & -> & Hlive1 & Hcl1 & _ & Hclosed).
  specialize (Hclosed q c eq_refl Hq Hc).
  destruct (broadcastUserCount_recounts h1 Hlive1)
    as (h' & Hrun & Hlive' & Hcl & Hout & _).
  assert (q ∉ clients h') as Hgone.
  { rewrite Hcl, Hcl1. simpl. apply not_elem_of_difference. right.
    by apply elem_of_singleton. }
  exists c, h'. split; [done|]. split; [done|]. split; [done|].
  assert (heap h' !! q = Some (closed_client c)) as Hq'.
  { rewrite Hout by (by rewrite <- Hcl). done. }
  split; [done|]. intros t2 t3.
  destruct (broadcastUserCount_recounts h' Hlive')
    as (h'' & Hrun' & _ & Hcl' & Hout' & _).
  exists h''. split.
  - simpl. by rewrite bool_decide_eq_false_2.
  - split; [done|]. by rewrite Hout'.
Qed.

(** *** The tables of the hub *)

Lemma countClients_filter cs hp d : forall n,
  (forall p, p ∈ cs -> is_Some (hp !! p)) ->
  0 <= n -> n + Z.of_nat (length cs) <= int_max ->
  countClients cs hp d n
  = Some (n + Z.of_nat
            (length (filter (fun p => documentID <$> hp !! p = Some d) cs))).
Proof.
  induction cs as [|p cs IH]; intros n Hheap Hn Hfit; simpl.
  - f_equal. lia.
  - destruct (Hheap p (list_elem_of_here _ _)) as [c Hc]. rewrite Hc. simpl.
    simpl in Hfit.
    assert (forall p', p' ∈ cs -> is_Some (hp !! p')) as Hrest
      by (intros p' Hp'; apply Hheap; by apply list_elem_of_further).
    destruct (String.eqb_spec (documentID c) d) as [Hd|Hd].
    + rewrite filter_cons_True by (rewrite Hc; simpl; by f_equal).
      rewrite add_exact by fits. rewrite IH by (done || lia).
      simpl. f_equal. lia.
    + rewrite filter_cons_False by (rewrite Hc; simpl; congruence).
      rewrite IH by (done || lia). done.
Qed.

(** X23. [ClientCountForDocument] is the number of registered clients that
    are bound to the document, and is at most [ClientCount].  The
    registered clients are client objects, and there are no more of them
    than an [int] counts. *)
Theorem ClientCountForDocument_counts (h : Hub) (d : string) :
  (forall p, p ∈ clients h -> is_Some (heap h !! p)) ->
  ClientCount h <= int_max ->
  ClientCountForDocument h d = Some (Z.of_nat (length (on_document h d))) /\
  Z.of_nat (length (on_document h d)) <= ClientCount h.
Proof.
  intros Hheap Hfit. unfold ClientCountForDocument, ClientCount, on_document in *.
  assert (size (clients h) = length (elements (clients h))) as Hsize by done.
  rewrite Hsize in *. split.
  - rewrite countClients_filter; [done | | done | lia].
    intros p Hp%elem_of_elements. by apply Hheap.
  - apply inj_le, length_filter.
Qed.

(** X24. [GetOrCreateDocument] creates a document once: a second call with
    the same id gives the same document and leaves the hub as the first
    call left it, whatever the clock says; [GetDocument] finds the document
    under its id; the documents with another id are not touched; and a
    document that was there is returned as it is. *)
Theorem GetOrCreateDocument_idempotent (h : Hub) (d : string)
    (t t' : document.Time) :
  GetOrCreateDocument (GetOrCreateDocument h d t).1 d t'
  = GetOrCreateDocument h d t /\
  GetDocument (GetOrCreateDocument h d t).1 d
  = Some (GetOrCreateDocument h d t).2 /\
  (forall d', d' <> d ->
     GetDocument (GetOrCreateDocument h d t).1 d' = GetDocument h d') /\
  match GetDocument h d with
  | Some doc => GetOrCreateDocument h d t = (h, doc)
  | None => (GetOrCreateDocument h d t).2 = document.NewDocument t
  end.
Proof.
  unfold GetDocument.
  destruct (GetOrCreateDocument_frame h d t) as (_ & _ & Hd & Hothers).
  split; [|split; [done|split; [done|]]].
  - unfold GetOrCreateDocument at 1. rewrite Hd.
    by destruct (GetOrCreateDocument h d t).
  - unfold GetOrCreateDocument. by destruct (documents h !! d).
Qed.

End with_json.

End hub_laws.

(** ** The further properties of the hub at work *)

Module hub_laws_examples.

Import hub hub_facts hub_laws vocabulary wire.

Lemma live_with_document : live frames.with_document.
Proof. exact hub_examples.live_three_clients. Qed.

Lemma routed_broadcast_skips_sender_witness :
  exists h' sp,
    Run_step 0 0 three_clients
      (Broadcast (message_json user_count_for_document) (Some p1))
    = Some (h', sp) /\
    heap h' !! p1 = heap three_clients !! p1 /\ (p1 ∉ sp).
Proof.
  eexists _, _. split; [run|].
  apply (routed_broadcast_skips_sender (J := codec) 0 0 three_clients
           (message_json user_count_for_document) p1 user_count_for_document);
    [exact hub_examples.live_three_clients | run | run | discriminate | run].
Defined.

Lemma routed_broadcast_stays_in_document_witness :
  exists h' sp,
    Run_step 0 0 three_clients (Broadcast (message_json insert_hi) (Some p1))
    = Some (h', sp) /\
    (forall p c, heap three_clients !! p = Some c ->
                 documentID c <> DocumentID insert_hi ->
                 heap h' !! p = Some c /\ (p ∉ sp)) /\
    (forall d, d <> DocumentID insert_hi ->
               GetDocument h' d = GetDocument three_clients d).
Proof.
  eexists _, _. split; [run|].
  apply (routed_broadcast_stays_in_document (J := codec) 0 0 three_clients
           (message_json insert_hi) (Some p1) insert_hi);
    [exact hub_examples.live_three_clients | run | run | discriminate | run].
Defined.

Lemma Run_step_keeps_documents_witness :
  exists h',
    Run_step 0 7 frames.with_document
      (Broadcast (message_json insert_hi) (Some p1)) = Some (h', ∅) /\
    exists doc',
      GetDocument h' "doc-A" = Some doc' /\
      (doc' = document.NewDocument 0 \/
       document.GetVersion doc'
       = document.GetVersion (document.NewDocument 0) + 1) /\
      document.GetVersion (document.NewDocument 0) <= document.GetVersion doc'.
Proof.
  eexists. split; [run|].
  apply (Run_step_keeps_documents (J := codec) 0 7 frames.with_document
           (Broadcast (message_json insert_hi) (Some p1)) _ ∅);
    [run | run | unfold GoInt.int_min, GoInt.int_max; simpl; lia].
Defined.

Lemma Run_step_keeps_live_witness :
  exists h',
    Run_step 0 0 three_clients (Unregister p1) = Some (h', ∅) /\
    live h' /\ clients h' = clients_after three_clients (Unregister p1).
Proof.
  eexists. split; [run|].
  apply (Run_step_keeps_live (J := codec) 0 0 three_clients (Unregister p1)
           _ ∅);
    [exact hub_examples.live_three_clients | exact I | run].
Defined.

Lemma Run_step_queues_grow_witness :
  exists h',
    Run_step 0 0 three_clients (Register p1) = Some (h', ∅) /\
    exists c',
      heap h' !! p2 = Some c' /\
      ((length (buf (send (NewClient "doc-A")))
        <= cap (send (NewClient "doc-A")))%nat ->
       (length (buf (send c')) <= cap (send c'))%nat) /\
      (grown (NewClient "doc-A") c' \/
       (Register p1 = Unregister p2 /\ p2 ∈ clients three_clients /\
        c' = closed_client (NewClient "doc-A"))).
Proof.
  eexists. split; [run|].
  apply (Run_step_queues_grow (J := codec) 0 0 three_clients (Register p1)
           _ ∅);
    [exact hub_examples.live_three_clients
    | exists (NewClient "doc-A"); split; reflexivity
    | run | run].
Defined.

Lemma eviction_needs_full_queue_witness :
  exists h',
    Run_step 0 0 one_stalled (Broadcast "hello" None) = Some (h', {[p1]}) /\
    (exists message sender, Broadcast "hello" None = Broadcast message sender) /\
    p1 ∈ clients one_stalled /\
    exists c, heap one_stalled !! p1 = Some c /\ full c /\
              heap h' !! p1 = Some c.
Proof.
  eexists. split; [run|].
  apply (eviction_needs_full_queue (J := codec) 0 0 one_stalled
           (Broadcast "hello" None) _ {[p1]} p1);
    [exact hub_examples.live_one_stalled | exact I | run
    | by apply elem_of_singleton].
Defined.

Lemma applied_operation_is_relayed_witness :
  exists h' sp,
    Run_step 0 7 three_clients (Broadcast (message_json insert_hi) (Some p1))
    = Some (h', sp) /\
    GetDocument h' "doc-A"
    = Some {| document.content := "hi"; document.version := 1;
              document.lastModified := 7 |} /\
    fanout three_clients h' sp
      (fun p c => String.eqb (documentID c) "doc-A"
                  && negb (excluded (Some p1) p))
      (message_json
         {| Type_ := MsgTypeOperation; DocumentID := "doc-A"; Content := "";
            Operation := Some (operations.NewInsertOp 0 "hi" 1);
            UserCount := 0 |}).
Proof.
  apply (applied_operation_is_relayed (J := codec) 0 7 three_clients
           (message_json insert_hi) (Some p1) insert_hi
           (operations.NewInsertOp 0 "hi" 0) "hi");
    [exact hub_examples.live_three_clients | run | run | discriminate
    | reflexivity | reflexivity | reflexivity | reflexivity].
Defined.

Lemma failed_operation_is_dropped_witness :
  Run_step (J := frames.codec) 0 7 frames.with_document
    (Broadcast (message_json frames.delete_far) (Some p1))
  = Some (frames.with_document, ∅).
Proof.
  apply (failed_operation_is_dropped (J := frames.codec) 0 7
           frames.with_document (message_json frames.delete_far) (Some p1)
           frames.delete_far (operations.NewDeleteOp 5 "x" 0)
           (ErrDeleteOutOfRange 5 0));
    [run | run | discriminate | reflexivity | reflexivity | reflexivity].
Defined.

Lemma content_replaces_document_witness :
  exists h' sp,
    Run_step (J := frames.codec) 0 7 frames.with_document
      (Broadcast (message_json frames.content_hi) (Some p1)) = Some (h', sp) /\
    GetDocument h' "doc-A"
    = Some {| document.content := "hi"; document.version := 1;
              document.lastModified := 7 |} /\
    fanout frames.with_document h' sp
      (fun p c => String.eqb (documentID c) "doc-A"
                  && negb (excluded (Some p1) p))
      (message_json frames.content_hi).
Proof.
  apply (content_replaces_document (J := frames.codec) 0 7
           frames.with_document (message_json frames.content_hi) (Some p1)
           frames.content_hi);
    [exact live_with_document | run | run | discriminate | reflexivity
    | discriminate].
Defined.

Lemma membership_change_is_announced_witness :
  exists h',
    Run_step 0 0 three_clients (Unregister p2) = Some (h', ∅) /\
    clients h' = clients_after three_clients (Unregister p2) /\
    forall p, p ∈ clients h' ->
      exists c n, heap three_clients !! p = Some c /\
        ClientCountForDocument h' (documentID c) = Some n /\
        heap h' !! p = Some (notify c (Some n)).
Proof.
  apply (membership_change_is_announced (J := codec) 0 0 three_clients
           (Unregister p2));
    [exact hub_examples.live_three_clients | exact I | discriminate].
Defined.

Lemma unregister_closes_once_witness :
  exists c h',
    heap three_clients !! p1 = Some c /\
    Run_step 0 0 three_clients (Unregister p1) = Some (h', ∅) /\
    (p1 ∉ clients h') /\
    heap h' !! p1 = Some (closed_client c) /\
    forall t2 t3,
      exists h'',
        Run_step t2 t3 h' (Unregister p1) = Some (h'', ∅) /\
        clients h'' = clients h' /\
        heap h'' !! p1 = Some (closed_client c).
Proof.
  apply (unregister_closes_once (J := codec) 0 0 three_clients p1);
    [exact hub_examples.live_three_clients | member].
Defined.

Lemma ClientCountForDocument_counts_witness :
  ClientCountForDocument three_clients "doc-A"
  = Some (Z.of_nat (length (on_document three_clients "doc-A"))) /\
  Z.of_nat (length (on_document three_clients "doc-A"))
  <= ClientCount three_clients.
Proof.
  apply (ClientCountForDocument_counts three_clients "doc-A").
  - intros p Hp. destruct (hub_examples.live_three_clients p Hp) as (c & -> & _).
    by exists c.
  - by vm_compute.
Defined.

End hub_laws_examples.
